(** * Google-Forms-AutoSort-and-Notify: the submission script, verified

    A shallow embedding of [form_submission.js] (a Google Apps Script running
    on the V8 runtime) and the proofs of its naming, routing and failure
    handling properties.

    Conventions of the embedding.
    - A JavaScript string is a [string]: a sequence of code units, of which
      the model covers U+0000 to U+00FF (one [ascii] per code unit).  Indices
      are [Z], as [lastIndexOf] answers [-1] when it finds nothing.
    - An object used as a dictionary is a [gmap string string] for its own
      properties; a property read also consults [Object.prototype], as the
      bracket notation of the language does.
    - The Apps Script services (DriveApp, MailApp, Logger) are a state and
      exception monad [M] over a [World]; which service calls fail is decided
      by the [Platform] the script runs on. *)

From Stdlib Require Import ZArith Ascii String List Lia.
From stdpp Require Import base decidable option list gmap strings pretty.

Local Open Scope Z_scope.

(** ** JavaScript string primitives *)

Module JS.

(** The double quote, written by its code so that no literal has to
    escape it. *)
Definition dquote : ascii := "034"%char.

Definition str (c : ascii) : string := String c EmptyString.

Fixpoint take (n : nat) (s : string) : string :=
  match n, s with
  | S n', String c t => String c (take n' t)
  | _, _ => EmptyString
  end.

Fixpoint drop (n : nat) (s : string) : string :=
  match n, s with
  | S n', String _ t => drop n' t
  | _, _ => s
  end.

Definition len (s : string) : Z := Z.of_nat (String.length s).

(** [s.startsWith(pat)], the test behind every search below. *)
Fixpoint startsWith (pat s : string) : bool :=
  match pat, s with
  | EmptyString, _ => true
  | String a pat', String b s' => Ascii.eqb a b && startsWith pat' s'
  | String _ _, EmptyString => false
  end.

(** [s.lastIndexOf(pat)]: the greatest index at which [pat] occurs in [s],
    [-1] when there is none.  The scan runs left to right and keeps the
    latest hit. *)
Fixpoint lastIndexOf_from (pat s : string) (i last : Z) : Z :=
  let last' := if startsWith pat s then i else last in
  match s with
  | EmptyString => last'
  | String _ t => lastIndexOf_from pat t (i + 1) last'
  end.

Definition lastIndexOf (s pat : string) : Z := lastIndexOf_from pat s 0 (-1).

(** [s.slice(start)] with one argument: a negative [start] counts from the
    end of the string. *)
Definition slice (s : string) (start : Z) : string :=
  let from := if start <? 0 then Z.max (len s + start) 0
              else Z.min start (len s) in
  drop (Z.to_nat from) s.

(** [s.substring(a, b)]: both arguments are clamped to [0 .. length] and
    swapped when out of order. *)
Definition substring (s : string) (a b : Z) : string :=
  let a' := Z.min (Z.max a 0) (len s) in
  let b' := Z.min (Z.max b 0) (len s) in
  let from := Z.min a' b' in
  let to := Z.max a' b' in
  take (Z.to_nat (to - from)) (drop (Z.to_nat from) s).

(** [s.replace(/[class]/g, rep)]: every code unit of the class is replaced,
    the replacement text is not scanned again. *)
Fixpoint replaceClass (class : ascii -> bool) (rep : string) (s : string)
  : string :=
  match s with
  | EmptyString => EmptyString
  | String c t =>
      if class c then rep +:+ replaceClass class rep t
      else String c (replaceClass class rep t)
  end.

(** [s.replace(/c/g, rep)] for a single literal character. *)
Definition replaceChar (c : ascii) (rep : string) (s : string) : string :=
  replaceClass (Ascii.eqb c) rep s.

(** White space and line terminators removed by [trim], within the code
    units of the model: TAB, LF, VT, FF, CR, SPACE and NO-BREAK SPACE. *)
Definition isWhiteSpace (c : ascii) : bool :=
  match c with
  | "009" | "010" | "011" | "012" | "013" | " " | "160" => true
  | _ => false
  end%char.

Fixpoint trimStart (s : string) : string :=
  match s with
  | EmptyString => EmptyString
  | String c t => if isWhiteSpace c then trimStart t else s
  end.

Fixpoint trimEnd (s : string) : string :=
  match s with
  | EmptyString => EmptyString
  | String c t =>
      match trimEnd t with
      | EmptyString => if isWhiteSpace c then EmptyString else str c
      | t' => String c t'
      end
  end.

(** [s.trim()] *)
Definition trim (s : string) : string := trimEnd (trimStart s).

(** [array.join(sep)] on an array of strings *)
Fixpoint join (sep : string) (l : list string) : string :=
  match l with
  | [] => EmptyString
  | [x] => x
  | x :: rest => x +:+ sep +:+ join sep rest
  end.

(** [array.includes(x)] on an array of strings *)
Definition includes (l : list string) (x : string) : bool :=
  existsb (String.eqb x) l.

(** [s.includes(pat)]; the source never calls it, the statements use it to
    say that a text occurs in another. *)
Fixpoint occursIn (pat s : string) : bool :=
  startsWith pat s ||
  match s with
  | EmptyString => false
  | String _ t => occursIn pat t
  end.

(** The first closing brace of [s] cuts it in two. *)
Fixpoint splitAtClose (s : string) : option (string * string) :=
  match s with
  | EmptyString => None
  | String c t =>
      if Ascii.eqb c "}" then Some (EmptyString, t)
      else match splitAtClose t with
           | Some (x, rest) => Some (String c x, rest)
           | None => None
           end
  end.

(** A match of the regular expression [/\{([^}]+)\}/] anchored at the head
    of [s]: the captured group and the text after the match.  The group is
    the whole run up to the first closing brace and must not be empty. *)
Definition matchPlaceholder (s : string) : option (string * string) :=
  match s with
  | String c t =>
      if Ascii.eqb c "{" then
        match splitAtClose t with
        | Some (String g x, rest) => Some (String g x, rest)
        | _ => None
        end
      else None
  | EmptyString => None
  end.

(** [s.replace(/\{([^}]+)\}/g, (match, group) => f(group))]: the matches
    are found from left to right, they do not overlap, the text between
    them is copied and what [f] returns is never scanned.  Every step
    consumes at least one code unit, so [String.length s] steps are
    enough. *)
Fixpoint replacePlaceholders_fuel (fuel : nat) (f : string -> string)
  (s : string) : string :=
  match fuel with
  | O => s
  | S fuel' =>
      match matchPlaceholder s with
      | Some (group, rest) => f group +:+ replacePlaceholders_fuel fuel' f rest
      | None =>
          match s with
          | EmptyString => EmptyString
          | String c t => String c (replacePlaceholders_fuel fuel' f t)
          end
      end
  end.

Definition replacePlaceholders (f : string -> string) (s : string) : string :=
  replacePlaceholders_fuel (String.length s) f s.

End JS.

(** ** Property reads on a plain object

    [buildFromTemplate] reads [allPlaceholders[placeholder]] on an object
    built by an object literal.  Such an object inherits from
    [Object.prototype], so a read that finds no own property goes on to the
    properties every object inherits. *)

Inductive Value : Type :=
  | VString (s : string)
  | VNativeFunction (name : string)   (* a built-in method *)
  | VObjectPrototype.                 (* the object [Object.prototype] itself *)

(** The properties of [Object.prototype] on the V8 runtime. *)
Definition Object_prototype (key : string) : option Value :=
  if String.eqb key "constructor" then Some (VNativeFunction "Object")
  else if String.eqb key "__proto__" then Some VObjectPrototype
  else if JS.includes
            [ "hasOwnProperty"; "isPrototypeOf"; "propertyIsEnumerable";
              "toLocaleString"; "toString"; "valueOf";
              "__defineGetter__"; "__defineSetter__";
              "__lookupGetter__"; "__lookupSetter__" ] key
       then Some (VNativeFunction key)
  else None.

(** [obj[key]]; [None] is [undefined]. *)
Definition getProperty (obj : gmap string string) (key : string) : option Value :=
  match obj !! key with
  | Some s => Some (VString s)
  | None => Object_prototype key
  end.

(** [obj[key] = v] on a plain object: the assignment to ["__proto__"] runs the
    inherited setter, which ignores a string. *)
Definition setProperty (obj : gmap string string) (key v : string)
  : gmap string string :=
  if String.eqb key "__proto__" then obj else <[key := v]> obj.

(** The conversion to a string that [String.prototype.replace] applies to
    what its callback returns. *)
Definition ToString (v : Value) : string :=
  match v with
  | VString s => s
  | VNativeFunction name => "function " +:+ name +:+ "() { [native code] }"
  | VObjectPrototype => "[object Object]"
  end.

(** ** The data of a submission *)

(** The kinds of form items with a single answer or a flat list of answers;
    only [FILE_UPLOAD] is told apart by the script. *)
Inductive ItemType : Type :=
  | CHECKBOX | DATE | DATETIME | DURATION | FILE_UPLOAD | LIST
  | MULTIPLE_CHOICE | PARAGRAPH_TEXT | SCALE | TEXT | TIME.

Definition ItemType_eqb (a b : ItemType) : bool :=
  match a, b with
  | CHECKBOX, CHECKBOX | DATE, DATE | DATETIME, DATETIME
  | DURATION, DURATION | FILE_UPLOAD, FILE_UPLOAD | LIST, LIST
  | MULTIPLE_CHOICE, MULTIPLE_CHOICE | PARAGRAPH_TEXT, PARAGRAPH_TEXT
  | SCALE, SCALE | TEXT, TEXT | TIME, TIME => true
  | _, _ => false
  end.

(** What [itemResponse.getResponse()] returns: [null], a string, or an array
    of strings (the chosen options, or the ids of the uploaded files). *)
Inductive Response : Type :=
  | RNull
  | RString (s : string)
  | RArray (l : list string).

Record ItemResponse : Type := {
  getTitle : string;        (* itemResponse.getItem().getTitle() *)
  getType : ItemType;       (* itemResponse.getItem().getType() *)
  getResponse : Response    (* itemResponse.getResponse() *)
}.

(** ** Configuration *)

Record Config : Type := {
  TARGET_SHARED_DRIVE_ID : string;
  EMAIL_RECIPIENTS : string;
  ADMIN_EMAIL : string;
  EMAIL_SUBJECT_TEMPLATE : string;
  FILE_NAME_TEMPLATE : string;
  FILE_NAME_PREFIX_TEMPLATE : string;
  SPECIAL_NAMING_QUESTION_TITLE : string;
  EXCLUDE_FROM_FOLDER_NAME : list string;
  EXCLUDE_FROM_EMAIL_BODY : list string
}.

(** The configuration the script ships with. *)
Definition CONFIG : Config := {|
  TARGET_SHARED_DRIVE_ID := "DriveID";
  EMAIL_RECIPIENTS := "email1@email.com,email2@email.com";
  ADMIN_EMAIL := "admin@email.com";
  EMAIL_SUBJECT_TEMPLATE :=
    "Purchase Order Submission: {Funding Source} - {Vendor} - {Last Name}";
  FILE_NAME_TEMPLATE :=
    "{Funding Source} - {Vendor} - {Last Name} - {QuestionTitle}";
  FILE_NAME_PREFIX_TEMPLATE := "{Funding Source} - {Vendor} - {Last Name}";
  SPECIAL_NAMING_QUESTION_TITLE := "Supporting Docs (SDS, Justification, etc)";
  EXCLUDE_FROM_FOLDER_NAME :=
    [ "First Name";
      "Do you know the funding code or name of the fund?";
      "Is this purchase supporting a Capstone Project, Honors Research Project, or Student Independent Research Project?";
      "If you answered anything but no, please give the sponsoring dept, project, and Student name";
      "Description of the items being ordered and a justification for the order (e.g. resistors and sensors for use in EW309 coursework)";
      "Does this order require an ITPRA/ITPR or RFR (Radio Frequency Review)?";
      "Does this order contain any hazardous materials (HAZMAT)? Examples include glue, paint, solvents, etc.  (If so, provide SDS sheet)";
      "Total purchase price" ];
  EXCLUDE_FROM_EMAIL_BODY :=
    [ "One or Two keywords word describing the items being ordered (this is used for folder naming and text in email subject lines)";
      "Do you know the funding code or name of the fund?";
      "Is this purchase supporting a Capstone Project, Honors Research Project, or Student Independent Research Project?";
      "If you answered anything but no, please give the sponsoring dept, project, and Student name" ]
|}.

(** ** The pure functions of the script *)

(** The reducer of [onFormSubmit] that builds [responseMap]. *)
Definition buildResponseMap (itemResponses : list ItemResponse)
  : gmap string string :=
  fold_left
    (fun map response =>
       let title := getTitle response in
       setProperty map title
         match getResponse response with
         | RNull => EmptyString              (* [?? ''], then [toString] *)
         | RString s => s
         | RArray l => JS.join ", " l
         end)
    itemResponses ∅.

Definition buildFolderName (cfg : Config) (itemResponses : list ItemResponse)
  (timestamp : string) : string :=
  let parts :=
    List.filter (fun part => negb (String.eqb part EmptyString))
      (List.map
         (fun response =>
            match getResponse response with
            | RNull => JS.trim EmptyString
            | RString s => JS.trim s
            | RArray l => JS.join ", " l
            end)
         (List.filter
            (fun response =>
               negb (ItemType_eqb (getType response) FILE_UPLOAD) &&
               negb (JS.includes (EXCLUDE_FROM_FOLDER_NAME cfg) (getTitle response)))
            itemResponses)) in
  timestamp +:+ "_PENDING_" +:+ JS.join "_" parts.

(** The callback of the replacement in [buildFromTemplate]:
    [allPlaceholders[placeholder] ?? 'N/A'], converted to a string. *)
Definition placeholderValue (allPlaceholders : gmap string string)
  (placeholder : string) : string :=
  match getProperty allPlaceholders placeholder with
  | Some v => ToString v
  | None => "N/A"
  end.

(** The spread [{...responseMap, ...additionalPlaceholders}]: the properties
    copied last win, so the union is biased to [additionalPlaceholders]. *)
Definition buildFromTemplate (template : string)
  (responseMap additionalPlaceholders : gmap string string) : string :=
  let allPlaceholders := additionalPlaceholders ∪ responseMap in
  JS.replacePlaceholders (placeholderValue allPlaceholders) template.

(** The character class of the two sanitizing replacements: backslash,
    slash, colon, double quote, star, question mark, angle brackets, bar. *)
Definition isIllegal (c : ascii) : bool :=
  match c with
  | "\" | "/" | ":" | "034" | "*" | "?" | "<" | ">" | "|" => true
  | _ => false
  end%char.

(** The replacement of every character of that class by a dash. *)
Definition sanitize (name : string) : string := JS.replaceClass isIllegal "-" name.

(** [originalName.slice(originalName.lastIndexOf('.'))] *)
Definition extensionOf (originalName : string) : string :=
  JS.slice originalName (JS.lastIndexOf originalName ".").

(** The original name without the suffix the form platform appends. *)
Definition originalBaseNameOf (originalName : string) : string :=
  let separatorIndex := JS.lastIndexOf originalName " - " in
  if negb (separatorIndex =? -1)
  then JS.substring originalName 0 separatorIndex
  else JS.substring originalName 0 (JS.lastIndexOf originalName ".").

(** The name [processAndRenameFiles] computes for the file at [index] among
    the [fileCount] files of the question [questionTitle]. *)
Definition newFileNameOf (cfg : Config) (responseMap : gmap string string)
  (questionTitle : string) (fileCount index : nat) (originalName : string)
  : string :=
  let extension := extensionOf originalName in
  if String.eqb questionTitle (SPECIAL_NAMING_QUESTION_TITLE cfg) then
    let prefix := buildFromTemplate (FILE_NAME_PREFIX_TEMPLATE cfg) responseMap ∅ in
    let sanitizedPrefix := sanitize prefix in
    let originalBaseName := originalBaseNameOf originalName in
    sanitizedPrefix +:+ " - " +:+ originalBaseName +:+ extension
  else
    let baseFileName :=
      buildFromTemplate (FILE_NAME_TEMPLATE cfg) responseMap
        {[ "QuestionTitle" := questionTitle ]} in
    let sanitizedBaseName := sanitize baseFileName in
    let newFileName := sanitizedBaseName in
    let newFileName :=
      if (1 <? fileCount)%nat
      then newFileName +:+ " (" +:+ pretty (index + 1)%nat +:+ ")"
      else newFileName in
    newFileName +:+ extension.

(** [escapeHtml]; its argument is always a string here, so the guard on
    [typeof text] never fires. *)
Definition escapeHtml (text : string) : string :=
  JS.replaceChar "'" "&#039;"
    (JS.replaceChar JS.dquote "&quot;"
       (JS.replaceChar ">" "&gt;"
          (JS.replaceChar "<" "&lt;"
             (JS.replaceChar "&" "&amp;" text)))).

(** The text one item adds to [emailBody] in [sendNotificationEmail]. *)
Definition emailFragment (cfg : Config) (itemResponse : ItemResponse) : string :=
  if negb (ItemType_eqb (getType itemResponse) FILE_UPLOAD) &&
     negb (JS.includes (EXCLUDE_FROM_EMAIL_BODY cfg) (getTitle itemResponse))
  then
    let questionTitle := getTitle itemResponse in
    let safeTitle := escapeHtml questionTitle in
    let formattedAnswer :=
      match getResponse itemResponse with
      | RNull => escapeHtml "<em>No response provided</em>"
      | RString s => escapeHtml s
      | RArray l => escapeHtml (JS.join ", " l)
      end in
    "<strong>" +:+ safeTitle +:+ ":</strong> " +:+ formattedAnswer +:+ "<br/><br/>"
  else EmptyString.

(** The body [sendNotificationEmail] has built when its loop ends. *)
Definition buildEmailBody (cfg : Config) (itemResponses : list ItemResponse)
  : string :=
  fold_left (fun emailBody itemResponse => emailBody +:+ emailFragment cfg itemResponse)
    itemResponses EmptyString.

(** ** The Apps Script services: state, trace and exceptions *)

Record Error : Type := { message : string; stack : string }.

Record File : Type := { fileName : string; fileParent : string }.

(** A folder handle as the script holds it. *)
Record Folder : Type := { idOf : string; nameOf : string }.

Record Mail : Type := {
  mailTo : string; mailSubject : string; mailBody : string; mailIsHtml : bool
}.

(** The calls the script makes to DriveApp and MailApp. *)
Inductive Call : Type :=
  | GetFileById (fileId : string)
  | FileGetName (fileId : string)
  | FileSetName (fileId name : string)
  | FileMoveTo (fileId destination : string)
  | GetFolderById (id : string)
  | CreateFolder (parent name : string)
  | FolderGetName (id : string)
  | FolderGetId (id : string)
  | SendEmail (mail : Mail).

(** One constructor per [Logger.log] of the submission path, with the values
    the message interpolates. *)
Inductive LogEntry : Type :=
  | LogFolderCreated (name id : string)
  | LogRenamed (originalName newFileName destination : string)
  | LogFailed (fileId reason : string)
  | LogError (errorMessage : string)
  | LogNotified (recipients : string).

Record World : Type := {
  files : gmap string File;      (* the files of the Drive, by id *)
  folders : gmap string string;  (* the folders of the Drive: id to name *)
  logged : list LogEntry;        (* what Logger holds, oldest first *)
  calls : list Call              (* every service call made, oldest first *)
}.

(** What the script cannot control: which service calls raise, the id the
    Drive gives to a new folder, the exception DriveApp raises for an id
    that is not on the Drive, and the frames the engine writes in the stack
    of an exception raised by the script itself. *)
Record Platform : Type := {
  fault : Call -> option Error;
  newFolderId : string;
  notFound : Error;
  stackFrames : string
}.

Inductive Result (A : Type) : Type :=
  | Ok (a : A)
  | Throw (e : Error).
Arguments Ok {A} a.
Arguments Throw {A} e.

Definition M (A : Type) : Type := World -> Result A * World.

Definition ret {A} (a : A) : M A := fun w => (Ok a, w).

Definition throw {A} (e : Error) : M A := fun w => (Throw e, w).

Definition bind {A B} (m : M A) (k : A -> M B) : M B :=
  fun w =>
    match m w with
    | (Ok a, w') => k a w'
    | (Throw e, w') => (Throw e, w')
    end.

(** [try { m } catch (error) { handler error }]: what [m] did before it
    raised stays done. *)
Definition try_catch {A} (m : M A) (handler : Error -> M A) : M A :=
  fun w =>
    match m w with
    | (Ok a, w') => (Ok a, w')
    | (Throw e, w') => handler e w'
    end.

Notation "'do' x <- m ; k" := (bind m (fun x => k))
  (at level 10, x name, m at level 100, k at level 200).
Notation "m ;; k" := (bind m (fun _ => k))
  (at level 100, k at level 200, right associativity).

(** [array.forEach((x, index) => body)] *)
Fixpoint forEach_from {A} (body : A -> nat -> M unit) (l : list A) (index : nat)
  : M unit :=
  match l with
  | [] => ret tt
  | x :: rest => body x index ;; forEach_from body rest (S index)
  end.

Definition forEach {A} (body : A -> nat -> M unit) (l : list A) : M unit :=
  forEach_from body l 0.

Definition newline : string := JS.str "010"%char.

(** The [TypeError] of a call to [forEach] on a value that has none.  The
    stack starts with the name and the message of the error; the frames
    follow. *)
Definition notAFunction (platform : Platform) : Error :=
  {| message := "fileIds.forEach is not a function";
     stack := "TypeError: fileIds.forEach is not a function"
                +:+ stackFrames platform |}.

Section Script.

Variable platform : Platform.
Variable cfg : Config.

(** A service call: it is recorded, then it raises if the platform says
    so, else it takes effect. *)
Definition call {A} (c : Call) (effect : M A) : M A :=
  fun w =>
    let w' := {| files := files w; folders := folders w;
                 logged := logged w; calls := calls w ++ [c] |} in
    match fault platform c with
    | Some e => (Throw e, w')
    | None => effect w'
    end.

(** [Logger.log] *)
Definition log (entry : LogEntry) : M unit :=
  fun w =>
    (Ok tt, {| files := files w; folders := folders w;
               logged := logged w ++ [entry]; calls := calls w |}).

Definition setFile (fileId : string) (f : File) : M unit :=
  fun w =>
    (Ok tt, {| files := <[fileId := f]> (files w); folders := folders w;
               logged := logged w; calls := calls w |}).

(** [DriveApp.getFileById(fileId)]; the handle is the id. *)
Definition getFileById (fileId : string) : M string :=
  call (GetFileById fileId)
    (fun w => match files w !! fileId with
              | Some _ => (Ok fileId, w)
              | None => (Throw (notFound platform), w)
              end).

(** [file.getName()] *)
Definition getName (file : string) : M string :=
  call (FileGetName file)
    (fun w => match files w !! file with
              | Some f => (Ok (fileName f), w)
              | None => (Throw (notFound platform), w)
              end).

(** [file.setName(name)] *)
Definition setName (file name : string) : M unit :=
  call (FileSetName file name)
    (fun w => match files w !! file with
              | Some f =>
                  setFile file {| fileName := name; fileParent := fileParent f |} w
              | None => (Throw (notFound platform), w)
              end).

(** [file.moveTo(destination)] *)
Definition moveTo (file : string) (destination : Folder) : M unit :=
  call (FileMoveTo file (idOf destination))
    (fun w => match files w !! file with
              | Some f =>
                  setFile file {| fileName := fileName f;
                                  fileParent := idOf destination |} w
              | None => (Throw (notFound platform), w)
              end).

(** [DriveApp.getFolderById(id)] *)
Definition getFolderById (id : string) : M Folder :=
  call (GetFolderById id)
    (fun w => match folders w !! id with
              | Some name => (Ok {| idOf := id; nameOf := name |}, w)
              | None => (Throw (notFound platform), w)
              end).

(** [parent.createFolder(name)] *)
Definition createFolder (parent : Folder) (name : string) : M Folder :=
  call (CreateFolder (idOf parent) name)
    (fun w =>
       (Ok {| idOf := newFolderId platform; nameOf := name |},
        {| files := files w;
           folders := <[newFolderId platform := name]> (folders w);
           logged := logged w; calls := calls w |})).

(** [folder.getName()] and [folder.getId()]: calls like [file.getName()];
    when they do not raise they answer the name and the id the handle
    stands for. *)
Definition folderGetName (folder : Folder) : M string :=
  call (FolderGetName (idOf folder)) (ret (nameOf folder)).

Definition folderGetId (folder : Folder) : M string :=
  call (FolderGetId (idOf folder)) (ret (idOf folder)).

(** [MailApp.sendEmail] *)
Definition sendEmail (mail : Mail) : M unit :=
  call (SendEmail mail) (ret tt).

(** The body of the inner [forEach] of [processAndRenameFiles]: one file,
    inside its own [try ... catch]. *)
Definition processFile (destinationFolder : Folder)
  (responseMap : gmap string string) (questionTitle : string)
  (fileCount : nat) (fileId : string) (index : nat) : M unit :=
  try_catch
    (do file <- getFileById fileId;
     do originalName <- getName file;
     let newFileName :=
       newFileNameOf cfg responseMap questionTitle fileCount index originalName in
     setName file newFileName ;;
     moveTo file destinationFolder ;;
     do folderName <- folderGetName destinationFolder;
     log (LogRenamed originalName newFileName folderName))
    (fun error => log (LogFailed fileId (message error))).

(** The files of one question. *)
Definition processFiles (destinationFolder : Folder)
  (responseMap : gmap string string) (questionTitle : string)
  (fileIds : list string) : M unit :=
  forEach
    (processFile destinationFolder responseMap questionTitle (List.length fileIds))
    fileIds.

Definition processAndRenameFiles (itemResponses : list ItemResponse)
  (destinationFolder : Folder) (responseMap : gmap string string) : M unit :=
  forEach
    (fun itemResponse _ =>
       let fileIds := getResponse itemResponse in
       let questionTitle := getTitle itemResponse in
       match fileIds with
       | RNull => ret tt
       | RString s =>
           (* a string has a length but no [forEach] *)
           if String.eqb s EmptyString then ret tt
           else throw (notAFunction platform)
       | RArray ids =>
           if (0 <? List.length ids)%nat
           then processFiles destinationFolder responseMap questionTitle ids
           else ret tt
       end)
    (List.filter (fun itemResponse => ItemType_eqb (getType itemResponse) FILE_UPLOAD)
       itemResponses).

Definition notificationMail (itemResponses : list ItemResponse)
  (emailSubject : string) : Mail :=
  {| mailTo := EMAIL_RECIPIENTS cfg; mailSubject := emailSubject;
     mailBody := buildEmailBody cfg itemResponses; mailIsHtml := true |}.

Definition sendNotificationEmail (itemResponses : list ItemResponse)
  (emailSubject : string) : M unit :=
  sendEmail (notificationMail itemResponses emailSubject) ;;
  log (LogNotified (EMAIL_RECIPIENTS cfg)).

Definition errorMessageOf (error : Error) : string :=
  "Error in onFormSubmit: " +:+ message error +:+ newline +:+ "Stack:"
    +:+ newline +:+ stack error.

Definition adminMail (error : Error) : Mail :=
  {| mailTo := ADMIN_EMAIL cfg;
     mailSubject := "CRITICAL: Google Script Failure in Purchase Order Form";
     mailBody := "The Purchase order form automation script has failed."
                   +:+ newline +:+ newline +:+ errorMessageOf error;
     mailIsHtml := false |}.

(** The [try] block of [onFormSubmit] up to the log line that follows the
    creation of the folder: all that runs before any file is touched.  [timestamp] is what
    [Utilities.formatDate(new Date(), ...)] answered. *)
Definition prepare (timestamp : string) (itemResponses : list ItemResponse)
  : M (gmap string string * string * Folder) :=
  let responseMap := buildResponseMap itemResponses in
  let folderName := buildFolderName cfg itemResponses timestamp in
  let emailSubject :=
    buildFromTemplate (EMAIL_SUBJECT_TEMPLATE cfg) responseMap ∅ in
  do targetDrive <- getFolderById (TARGET_SHARED_DRIVE_ID cfg);
  do newFolder <- createFolder targetDrive folderName;
  do newFolderName <- folderGetName newFolder;
  do newFolderId <- folderGetId newFolder;
  log (LogFolderCreated newFolderName newFolderId) ;;
  ret (responseMap, emailSubject, newFolder).

(** The [try] block of [onFormSubmit]. *)
Definition tryBlock (timestamp : string) (itemResponses : list ItemResponse)
  : M unit :=
  do prepared <- prepare timestamp itemResponses;
  let '(responseMap, emailSubject, newFolder) := prepared in
  processAndRenameFiles itemResponses newFolder responseMap ;;
  sendNotificationEmail itemResponses emailSubject.

(** Its [catch] block. *)
Definition catchBlock (error : Error) : M unit :=
  log (LogError (errorMessageOf error)) ;;
  sendEmail (adminMail error).

Definition onFormSubmit (timestamp : string) (itemResponses : list ItemResponse)
  : M unit :=
  try_catch (tryBlock timestamp itemResponses) catchBlock.

End Script.

(** ** Vocabulary of the statements *)

(** [pat] occurs in [s], and it occurs at index [n]. *)
Definition Occurs (pat s : string) : Prop :=
  exists pre post, s = pre +:+ pat +:+ post.

Definition OccursAt (pat s : string) (n : nat) : Prop :=
  exists pre post, s = pre +:+ pat +:+ post /\ String.length pre = n.

(** The last occurrence of [pat] in [s] starts right after [pre]. *)
Definition LastOccurrence (pat pre s : string) : Prop :=
  OccursAt pat s (String.length pre) /\
  forall n, OccursAt pat s n -> (n <= String.length pre)%nat.

Fixpoint hasChar (c : ascii) (s : string) : bool :=
  match s with
  | EmptyString => false
  | String a t => Ascii.eqb c a || hasChar c t
  end.

(** Some character of the sanitized class is in [s]. *)
Fixpoint hasIllegal (s : string) : bool :=
  match s with
  | EmptyString => false
  | String c t => isIllegal c || hasIllegal t
  end.

(** A text in which every opening brace is at once followed by a closing
    one: no placeholder can start in it, whatever comes after it. *)
Fixpoint inert (s : string) : bool :=
  match s with
  | EmptyString => true
  | String c t =>
      if Ascii.eqb c "{" then
        match t with
        | String d t' => if Ascii.eqb d "}" then inert t' else false
        | EmptyString => false
        end
      else inert t
  end.

(** Some position of [s] starts a well-formed placeholder. *)
Fixpoint hasPlaceholder (s : string) : bool :=
  match JS.matchPlaceholder s with
  | Some _ => true
  | None =>
      match s with
      | EmptyString => false
      | String _ t => hasPlaceholder t
      end
  end.

(** What [buildFromTemplate] puts in place of the placeholder [X] as the
    documentation of the script tells it: the override, else the answer,
    else the fixed text. *)
Definition documentedValue (responseMap additionalPlaceholders : gmap string string)
  (X : string) : string :=
  match additionalPlaceholders !! X with
  | Some v => v
  | None =>
      match responseMap !! X with
      | Some v => v
      | None => "N/A"
      end
  end.

(** What a computation adds to the log and to the trace of calls. *)
Definition logOf {A} (m : M A) (w : World) : list LogEntry :=
  drop (List.length (logged w)) (logged (snd (m w))).

Definition callsOf {A} (m : M A) (w : World) : list Call :=
  drop (List.length (calls w)) (calls (snd (m w))).

Definition isSendEmail (c : Call) : bool :=
  match c with SendEmail _ => true | _ => false end.

(** The calls that look up, rename or move an uploaded file. *)
Definition isFileRouting (c : Call) : bool :=
  match c with
  | GetFileById _ | FileGetName _ | FileSetName _ _ | FileMoveTo _ _ => true
  | _ => false
  end.

(** The calls that concern the file [fileId]. *)
Definition aboutFile (fileId : string) (c : Call) : bool :=
  match c with
  | GetFileById id | FileGetName id | FileSetName id _ | FileMoveTo id _ =>
      String.eqb id fileId
  | _ => false
  end.

(** The answer of every file upload item has the shape of its kind: it is
    absent or an array of file ids, never a text. *)
Definition uploadsAreArrays (itemResponses : list ItemResponse) : bool :=
  forallb
    (fun itemResponse =>
       match getType itemResponse, getResponse itemResponse with
       | FILE_UPLOAD, RString s => String.eqb s EmptyString
       | _, _ => true
       end)
    itemResponses.

Definition isRenamed (entry : LogEntry) : bool :=
  match entry with LogRenamed _ _ _ => true | _ => false end.

(** The entry [processFile] logs, read off the state of the file alone and
    of what the platform does on the calls of its turn. *)
Definition outcomeOf (platform : Platform) (cfg : Config)
  (destinationFolder : Folder) (responseMap : gmap string string)
  (questionTitle : string) (fileCount : nat) (fileId : string) (index : nat)
  (file : option File) : LogEntry :=
  match fault platform (GetFileById fileId), file with
  | Some e, _ => LogFailed fileId (message e)
  | None, None => LogFailed fileId (message (notFound platform))
  | None, Some f =>
      let newFileName :=
        newFileNameOf cfg responseMap questionTitle fileCount index (fileName f) in
      match fault platform (FileGetName fileId) with
      | Some e => LogFailed fileId (message e)
      | None =>
      match fault platform (FileSetName fileId newFileName) with
      | Some e => LogFailed fileId (message e)
      | None =>
      match fault platform (FileMoveTo fileId (idOf destinationFolder)) with
      | Some e => LogFailed fileId (message e)
      | None =>
      match fault platform (FolderGetName (idOf destinationFolder)) with
      | Some e => LogFailed fileId (message e)
      | None => LogRenamed (fileName f) newFileName (nameOf destinationFolder)
      end end end end
  end.

(** The file [processFile] leaves on the Drive, read off in the same way:
    as it was when the failure comes before the new name is set, renamed
    in its old folder when the move raises, renamed in the destination
    folder otherwise, whether the name of that folder can then be read or
    not. *)
Definition fileAfter (platform : Platform) (cfg : Config)
  (destinationFolder : Folder) (responseMap : gmap string string)
  (questionTitle : string) (fileCount : nat) (fileId : string) (index : nat)
  (file : option File) : option File :=
  match file with
  | None => None
  | Some f =>
      let newFileName :=
        newFileNameOf cfg responseMap questionTitle fileCount index (fileName f) in
      match fault platform (GetFileById fileId),
            fault platform (FileGetName fileId),
            fault platform (FileSetName fileId newFileName) with
      | None, None, None =>
          match fault platform (FileMoveTo fileId (idOf destinationFolder)) with
          | Some _ =>
              Some {| fileName := newFileName; fileParent := fileParent f |}
          | None =>
              Some {| fileName := newFileName;
                      fileParent := idOf destinationFolder |}
          end
      | _, _, _ => Some f
      end
  end.

(** The calls made while the files are processed: those that look up,
    rename or move a file, and the read of the name of the folder. *)
Definition duringRouting (c : Call) : bool :=
  match c with
  | GetFileById _ | FileGetName _ | FileSetName _ _ | FileMoveTo _ _
  | FolderGetName _ => true
  | _ => false
  end.

Definition isLookup (c : Call) : bool :=
  match c with GetFileById _ => true | _ => false end.

(** The suffix that tells apart the files of one standard question. *)
Definition numberSuffix (fileCount index : nat) : string :=
  if (1 <? fileCount)%nat then " (" +:+ pretty (index + 1)%nat +:+ ")"
  else EmptyString.

(** The folder name as the specification words it: every remaining answer
    is flattened (a list joined with a comma and a space) and trimmed. *)
Definition claimedFolderName (cfg : Config) (itemResponses : list ItemResponse)
  (timestamp : string) : string :=
  let flatten response :=
    match getResponse response with
    | RNull => EmptyString
    | RString s => s
    | RArray l => JS.join ", " l
    end in
  let remaining :=
    List.filter
      (fun response =>
         negb (ItemType_eqb (getType response) FILE_UPLOAD) &&
         negb (JS.includes (EXCLUDE_FROM_FOLDER_NAME cfg) (getTitle response)))
      itemResponses in
  let parts :=
    List.filter (fun part => negb (String.eqb part EmptyString))
      (List.map (fun response => JS.trim (flatten response)) remaining) in
  timestamp +:+ "_PENDING_" +:+ JS.join "_" parts.

(** ** Sample data for the concrete checks *)

Definition serviceError : Error :=
  {| message := "Service error: Drive"; stack := "at onFormSubmit (Code:123)" |}.

Definition missingItem : Error :=
  {| message := "No item with the given ID could be found.";
     stack := "at processAndRenameFiles (Code:211)" |}.

Definition sampleFrames : string :=
  newline +:+ "    at processAndRenameFiles (Code:209)".

(** A platform on which nothing fails. *)
Definition reliable : Platform :=
  {| fault := fun _ => None; newFolderId := "folder-1";
     notFound := missingItem; stackFrames := sampleFrames |}.

(** A platform on which the file [file-2] cannot be moved. *)
Definition failingMove : Platform :=
  {| fault := fun c =>
       match c with
       | FileMoveTo fileId _ =>
           if String.eqb fileId "file-2" then Some serviceError else None
       | _ => None
       end;
     newFolderId := "folder-1";
     notFound := missingItem; stackFrames := sampleFrames |}.

(** A platform on which the name of a folder cannot be read. *)
Definition failingFolderName : Platform :=
  {| fault := fun c =>
       match c with
       | FolderGetName _ => Some serviceError
       | _ => None
       end;
     newFolderId := "folder-1";
     notFound := missingItem; stackFrames := sampleFrames |}.

(** A platform on which no folder can be created. *)
Definition failingCreate : Platform :=
  {| fault := fun c =>
       match c with
       | CreateFolder _ _ => Some serviceError
       | _ => None
       end;
     newFolderId := "folder-1";
     notFound := missingItem; stackFrames := sampleFrames |}.

Definition sampleDrive : World :=
  {| files :=
       {[ "file-1" := {| fileName := "quote - Jane Doe.pdf"; fileParent := "uploads" |};
          "file-2" := {| fileName := "quote2 - Jane Doe.pdf"; fileParent := "uploads" |};
          "file-3" := {| fileName := "specs - Jane Doe.PDF"; fileParent := "uploads" |} ]};
     folders := {[ "DriveID" := "Purchase Orders" ]};
     logged := [];
     calls := [] |}.

Definition sampleFolder : Folder :=
  {| idOf := "folder-1"; nameOf := "20250101-0800_PENDING_Acme" |}.

Definition sampleSubmission : list ItemResponse :=
  [ {| getTitle := "Vendor"; getType := TEXT; getResponse := RString " Acme " |};
    {| getTitle := "Keywords"; getType := CHECKBOX; getResponse := RArray [" "] |};
    {| getTitle := "Upload Quote"; getType := FILE_UPLOAD;
       getResponse := RArray ["file-1"; "file-2"; "file-3"] |};
    {| getTitle := "Notes"; getType := PARAGRAPH_TEXT; getResponse := RNull |} ].

(** ** The triggers of the script project

    [initialize] works on the triggers of the project through ScriptApp.
    The project is a state of its own: the list of its triggers and what
    Logger holds. *)

Inductive EventType : Type :=
  | CLOCK | ON_OPEN | ON_EDIT | ON_FORM_SUBMIT | ON_CHANGE | ON_EVENT_UPDATED.

Record Trigger : Type := {
  getUniqueId : string;          (* trigger.getUniqueId() *)
  getHandlerFunction : string;   (* trigger.getHandlerFunction() *)
  getEventType : EventType;      (* trigger.getEventType() *)
  getTriggerSourceId : string    (* trigger.getTriggerSourceId() *)
}.

Record Project : Type := {
  projectTriggers : list Trigger;
  projectLog : list string
}.

(** The calls [initialize] makes to ScriptApp. *)
Inductive ScriptCall : Type :=
  | GetProjectTriggers
  | DeleteTrigger (uniqueId : string)
  | CreateTrigger (handler form : string).

(** Which of these calls raise, and the id ScriptApp gives to a new
    trigger. *)
Record ScriptPlatform : Type := {
  scriptFault : ScriptCall -> option Error;
  newTriggerId : string
}.

Definition isSubmitHandler (trigger : Trigger) : bool :=
  String.eqb (getHandlerFunction trigger) "onFormSubmit".

(** A trigger of another handler. *)
Definition otherHandler (trigger : Trigger) : bool :=
  negb (isSubmitHandler trigger).

(** [ScriptApp.deleteTrigger(trigger)]: the trigger with that id leaves the
    project. *)
Definition deleteTrigger (trigger : Trigger) (p : Project) : Project :=
  {| projectTriggers :=
       List.filter
         (fun t => negb (String.eqb (getUniqueId t) (getUniqueId trigger)))
         (projectTriggers p);
     projectLog := projectLog p |}.

(** The loop of [initialize] over the array [getProjectTriggers()] answered:
    the first call that raises ends it. *)
Fixpoint deleteOldTriggers (platform : ScriptPlatform) (snapshot : list Trigger)
  (p : Project) : Result unit * Project :=
  match snapshot with
  | [] => (Ok tt, p)
  | trigger :: rest =>
      if isSubmitHandler trigger then
        match scriptFault platform (DeleteTrigger (getUniqueId trigger)) with
        | Some e => (Throw e, p)
        | None => deleteOldTriggers platform rest (deleteTrigger trigger p)
        end
      else deleteOldTriggers platform rest p
  end.

(** The trigger built by
    [ScriptApp.newTrigger('onFormSubmit').forForm(form).onFormSubmit().create()]. *)
Definition submitTrigger (platform : ScriptPlatform) (form : string) : Trigger :=
  {| getUniqueId := newTriggerId platform;
     getHandlerFunction := "onFormSubmit";
     getEventType := ON_FORM_SUBMIT;
     getTriggerSourceId := form |}.

(** [initialize], for the form [FormApp.getActiveForm()] answered. *)
Definition initialize (platform : ScriptPlatform) (form : string) (p : Project)
  : Result unit * Project :=
  match scriptFault platform GetProjectTriggers with
  | Some e => (Throw e, p)
  | None =>
      match deleteOldTriggers platform (projectTriggers p) p with
      | (Throw e, p1) => (Throw e, p1)
      | (Ok _, p1) =>
          match scriptFault platform (CreateTrigger "onFormSubmit" form) with
          | Some e => (Throw e, p1)
          | None =>
              (Ok tt,
               {| projectTriggers :=
                    projectTriggers p1 ++ [submitTrigger platform form];
                  projectLog :=
                    projectLog p1 ++ ["Trigger created successfully."] |})
          end
      end
  end.

(** ** More vocabulary *)

(** What one character becomes in an escaped text: the five characters of
    [escapeHtml] become their entity, any other stays. *)
Definition entityOf (c : ascii) : string :=
  if Ascii.eqb c "&" then "&amp;"
  else if Ascii.eqb c "<" then "&lt;"
  else if Ascii.eqb c ">" then "&gt;"
  else if Ascii.eqb c JS.dquote then "&quot;"
  else if Ascii.eqb c "'" then "&#039;"
  else JS.str c.

(** The escaping as one pass over the text, character by character. *)
Fixpoint escapeEach (text : string) : string :=
  match text with
  | EmptyString => EmptyString
  | String c rest => entityOf c +:+ escapeEach rest
  end.

Definition isHtmlSpecial (c : ascii) : bool :=
  Ascii.eqb c "&" || Ascii.eqb c "<" || Ascii.eqb c ">"
  || Ascii.eqb c JS.dquote || Ascii.eqb c "'".

Fixpoint hasHtmlSpecial (s : string) : bool :=
  match s with
  | EmptyString => false
  | String c t => isHtmlSpecial c || hasHtmlSpecial t
  end.

(** The answer of an item as [responseMap] holds it. *)
Definition flatAnswer (answer : Response) : string :=
  match answer with
  | RNull => EmptyString
  | RString s => s
  | RArray l => JS.join ", " l
  end.

(** The items of a submission that have the title [title]. *)
Definition titled (title : string) (itemResponses : list ItemResponse)
  : list ItemResponse :=
  List.filter (fun item => String.eqb (getTitle item) title) itemResponses.

(** The ids of all the files a submission carries, in the order of the
    upload. *)
Fixpoint uploadedIds (itemResponses : list ItemResponse) : list string :=
  match itemResponses with
  | [] => []
  | item :: rest =>
      match getType item, getResponse item with
      | FILE_UPLOAD, RArray ids => ids ++ uploadedIds rest
      | _, _ => uploadedIds rest
      end
  end.

(** An item that leaves no part in the folder name: a file upload, an
    excluded title, or an answer that comes out empty. *)
Definition silentInFolderName (cfg : Config) (item : ItemResponse) : bool :=
  ItemType_eqb (getType item) FILE_UPLOAD
  || JS.includes (EXCLUDE_FROM_FOLDER_NAME cfg) (getTitle item)
  || match getResponse item with
     | RNull => true
     | RString s => String.eqb (JS.trim s) EmptyString
     | RArray l => String.eqb (JS.join ", " l) EmptyString
     end.

(** An item that shows in the body of the notification. *)
Definition shownInEmail (cfg : Config) (item : ItemResponse) : bool :=
  negb (ItemType_eqb (getType item) FILE_UPLOAD)
  && negb (JS.includes (EXCLUDE_FROM_EMAIL_BODY cfg) (getTitle item)).

Definition isDigit (c : ascii) : bool :=
  match c with
  | "0" | "1" | "2" | "3" | "4" | "5" | "6" | "7" | "8" | "9" => true
  | _ => false
  end%char.

Fixpoint allDigits (s : string) : bool :=
  match s with
  | EmptyString => true
  | String c t => isDigit c && allDigits t
  end.

(** A platform on which no service call raises. *)
Definition neverFails (platform : Platform) : Prop :=
  forall c, fault platform c = None.

(** How many times the character [c] is in [s]. *)
Fixpoint countChar (c : ascii) (s : string) : nat :=
  match s with
  | EmptyString => 0%nat
  | String a t => ((if Ascii.eqb c a then 1 else 0) + countChar c t)%nat
  end.

(** The loop of [processAndRenameFiles] over the file upload questions,
    from the index [k] on. *)
Definition routeQuestions (platform : Platform) (cfg : Config)
  (destinationFolder : Folder) (responseMap : gmap string string)
  (itemResponses : list ItemResponse) (k : nat) : M unit :=
  forEach_from
    (fun itemResponse (_ : nat) =>
       match getResponse itemResponse with
       | RNull => ret tt
       | RString s =>
           if String.eqb s EmptyString then ret tt
           else throw (notAFunction platform)
       | RArray ids =>
           if (0 <? List.length ids)%nat
           then processFiles platform cfg destinationFolder responseMap
                  (getTitle itemResponse) ids
           else ret tt
       end)
    (List.filter
       (fun itemResponse => ItemType_eqb (getType itemResponse) FILE_UPLOAD)
       itemResponses) k.

(** The Drive after is the Drive before, but for the files [ids]: same
    folders, same files elsewhere, and no file created or deleted. *)
Definition sameDriveBut (ids : list string) (w w' : World) : Prop :=
  folders w' = folders w /\
  (forall id, id ∉ ids -> files w' !! id = files w !! id) /\
  (forall id, is_Some (files w' !! id) <-> is_Some (files w !! id)).


(** ** More sample data *)

(** A platform on which the notification cannot be sent, while the alert to
    the administrator can. *)
Definition failingNotification : Platform :=
  {| fault := fun c =>
       match c with
       | SendEmail mail =>
           if String.eqb (mailTo mail) (EMAIL_RECIPIENTS CONFIG)
           then Some serviceError else None
       | _ => None
       end;
     newFolderId := "folder-1";
     notFound := missingItem; stackFrames := sampleFrames |}.

(** A project with two triggers left by earlier runs of [initialize] and a
    daily trigger of another function. *)
Definition sampleProject : Project :=
  {| projectTriggers :=
       [ {| getUniqueId := "t1"; getHandlerFunction := "onFormSubmit";
            getEventType := ON_FORM_SUBMIT; getTriggerSourceId := "form-1" |};
         {| getUniqueId := "t2"; getHandlerFunction := "dailyReport";
            getEventType := CLOCK; getTriggerSourceId := EmptyString |};
         {| getUniqueId := "t3"; getHandlerFunction := "onFormSubmit";
            getEventType := ON_FORM_SUBMIT; getTriggerSourceId := "form-1" |} ];
     projectLog := [] |}.

(** ScriptApp when nothing fails. *)
Definition reliableScript : ScriptPlatform :=
  {| scriptFault := fun _ => None; newTriggerId := "t4" |}.

(** ScriptApp when the trigger [t3] cannot be deleted. *)
Definition failingDelete : ScriptPlatform :=
  {| scriptFault := fun c =>
       match c with
       | DeleteTrigger uniqueId =>
           if String.eqb uniqueId "t3" then Some serviceError else None
       | _ => None
       end;
     newTriggerId := "t4" |}.

(** ** Sanity checks of the primitives on concrete inputs *)

Example lastIndexOf_ex1 : JS.lastIndexOf "Report - Jane Doe.pdf" " - " = 6.
Proof. reflexivity. Qed.
Example lastIndexOf_ex2 : JS.lastIndexOf "a.b.c" "." = 3.
Proof. reflexivity. Qed.
Example lastIndexOf_ex3 : JS.lastIndexOf "README" "." = -1.
Proof. reflexivity. Qed.
Example slice_ex1 : JS.slice "README" (-1) = "E".
Proof. reflexivity. Qed.
Example substring_ex1 : JS.substring "README" 0 (-1) = EmptyString.
Proof. reflexivity. Qed.
Example trim_ex1 : JS.trim "  a b  " = "a b".
Proof. reflexivity. Qed.
Example replace_ex1 :
  JS.replacePlaceholders (fun g => "<" +:+ g +:+ ">") "x{a}{}{b{c}d{e" = "x<a>{}<b{c>d{e".
Proof. reflexivity. Qed.
Example buildFromTemplate_ex1 :
  buildFromTemplate "{A} - {B}" {[ "A" := "x" ]} ∅ = "x - N/A".
Proof. vm_compute. reflexivity. Qed.
Example buildFromTemplate_ex2 :
  buildFromTemplate "{toString}" ∅ ∅ = "function toString() { [native code] }".
Proof. vm_compute. reflexivity. Qed.
Example newFileName_ex1 :
  newFileNameOf CONFIG {[ "Vendor" := "A/B" ]} "Upload Quote" 2 0 "q.PDF"
  = "N-A - A-B - N-A - Upload Quote (1).PDF".
Proof. vm_compute. reflexivity. Qed.
Example escapeHtml_ex1 :
  escapeHtml "<em>No response provided</em>" = "&lt;em&gt;No response provided&lt;/em&gt;".
Proof. vm_compute. reflexivity. Qed.

(** ** Facts about the string primitives *)

#[local] Arguments String.append !s1 s2 / : simpl nomatch.
#[local] Arguments Ascii.eqb : simpl never.

Section StringFacts.

Implicit Types s t u pat pre post : string.

Lemma append_nil_r s : s +:+ EmptyString = s.
Proof. induction s as [|c s IH]; simpl; congruence. Qed.

Lemma append_assoc s t u : (s +:+ t) +:+ u = s +:+ t +:+ u.
Proof. induction s as [|c s IH]; simpl; congruence. Qed.

Lemma length_append s t :
  String.length (s +:+ t) = (String.length s + String.length t)%nat.
Proof. induction s as [|c s IH]; simpl; congruence. Qed.

Lemma drop_append pre s : JS.drop (String.length pre) (pre +:+ s) = s.
Proof. induction pre as [|c pre IH]; simpl; [by destruct s | done]. Qed.

Lemma take_append pre s : JS.take (String.length pre) (pre +:+ s) = pre.
Proof.
  induction pre as [|c pre IH]; simpl; [by destruct s | by rewrite IH].
Qed.

Lemma drop_0 s : JS.drop 0 s = s.
Proof. by destruct s. Qed.

Lemma startsWith_spec pat s :
  JS.startsWith pat s = true <-> exists post, s = pat +:+ post.
Proof.
  revert s. induction pat as [|a pat IH]; intros s; simpl.
  - split; [eauto | done].
  - destruct s as [|b s].
    + split; [done | by intros [post ?]].
    + rewrite andb_true_iff, Ascii.eqb_eq, IH. split.
      * intros [-> [post ->]]. eauto.
      * intros [post [= -> ->]]. eauto.
Qed.

Lemma OccursAt_0 pat s : OccursAt pat s 0 <-> JS.startsWith pat s = true.
Proof.
  rewrite startsWith_spec. split.
  - intros (pre & post & -> & Hlen). destruct pre; [eauto | done].
  - intros [post ->]. by exists EmptyString, post.
Qed.

Lemma OccursAt_S pat c t n : OccursAt pat (String c t) (S n) <-> OccursAt pat t n.
Proof.
  split.
  - intros (pre & post & Heq & Hlen). destruct pre as [|a pre]; [done |].
    simpl in *. injection Heq as -> ->. exists pre, post. split; [done | lia].
  - intros (pre & post & -> & Hlen). exists (String c pre), post.
    simpl. split; [done | lia].
Qed.

Lemma OccursAt_empty pat n : OccursAt pat EmptyString n -> n = 0%nat.
Proof. intros (pre & post & Heq & Hlen). by destruct pre. Qed.

Lemma occursIn_spec pat s : JS.occursIn pat s = true <-> exists n, OccursAt pat s n.
Proof.
  induction s as [|c s IH]; simpl; rewrite orb_true_iff.
  - split.
    + intros [H|?]; [| done]. exists 0%nat. by apply OccursAt_0.
    + intros [n H]. left. pose proof (OccursAt_empty _ _ H) as ->.
      by apply OccursAt_0.
  - rewrite IH. split.
    + intros [H|[n H]]; [exists 0%nat; by apply OccursAt_0 |].
      exists (S n). by apply OccursAt_S.
    + intros [[|n] H]; [left; by apply OccursAt_0 |].
      right. exists n. by apply OccursAt_S in H.
Qed.

(** [lastIndexOf_from] answers the greatest index of an occurrence, shifted
    by where the scan started, or what it was given when there is none. *)
Lemma lastIndexOf_from_spec pat s : forall i last,
  ((forall n, ~ OccursAt pat s n) /\ JS.lastIndexOf_from pat s i last = last)
  \/ (exists n, OccursAt pat s n /\ (forall m, OccursAt pat s m -> (m <= n)%nat)
                /\ JS.lastIndexOf_from pat s i last = i + Z.of_nat n).
Proof.
  induction s as [|c s IH]; intros i last; simpl.
  - destruct (JS.startsWith pat EmptyString) eqn:E.
    + right. exists 0%nat. split; [by apply OccursAt_0 |]. split; [| lia].
      intros m Hm. apply OccursAt_empty in Hm. lia.
    + left. split; [| done]. intros n Hn.
      pose proof (OccursAt_empty _ _ Hn) as ->. apply OccursAt_0 in Hn.
      congruence.
  - destruct (IH (i + 1) (if JS.startsWith pat (String c s) then i else last))
      as [[Hno ->] | (n & Hn & Hmax & ->)].
    + destruct (JS.startsWith pat (String c s)) eqn:E.
      * right. exists 0%nat. split; [by apply OccursAt_0 |]. split; [| lia].
        intros [|m] Hm; [lia |]. apply OccursAt_S in Hm. by destruct (Hno m).
      * left. split; [| done]. intros [|n] Hn.
        -- apply OccursAt_0 in Hn. congruence.
        -- apply OccursAt_S in Hn. by destruct (Hno n).
    + right. exists (S n). split; [by apply OccursAt_S |]. split; [| lia].
      intros [|m] Hm; [lia |]. apply OccursAt_S in Hm. specialize (Hmax m Hm). lia.
Qed.

Lemma lastIndexOf_absent s pat :
  JS.occursIn pat s = false -> JS.lastIndexOf s pat = -1.
Proof.
  intros Hno. unfold JS.lastIndexOf.
  destruct (lastIndexOf_from_spec pat s 0 (-1)) as [[_ ->] | (n & Hn & _)]; [done |].
  assert (JS.occursIn pat s = true) by (apply occursIn_spec; eauto). congruence.
Qed.

Lemma lastIndexOf_nonneg s pat :
  JS.occursIn pat s = true -> 0 <= JS.lastIndexOf s pat.
Proof.
  intros Hocc. unfold JS.lastIndexOf.
  destruct (lastIndexOf_from_spec pat s 0 (-1)) as [[Hno _] | (n & _ & _ & ->)]; [| lia].
  apply occursIn_spec in Hocc as [n Hn]. by destruct (Hno n).
Qed.

(** A text that begins with [pre] then [pat], with no occurrence of [pat]
    further to the right, has its last occurrence right after [pre]. *)
Lemma lastIndexOf_last pat pre post :
  JS.occursIn pat (JS.drop 1 (pat +:+ post)) = false ->
  JS.lastIndexOf (pre +:+ pat +:+ post) pat = JS.len pre.
Proof.
  intros Hno. unfold JS.lastIndexOf, JS.len.
  assert (Hat : OccursAt pat (pre +:+ pat +:+ post) (String.length pre))
    by (by exists pre, post).
  assert (Hmax : forall m, OccursAt pat (pre +:+ pat +:+ post) m ->
                           (m <= String.length pre)%nat).
  { clear Hat. induction pre as [|c pre IH]; intros m Hm; simpl in *.
    - destruct m as [|m]; [lia |]. exfalso.
      destruct (pat +:+ post) as [|a r] eqn:E.
      + apply OccursAt_empty in Hm. lia.
      + apply OccursAt_S in Hm. simpl in Hno.
        assert (JS.occursIn pat r = true) by (apply occursIn_spec; eauto).
        congruence.
    - destruct m as [|m]; [lia |]. apply OccursAt_S in Hm.
      specialize (IH m Hm). lia. }
  destruct (lastIndexOf_from_spec pat (pre +:+ pat +:+ post) 0 (-1))
    as [[Habs _] | (n & Hn & Hnmax & ->)].
  - by destruct (Habs _ Hat).
  - specialize (Hmax n Hn). specialize (Hnmax _ Hat). lia.
Qed.

Lemma hasChar_occursIn c s : JS.occursIn (JS.str c) s = hasChar c s.
Proof.
  induction s as [|a s IH]; simpl; [done |]. rewrite IH.
  by rewrite andb_true_r.
Qed.

Lemma substring_prefix pre s :
  JS.substring (pre +:+ s) 0 (JS.len pre) = pre.
Proof.
  unfold JS.substring, JS.len. rewrite length_append.
  replace (Z.min (Z.max 0 0) _) with 0 by lia.
  replace (Z.min (Z.max (Z.of_nat (String.length pre)) 0) _)
    with (Z.of_nat (String.length pre)) by lia.
  replace (Z.min 0 _) with 0 by lia.
  replace (Z.max 0 _) with (Z.of_nat (String.length pre)) by lia.
  rewrite Z.sub_0_r, Nat2Z.id. simpl. rewrite ?drop_0. apply take_append.
Qed.

Lemma slice_suffix pre s : JS.slice (pre +:+ s) (JS.len pre) = s.
Proof.
  unfold JS.slice, JS.len. rewrite length_append.
  destruct (Z.ltb_spec (Z.of_nat (String.length pre)) 0); [lia |].
  replace (Z.min _ _) with (Z.of_nat (String.length pre)) by lia.
  rewrite Nat2Z.id. apply drop_append.
Qed.

(** [slice(-1)] keeps the last character of a text that has one. *)
Lemma slice_minus_one s c : JS.slice (s +:+ JS.str c) (-1) = JS.str c.
Proof.
  unfold JS.slice, JS.len. rewrite length_append. simpl.
  replace (Z.max _ 0) with (Z.of_nat (String.length s)) by lia.
  rewrite Nat2Z.id. apply drop_append.
Qed.

End StringFacts.

(** ** Facts about the template engine *)

Section TemplateFacts.

Implicit Types s t pre rest X : string.

Lemma splitAtClose_sound s : forall X rest,
  JS.splitAtClose s = Some (X, rest) ->
  s = X +:+ "}" +:+ rest /\ hasChar "}" X = false.
Proof.
  induction s as [|c s IH]; intros X rest H; simpl in H; [done |].
  destruct (Ascii.eqb_spec c "}") as [->|Hc].
  - by injection H as <- <-.
  - destruct (JS.splitAtClose s) as [[x r]|]; [| done].
    injection H as <- <-. destruct (IH _ _ eq_refl) as [-> Hno].
    simpl. rewrite Hno, orb_false_r. split; [done |].
    apply Ascii.eqb_neq. congruence.
Qed.

Lemma splitAtClose_complete X rest :
  hasChar "}" X = false -> JS.splitAtClose (X +:+ "}" +:+ rest) = Some (X, rest).
Proof.
  induction X as [|a X IH]; intros Hno; simpl in *; [done |].
  apply orb_false_iff in Hno as [Ha Hno]. rewrite Ascii.eqb_sym, Ha.
  by rewrite IH.
Qed.

Lemma splitAtClose_Some s X rest :
  JS.splitAtClose s = Some (X, rest) <->
  s = X +:+ "}" +:+ rest /\ hasChar "}" X = false.
Proof.
  split; [apply splitAtClose_sound |]. intros [-> Hno].
  by apply splitAtClose_complete.
Qed.

Lemma matchPlaceholder_Some s X rest :
  JS.matchPlaceholder s = Some (X, rest) <->
  s = "{" +:+ X +:+ "}" +:+ rest /\ X <> EmptyString /\ hasChar "}" X = false.
Proof.
  split.
  - destruct s as [|c s]; simpl; [done |].
    destruct (Ascii.eqb_spec c "{") as [->|Hc]; [| done].
    destruct (JS.splitAtClose s) as [[[|g x] r]|] eqn:E; [done | | done].
    intros [= <- <-]. by apply splitAtClose_sound in E as [-> Hno].
  - intros (-> & Hne & Hno).
    pose proof (splitAtClose_complete X rest Hno) as E.
    simpl in *. rewrite E. by destruct X.
Qed.

Lemma matchPlaceholder_shorter s X rest :
  JS.matchPlaceholder s = Some (X, rest) ->
  (String.length rest < String.length s)%nat.
Proof.
  intros (-> & _ & _)%matchPlaceholder_Some. simpl.
  rewrite length_append. simpl. lia.
Qed.

Lemma replacePlaceholders_fuel_enough f n : forall m s,
  (String.length s <= n)%nat -> (String.length s <= m)%nat ->
  JS.replacePlaceholders_fuel n f s = JS.replacePlaceholders_fuel m f s.
Proof.
  induction n as [|n IH]; intros m s Hn Hm.
  - destruct s; [| simpl in Hn; lia]. by destruct m.
  - destruct m as [|m].
    + destruct s; [done | simpl in Hm; lia].
    + simpl. destruct (JS.matchPlaceholder s) as [[X rest]|] eqn:E.
      * apply matchPlaceholder_shorter in E. f_equal. apply IH; lia.
      * destruct s as [|c s]; [done |]. simpl in *. f_equal. apply IH; lia.
Qed.

(** The replacement, one step at a time and without fuel. *)
Lemma replacePlaceholders_unfold f s :
  JS.replacePlaceholders f s =
  match JS.matchPlaceholder s with
  | Some (X, rest) => f X +:+ JS.replacePlaceholders f rest
  | None =>
      match s with
      | EmptyString => EmptyString
      | String c t => String c (JS.replacePlaceholders f t)
      end
  end.
Proof.
  unfold JS.replacePlaceholders. destruct s as [|c s]; [done |].
  change (String.length (String c s)) with (S (String.length s)).
  cbn [JS.replacePlaceholders_fuel].
  destruct (JS.matchPlaceholder (String c s)) as [[X rest]|] eqn:E.
  - apply matchPlaceholder_shorter in E. simpl in E. f_equal.
    apply replacePlaceholders_fuel_enough; lia.
  - done.
Qed.

Lemma replacePlaceholders_head f X rest :
  X <> EmptyString -> hasChar "}" X = false ->
  JS.replacePlaceholders f ("{" +:+ X +:+ "}" +:+ rest)
  = f X +:+ JS.replacePlaceholders f rest.
Proof.
  intros Hne Hno. rewrite replacePlaceholders_unfold.
  assert (JS.matchPlaceholder ("{" +:+ X +:+ "}" +:+ rest) = Some (X, rest)) as ->
    by (by apply matchPlaceholder_Some).
  done.
Qed.

(** A placeholder after an inert text: the text is copied, the placeholder
    is replaced by what the callback answers, and the scan goes on after
    the closing brace, so the answer itself is never scanned. *)
Lemma replacePlaceholders_token f pre X rest :
  inert pre = true -> X <> EmptyString -> hasChar "}" X = false ->
  JS.replacePlaceholders f (pre +:+ "{" +:+ X +:+ "}" +:+ rest)
  = pre +:+ f X +:+ JS.replacePlaceholders f rest.
Proof.
  intros Hin Hne Hno.
  remember (String.length pre) as n eqn:Hn.
  revert pre Hn Hin. induction (lt_wf n) as [n _ IH]. intros pre -> Hin.
  destruct pre as [|c pre]; [by apply replacePlaceholders_head |].
  simpl in Hin. rewrite replacePlaceholders_unfold. simpl.
  destruct (Ascii.eqb_spec c "{") as [->|Hc].
  - destruct pre as [|d pre]; [done |].
    destruct (Ascii.eqb_spec d "}") as [->|Hd]; [| done].
    simpl. rewrite replacePlaceholders_unfold. simpl.
    f_equal. f_equal. eapply IH; [| done | done]. simpl. lia.
  - f_equal. eapply IH; [| done | done]. simpl. lia.
Qed.

(** A text without placeholder is copied as it is. *)
Lemma replacePlaceholders_none f s :
  hasPlaceholder s = false -> JS.replacePlaceholders f s = s.
Proof.
  induction s as [|c s IH]; intros H; [done |].
  rewrite replacePlaceholders_unfold.
  change (hasPlaceholder (String c s))
    with (match JS.matchPlaceholder (String c s) with
          | Some _ => true
          | None => hasPlaceholder s
          end) in H.
  destruct (JS.matchPlaceholder (String c s)); [done |].
  f_equal. by apply IH.
Qed.

Lemma getProperty_union responseMap additionalPlaceholders X :
  getProperty (additionalPlaceholders ∪ responseMap) X =
  match additionalPlaceholders !! X with
  | Some v => Some (VString v)
  | None =>
      match responseMap !! X with
      | Some v => Some (VString v)
      | None => Object_prototype X
      end
  end.
Proof.
  unfold getProperty. rewrite lookup_union.
  by destruct (additionalPlaceholders !! X), (responseMap !! X).
Qed.

(** Away from the names every object inherits, the callback answers what
    the documentation says. *)
Lemma placeholderValue_documented responseMap additionalPlaceholders X :
  Object_prototype X = None ->
  placeholderValue (additionalPlaceholders ∪ responseMap) X
  = documentedValue responseMap additionalPlaceholders X.
Proof.
  intros Hproto. unfold placeholderValue, documentedValue.
  rewrite getProperty_union, Hproto.
  by destruct (additionalPlaceholders !! X), (responseMap !! X).
Qed.

Lemma placeholderValue_own responseMap additionalPlaceholders X :
  is_Some (additionalPlaceholders !! X) \/ is_Some (responseMap !! X) ->
  placeholderValue (additionalPlaceholders ∪ responseMap) X
  = documentedValue responseMap additionalPlaceholders X.
Proof.
  unfold placeholderValue, documentedValue. rewrite getProperty_union.
  intros [[v Hv]|[v Hv]]; rewrite Hv; [done |].
  by destruct (additionalPlaceholders !! X).
Qed.

(** Template resolution, token by token. *)
Lemma buildFromTemplate_token responseMap additionalPlaceholders pre X rest :
  inert pre = true -> X <> EmptyString -> hasChar "}" X = false ->
  buildFromTemplate (pre +:+ "{" +:+ X +:+ "}" +:+ rest)
    responseMap additionalPlaceholders
  = pre +:+ placeholderValue (additionalPlaceholders ∪ responseMap) X
        +:+ buildFromTemplate rest responseMap additionalPlaceholders.
Proof. intros. unfold buildFromTemplate. by apply replacePlaceholders_token. Qed.

Lemma buildFromTemplate_none responseMap additionalPlaceholders s :
  hasPlaceholder s = false ->
  buildFromTemplate s responseMap additionalPlaceholders = s.
Proof. intros. unfold buildFromTemplate. by apply replacePlaceholders_none. Qed.

End TemplateFacts.

(** ** Facts about the file names *)

Section NamingFacts.

Implicit Types s t pre post stem ext originalName : string.

Lemma hasIllegal_append s t :
  hasIllegal (s +:+ t) = hasIllegal s || hasIllegal t.
Proof.
  induction s as [|c s IH]; simpl; [done |]. by rewrite IH, orb_assoc.
Qed.

Lemma sanitize_cons c s :
  sanitize (String c s)
  = String (if isIllegal c then "-"%char else c) (sanitize s).
Proof. unfold sanitize. simpl. by destruct (isIllegal c). Qed.

Lemma sanitize_twice s : sanitize (sanitize s) = sanitize s.
Proof.
  induction s as [|c s IH]; [done |].
  rewrite !sanitize_cons, IH. by destruct (isIllegal c) eqn:E; rewrite ?E.
Qed.

Lemma sanitize_legal s : hasIllegal (sanitize s) = false.
Proof.
  induction s as [|c s IH]; [done |]. rewrite sanitize_cons. simpl.
  rewrite IH, orb_false_r. by destruct (isIllegal c) eqn:E.
Qed.

Lemma isIllegal_digit (x : N) : isIllegal (pretty_N_char x) = false.
Proof. unfold pretty_N_char. by repeat case_match. Qed.

Lemma hasIllegal_pretty_N_go (x : N) : forall s,
  hasIllegal s = false -> hasIllegal (pretty_N_go x s) = false.
Proof.
  induction (N.lt_wf_0 x) as [x _ IH]. intros s Hs.
  destruct (decide (x = 0)%N) as [->|Hx]; [by rewrite pretty_N_go_0 |].
  rewrite pretty_N_go_step by lia. apply IH.
  - apply N.div_lt; lia.
  - simpl. by rewrite isIllegal_digit, Hs.
Qed.

Lemma hasIllegal_pretty (n : nat) : hasIllegal (pretty n) = false.
Proof.
  unfold pretty, pretty_nat, pretty, pretty_N.
  case_decide; [done |]. by apply hasIllegal_pretty_N_go.
Qed.

Lemma hasIllegal_numberSuffix fileCount index :
  hasIllegal (numberSuffix fileCount index) = false.
Proof.
  unfold numberSuffix. destruct (1 <? fileCount)%nat; [| done].
  rewrite !hasIllegal_append, hasIllegal_pretty. done.
Qed.

Lemma newFileNameOf_special cfg responseMap fileCount index originalName :
  newFileNameOf cfg responseMap (SPECIAL_NAMING_QUESTION_TITLE cfg)
    fileCount index originalName
  = sanitize (buildFromTemplate (FILE_NAME_PREFIX_TEMPLATE cfg) responseMap ∅)
      +:+ " - " +:+ originalBaseNameOf originalName +:+ extensionOf originalName.
Proof. unfold newFileNameOf. by rewrite String.eqb_refl. Qed.

Lemma newFileNameOf_standard cfg responseMap questionTitle fileCount index
  originalName :
  String.eqb questionTitle (SPECIAL_NAMING_QUESTION_TITLE cfg) = false ->
  newFileNameOf cfg responseMap questionTitle fileCount index originalName
  = sanitize (buildFromTemplate (FILE_NAME_TEMPLATE cfg) responseMap
                {[ "QuestionTitle" := questionTitle ]})
      +:+ numberSuffix fileCount index +:+ extensionOf originalName.
Proof.
  intros Hstd. unfold newFileNameOf, numberSuffix. rewrite Hstd.
  destruct (1 <? fileCount)%nat; [by rewrite append_assoc | done].
Qed.

Lemma originalBaseNameOf_separator pre post :
  JS.occursIn " - " (JS.drop 1 (" - " +:+ post)) = false ->
  originalBaseNameOf (pre +:+ " - " +:+ post) = pre.
Proof.
  intros Hlast. unfold originalBaseNameOf.
  rewrite lastIndexOf_last by done.
  destruct (Z.eqb_spec (JS.len pre) (-1)) as [Heq|_]; [unfold JS.len in Heq; lia |].
  apply substring_prefix.
Qed.

Lemma lastIndexOf_dot stem ext :
  hasChar "." ext = false ->
  JS.lastIndexOf (stem +:+ "." +:+ ext) "." = JS.len stem.
Proof.
  intros Hno. apply lastIndexOf_last.
  change (JS.occursIn (JS.str ".") ext = false). by rewrite hasChar_occursIn.
Qed.

Lemma originalBaseNameOf_fallback stem ext :
  JS.occursIn " - " (stem +:+ "." +:+ ext) = false ->
  hasChar "." ext = false ->
  originalBaseNameOf (stem +:+ "." +:+ ext) = stem.
Proof.
  intros Hsep Hno. unfold originalBaseNameOf.
  rewrite (lastIndexOf_absent _ " - ") by done.
  rewrite lastIndexOf_dot by done. apply substring_prefix.
Qed.

Lemma extensionOf_dot stem ext :
  hasChar "." ext = false -> extensionOf (stem +:+ "." +:+ ext) = "." +:+ ext.
Proof.
  intros Hno. unfold extensionOf. rewrite lastIndexOf_dot by done.
  apply slice_suffix.
Qed.

(** Without a dot, [lastIndexOf] answers [-1] and [slice(-1)] keeps the last
    character of the name. *)
Lemma extensionOf_dotless stem c :
  hasChar "." (stem +:+ JS.str c) = false ->
  extensionOf (stem +:+ JS.str c) = JS.str c.
Proof.
  intros Hno. unfold extensionOf.
  rewrite lastIndexOf_absent by (by rewrite (hasChar_occursIn ".")).
  apply slice_minus_one.
Qed.

(** [substring(0, -1)]: the negative end is clamped to 0 and nothing is
    left. *)
Lemma substring_minus_one s : JS.substring s 0 (-1) = EmptyString.
Proof.
  unfold JS.substring. cbv zeta.
  change (Z.max 0 0) with 0. change (Z.max (-1) 0) with 0.
  assert (Z.min 0 (JS.len s) = 0) as -> by (unfold JS.len; lia).
  simpl. by destruct s.
Qed.

(** Without separator and without dot, both [lastIndexOf] answer [-1]: the
    fallback is [substring(0, -1)]. *)
Lemma originalBaseNameOf_dotless s :
  JS.occursIn " - " s = false -> hasChar "." s = false ->
  originalBaseNameOf s = EmptyString.
Proof.
  intros Hsep Hdot. unfold originalBaseNameOf.
  rewrite (lastIndexOf_absent _ " - ") by done.
  rewrite (lastIndexOf_absent _ ".") by (by rewrite (hasChar_occursIn ".")).
  simpl. apply substring_minus_one.
Qed.

End NamingFacts.

(** ** Facts about the routing of the files *)

Section RoutingFacts.

Variable platform : Platform.
Variable cfg : Config.
Variable destinationFolder : Folder.
Variable responseMap : gmap string string.
Variable questionTitle : string.

(** What one file does to the world: it always returns, logs exactly one
    entry and leaves the file in a state, both of which depend on the state
    of that file alone; it leaves the other files and the folders as they
    were; it looks the file up first, and once. *)
Lemma processFile_run fileCount fileId index w :
  exists w' cs,
    processFile platform cfg destinationFolder responseMap questionTitle
      fileCount fileId index w = (Ok tt, w') /\
    logged w' = logged w ++
      [outcomeOf platform cfg destinationFolder responseMap questionTitle
         fileCount fileId index (files w !! fileId)] /\
    folders w' = folders w /\
    (forall id, id <> fileId -> files w' !! id = files w !! id) /\
    files w' !! fileId
    = fileAfter platform cfg destinationFolder responseMap questionTitle
        fileCount fileId index (files w !! fileId) /\
    calls w' = calls w ++ cs /\
    Forall (fun c => duringRouting c = true) cs /\
    List.filter isLookup cs = [GetFileById fileId].
Proof.
  unfold processFile, outcomeOf, fileAfter, try_catch, bind, getFileById,
    getName, setName, moveTo, folderGetName, call, setFile, log, ret.
  destruct w as [fs fo lg cs0]. simpl.
  destruct (fault platform (GetFileById fileId)) eqn:E1; simpl.
  { exists {| files := fs; folders := fo;
              logged := lg ++ [LogFailed fileId (message e)];
              calls := cs0 ++ [GetFileById fileId] |},
      [GetFileById fileId].
    split_and!; try done; [by case_match | by repeat constructor]. }
  destruct (fs !! fileId) as [f|] eqn:Ef; simpl.
  2:{ eexists _, [GetFileById fileId]. split_and!; try done.
      by repeat constructor. }
  destruct (fault platform (FileGetName fileId)) eqn:E2; simpl.
  { eexists _, [GetFileById fileId; FileGetName fileId].
    split_and!; try done; [by rewrite <- app_assoc | by repeat constructor]. }
  rewrite Ef. simpl.
  destruct (fault platform (FileSetName fileId _)) eqn:E3; simpl.
  { eexists _, [GetFileById fileId; FileGetName fileId; FileSetName fileId _].
    split_and!; try done; [by rewrite <- !app_assoc | by repeat constructor]. }
  rewrite Ef. simpl.
  destruct (fault platform (FileMoveTo fileId _)) eqn:E4; simpl.
  { eexists _, [GetFileById fileId; FileGetName fileId; FileSetName fileId _;
                FileMoveTo fileId _].
    split_and!; try done.
    - intros id Hid. simpl. by rewrite lookup_insert_ne.
    - simpl. by rewrite lookup_insert_eq.
    - by rewrite <- !app_assoc.
    - by repeat constructor. }
  rewrite lookup_insert_eq. simpl.
  destruct (fault platform (FolderGetName _)) eqn:E5; simpl;
    eexists _, [GetFileById fileId; FileGetName fileId; FileSetName fileId _;
                FileMoveTo fileId _; FolderGetName _];
    (split_and!; try done;
      [ intros id Hid; simpl; by rewrite !lookup_insert_ne
      | simpl; by rewrite lookup_insert_eq
      | by rewrite <- !app_assoc
      | by repeat constructor ]).
Qed.

Lemma logOf_processFile fileCount fileId index w :
  logOf (processFile platform cfg destinationFolder responseMap questionTitle
           fileCount fileId index) w
  = [outcomeOf platform cfg destinationFolder responseMap questionTitle
       fileCount fileId index (files w !! fileId)].
Proof.
  unfold logOf.
  destruct (processFile_run fileCount fileId index w)
    as (w' & cs & -> & Hlog & _). simpl. by rewrite Hlog, drop_app_length.
Qed.

(** The files of one question, from the index [k] on. *)
Lemma forEach_processFile_run fileCount ids : forall k w,
  exists w' cs,
    forEach_from
      (processFile platform cfg destinationFolder responseMap questionTitle
         fileCount) ids k w = (Ok tt, w') /\
    folders w' = folders w /\
    (forall id, id ∉ ids -> files w' !! id = files w !! id) /\
    calls w' = calls w ++ cs /\
    Forall (fun c => duringRouting c = true) cs /\
    List.filter isLookup cs = map GetFileById ids /\
    List.length (logged w') = (List.length (logged w) + List.length ids)%nat /\
    (NoDup ids ->
     logged w' = logged w ++
       imap (fun j id =>
               outcomeOf platform cfg destinationFolder responseMap
                 questionTitle fileCount id (k + j) (files w !! id)) ids) /\
    (NoDup ids ->
     forall j id,
       ids !! j = Some id ->
       files w' !! id
       = fileAfter platform cfg destinationFolder responseMap questionTitle
           fileCount id (k + j) (files w !! id)).
Proof.
  induction ids as [|fileId ids IH]; intros k w.
  - exists w, []. simpl. unfold ret. split_and!; try done.
    + by rewrite app_nil_r.
    + intros _. by rewrite app_nil_r.
  - destruct (processFile_run fileCount fileId k w)
      as (w1 & cs1 & Hrun & Hlog1 & Hfo1 & Hfs1 & Hnew1 & Hcs1 & Hall1 & Hlook1).
    destruct (IH (S k) w1)
      as (w' & cs & Hrest & Hfo & Hfs & Hcs & Hall & Hlook & Hlen & Hlog & Hnew).
    exists w', (cs1 ++ cs). simpl. unfold bind at 1. rewrite Hrun.
    split_and!; try done.
    + congruence.
    + intros id Hid. apply not_elem_of_cons in Hid as [Hne Hid].
      rewrite Hfs by done. by apply Hfs1.
    + by rewrite Hcs, Hcs1, app_assoc.
    + by apply Forall_app.
    + by rewrite List.filter_app, Hlook1, Hlook.
    + rewrite Hlen, Hlog1, length_app. simpl. lia.
    + intros [Hnotin Hnodup]%NoDup_cons.
      rewrite (Hlog Hnodup), Hlog1, <- app_assoc. simpl.
      rewrite Nat.add_0_r. do 2 f_equal.
      apply imap_ext. intros j id Hj. simpl.
      rewrite Hfs1; [by rewrite Nat.add_succ_r |].
      intros ->. apply Hnotin. by eapply list_elem_of_lookup_2.
    + intros [Hnotin Hnodup]%NoDup_cons [|j] id Hj; simpl in Hj.
      * injection Hj as <-. rewrite Nat.add_0_r.
        rewrite Hfs by done. by apply Hnew1.
      * assert (id <> fileId) as Hne
          by (intros ->; apply Hnotin; by eapply list_elem_of_lookup_2).
        rewrite Nat.add_succ_r.
        rewrite (Hnew Hnodup j id Hj). by rewrite Hfs1.
Qed.

Lemma processFiles_run ids w :
  exists w' cs,
    processFiles platform cfg destinationFolder responseMap questionTitle ids w
      = (Ok tt, w') /\
    folders w' = folders w /\
    (forall id, id ∉ ids -> files w' !! id = files w !! id) /\
    calls w' = calls w ++ cs /\
    Forall (fun c => duringRouting c = true) cs /\
    List.filter isLookup cs = map GetFileById ids /\
    List.length (logged w') = (List.length (logged w) + List.length ids)%nat /\
    (NoDup ids ->
     logged w' = logged w ++
       imap (fun j id =>
               outcomeOf platform cfg destinationFolder responseMap
                 questionTitle (List.length ids) id j (files w !! id)) ids) /\
    (NoDup ids ->
     forall j id,
       ids !! j = Some id ->
       files w' !! id
       = fileAfter platform cfg destinationFolder responseMap questionTitle
           (List.length ids) id j (files w !! id)).
Proof. apply (forEach_processFile_run (List.length ids) ids 0 w). Qed.

Lemma logOf_processFiles ids w :
  NoDup ids ->
  logOf (processFiles platform cfg destinationFolder responseMap questionTitle
           ids) w
  = imap (fun j id =>
            outcomeOf platform cfg destinationFolder responseMap
              questionTitle (List.length ids) id j (files w !! id)) ids.
Proof.
  intros Hnodup. unfold logOf.
  destruct (processFiles_run ids w)
    as (w' & cs & -> & _ & _ & _ & _ & _ & _ & Hlog & _).
  simpl. by rewrite (Hlog Hnodup), drop_app_length.
Qed.

Lemma callsOf_processFiles ids w :
  List.filter isLookup
    (callsOf (processFiles platform cfg destinationFolder responseMap
                questionTitle ids) w)
  = map GetFileById ids.
Proof.
  unfold callsOf.
  destruct (processFiles_run ids w)
    as (w' & cs & -> & _ & _ & Hcs & _ & Hlook & _).
  simpl. by rewrite Hcs, drop_app_length.
Qed.

Lemma files_processFiles ids w index fileId :
  NoDup ids -> ids !! index = Some fileId ->
  files (snd (processFiles platform cfg destinationFolder responseMap
                questionTitle ids w)) !! fileId
  = fileAfter platform cfg destinationFolder responseMap questionTitle
      (List.length ids) fileId index (files w !! fileId).
Proof.
  intros Hnodup Hindex.
  destruct (processFiles_run ids w)
    as (w' & cs & -> & _ & _ & _ & _ & _ & _ & _ & Hnew).
  by apply Hnew.
Qed.

Lemma files_processFile fileCount fileId index w :
  files (snd (processFile platform cfg destinationFolder responseMap
                questionTitle fileCount fileId index w)) !! fileId
  = fileAfter platform cfg destinationFolder responseMap questionTitle
      fileCount fileId index (files w !! fileId).
Proof.
  by destruct (processFile_run fileCount fileId index w)
    as (w' & cs & -> & _ & _ & _ & Hnew & _).
Qed.

End RoutingFacts.

(** The entry and the state a file gets depend on the platform only through
    the calls about that file and the read of the name of the folder. *)
Lemma outcomeOf_platform platform platform' cfg destinationFolder responseMap
  questionTitle fileCount fileId index file :
  (forall c, aboutFile fileId c = true -> fault platform' c = fault platform c) ->
  fault platform' (FolderGetName (idOf destinationFolder))
  = fault platform (FolderGetName (idOf destinationFolder)) ->
  message (notFound platform') = message (notFound platform) ->
  outcomeOf platform' cfg destinationFolder responseMap questionTitle fileCount
    fileId index file
  = outcomeOf platform cfg destinationFolder responseMap questionTitle fileCount
      fileId index file.
Proof.
  intros Hagree Hfolder Hmissing. unfold outcomeOf.
  destruct file as [f|];
    rewrite !Hagree, ?Hfolder, ?Hmissing by (simpl; apply String.eqb_refl); done.
Qed.

Lemma fileAfter_platform platform platform' cfg destinationFolder responseMap
  questionTitle fileCount fileId index file :
  (forall c, aboutFile fileId c = true -> fault platform' c = fault platform c) ->
  fileAfter platform' cfg destinationFolder responseMap questionTitle fileCount
    fileId index file
  = fileAfter platform cfg destinationFolder responseMap questionTitle fileCount
      fileId index file.
Proof.
  intros Hagree. unfold fileAfter.
  destruct file as [f|]; [| done].
  by rewrite !Hagree by (simpl; apply String.eqb_refl).
Qed.

(** When the file is there and no call about it fails, it ends renamed in
    the destination folder; it is logged as renamed when the name of the
    folder can be read. *)
Lemma fileAfter_ok platform cfg destinationFolder responseMap questionTitle
  fileCount fileId index f :
  (forall c, aboutFile fileId c = true -> fault platform c = None) ->
  fileAfter platform cfg destinationFolder responseMap questionTitle fileCount
    fileId index (Some f)
  = Some {| fileName := newFileNameOf cfg responseMap questionTitle fileCount
                          index (fileName f);
            fileParent := idOf destinationFolder |}.
Proof.
  intros Hok. unfold fileAfter.
  by rewrite !Hok by (simpl; apply String.eqb_refl).
Qed.

Lemma outcomeOf_renamed platform cfg destinationFolder responseMap questionTitle
  fileCount fileId index f :
  (forall c, aboutFile fileId c = true -> fault platform c = None) ->
  fault platform (FolderGetName (idOf destinationFolder)) = None ->
  outcomeOf platform cfg destinationFolder responseMap questionTitle fileCount
    fileId index (Some f)
  = LogRenamed (fileName f)
      (newFileNameOf cfg responseMap questionTitle fileCount index (fileName f))
      (nameOf destinationFolder).
Proof.
  intros Hok Hfolder. unfold outcomeOf.
  rewrite !Hok by (simpl; apply String.eqb_refl). by rewrite Hfolder.
Qed.

(** An entry is a renaming or the failure of that file. *)
Lemma outcomeOf_shape platform cfg destinationFolder responseMap questionTitle
  fileCount fileId index file :
  isRenamed (outcomeOf platform cfg destinationFolder responseMap questionTitle
               fileCount fileId index file) = true \/
  exists reason,
    outcomeOf platform cfg destinationFolder responseMap questionTitle fileCount
      fileId index file = LogFailed fileId reason.
Proof. unfold outcomeOf. repeat case_match; eauto. Qed.

(** A renaming entry always carries the original name of the file and the
    name computed for its index, and the file is then renamed in the
    destination folder. *)
Lemma outcomeOf_isRenamed platform cfg destinationFolder responseMap questionTitle
  fileCount fileId index file :
  isRenamed (outcomeOf platform cfg destinationFolder responseMap questionTitle
               fileCount fileId index file) = true ->
  exists f,
    file = Some f /\
    outcomeOf platform cfg destinationFolder responseMap questionTitle fileCount
      fileId index file
    = LogRenamed (fileName f)
        (newFileNameOf cfg responseMap questionTitle fileCount index (fileName f))
        (nameOf destinationFolder) /\
    fileAfter platform cfg destinationFolder responseMap questionTitle fileCount
      fileId index file
    = Some {| fileName := newFileNameOf cfg responseMap questionTitle fileCount
                            index (fileName f);
              fileParent := idOf destinationFolder |}.
Proof.
  unfold outcomeOf, fileAfter. intros H.
  repeat case_match; try done; simplify_eq; by eexists.
Qed.

(** ** Facts about the orchestration *)

Section OrchestrationFacts.

Variable platform : Platform.
Variable cfg : Config.

Lemma filter_none {A} (p : A -> bool) (l : list A) :
  Forall (fun x => p x = false) l -> List.filter p l = [].
Proof.
  induction 1 as [|x l Hx _ IH]; simpl; [done |]. by rewrite Hx.
Qed.

(** Before it touches a file, the script only talks to the folders of the
    Drive. *)
Lemma prepare_calls timestamp itemResponses w :
  exists cs,
    calls (snd (prepare platform cfg timestamp itemResponses w)) = calls w ++ cs /\
    Forall (fun c => isSendEmail c = false) cs /\
    Forall (fun c => isFileRouting c = false) cs.
Proof.
  unfold prepare, bind, getFolderById, createFolder, folderGetName,
    folderGetId, call, log, ret.
  destruct w as [fs fo lg cs0]. simpl.
  destruct (fault platform (GetFolderById _)); simpl.
  { exists [GetFolderById (TARGET_SHARED_DRIVE_ID cfg)].
    split_and!; [done | by repeat constructor..]. }
  destruct (fo !! _); simpl.
  2:{ exists [GetFolderById (TARGET_SHARED_DRIVE_ID cfg)].
      split_and!; [done | by repeat constructor..]. }
  destruct (fault platform (CreateFolder _ _)); simpl.
  { eexists [GetFolderById _; CreateFolder _ _].
    split_and!; [by rewrite <- app_assoc | by repeat constructor..]. }
  destruct (fault platform (FolderGetName _)); simpl.
  { eexists [GetFolderById _; CreateFolder _ _; FolderGetName _].
    split_and!; [by rewrite <- !app_assoc | by repeat constructor..]. }
  destruct (fault platform (FolderGetId _)); simpl;
    eexists [GetFolderById _; CreateFolder _ _; FolderGetName _; FolderGetId _];
    (split_and!; [by rewrite <- !app_assoc | by repeat constructor..]).
Qed.

(** The handler of [onFormSubmit]: wherever the [try] block raises, what
    follows is one entry in the log and one mail to the administrator,
    whether the mail service accepts it or not. *)
Lemma onFormSubmit_catch timestamp itemResponses w e w1 :
  tryBlock platform cfg timestamp itemResponses w = (Throw e, w1) ->
  calls (snd (onFormSubmit platform cfg timestamp itemResponses w))
  = calls w1 ++ [SendEmail (adminMail cfg e)] /\
  logged (snd (onFormSubmit platform cfg timestamp itemResponses w))
  = logged w1 ++ [LogError (errorMessageOf e)] /\
  (fault platform (SendEmail (adminMail cfg e)) = None ->
   fst (onFormSubmit platform cfg timestamp itemResponses w) = Ok tt).
Proof.
  intros Htry. unfold onFormSubmit, try_catch. rewrite Htry.
  unfold catchBlock, bind, log, sendEmail, call, ret. simpl.
  by destruct (fault platform (SendEmail (adminMail cfg e))).
Qed.

Lemma tryBlock_prepare_raises timestamp itemResponses w e w1 :
  prepare platform cfg timestamp itemResponses w = (Throw e, w1) ->
  tryBlock platform cfg timestamp itemResponses w = (Throw e, w1).
Proof. intros Hprep. unfold tryBlock, bind at 1. by rewrite Hprep. Qed.

Lemma onFormSubmit_fatal timestamp itemResponses w e w1 :
  prepare platform cfg timestamp itemResponses w = (Throw e, w1) ->
  calls (snd (onFormSubmit platform cfg timestamp itemResponses w))
  = calls w1 ++ [SendEmail (adminMail cfg e)].
Proof.
  intros Hprep. by apply onFormSubmit_catch, tryBlock_prepare_raises.
Qed.

End OrchestrationFacts.

(** ** Facts about the notification and the folder name *)

Section CompositionFacts.

Variable cfg : Config.

Lemma fold_left_append (f : ItemResponse -> string) l : forall init,
  fold_left (fun body x => body +:+ f x) l init
  = init +:+ fold_left (fun body x => body +:+ f x) l EmptyString.
Proof.
  induction l as [|x l IH]; intros init; simpl.
  - by rewrite append_nil_r.
  - rewrite IH, (IH (f x)). by rewrite append_assoc.
Qed.

(** The body is the fragments of the items, in order. *)
Lemma buildEmailBody_middle before item after :
  buildEmailBody cfg (before ++ item :: after)
  = buildEmailBody cfg before +:+ emailFragment cfg item
      +:+ buildEmailBody cfg after.
Proof.
  unfold buildEmailBody. rewrite fold_left_app. simpl.
  rewrite fold_left_append. by rewrite append_assoc.
Qed.

Lemma emailFragment_absent item :
  ItemType_eqb (getType item) FILE_UPLOAD = false ->
  JS.includes (EXCLUDE_FROM_EMAIL_BODY cfg) (getTitle item) = false ->
  getResponse item = RNull ->
  emailFragment cfg item
  = "<strong>" +:+ escapeHtml (getTitle item)
      +:+ ":</strong> &lt;em&gt;No response provided&lt;/em&gt;<br/><br/>".
Proof.
  intros Htype Hincl Hnull. unfold emailFragment.
  by rewrite Htype, Hincl, Hnull.
Qed.

(** Where no list answer has white space at its ends, the folder name is
    the one the specification words. *)
Lemma buildFolderName_claimed itemResponses timestamp :
  (forall item l,
      item ∈ itemResponses -> getResponse item = RArray l ->
      JS.trim (JS.join ", " l) = JS.join ", " l) ->
  buildFolderName cfg itemResponses timestamp
  = claimedFolderName cfg itemResponses timestamp.
Proof.
  intros Htrim. unfold buildFolderName, claimedFolderName.
  do 4 f_equal. apply map_ext_in. intros item Hin.
  apply filter_In in Hin as [Hin _].
  destruct (getResponse item) as [| s | l] eqn:E; [done | done |].
  symmetry. eapply Htrim; [| done]. by apply list_elem_of_In.
Qed.

Lemma buildFolderName_prefix itemResponses timestamp :
  JS.startsWith (timestamp +:+ "_PENDING_")
    (buildFolderName cfg itemResponses timestamp) = true.
Proof.
  apply startsWith_spec. unfold buildFolderName. eexists.
  by rewrite append_assoc.
Qed.

End CompositionFacts.

(** ** Facts about the escaping *)

Section EscapeFacts.

Implicit Types s t : string.

Lemma hasChar_append c s t : hasChar c (s +:+ t) = hasChar c s || hasChar c t.
Proof. induction s as [|a s IH]; simpl; [done |]. by rewrite IH, orb_assoc. Qed.

Lemma replaceClass_append class rep s t :
  JS.replaceClass class rep (s +:+ t)
  = JS.replaceClass class rep s +:+ JS.replaceClass class rep t.
Proof.
  induction s as [|c s IH]; simpl; [done |].
  destruct (class c); rewrite IH; [by rewrite append_assoc | done].
Qed.

Lemma escapeHtml_append s t : escapeHtml (s +:+ t) = escapeHtml s +:+ escapeHtml t.
Proof. unfold escapeHtml, JS.replaceChar. by rewrite !replaceClass_append. Qed.

Lemma escapeHtml_single c : escapeHtml (JS.str c) = entityOf c.
Proof.
  unfold entityOf.
  destruct (Ascii.eqb_spec c "&") as [->|H1]; [reflexivity |].
  destruct (Ascii.eqb_spec c "<") as [->|H2]; [reflexivity |].
  destruct (Ascii.eqb_spec c ">") as [->|H3]; [reflexivity |].
  destruct (Ascii.eqb_spec c JS.dquote) as [->|H4]; [reflexivity |].
  destruct (Ascii.eqb_spec c "'") as [->|H5]; [reflexivity |].
  unfold escapeHtml, JS.replaceChar, JS.str. simpl.
  rewrite (proj2 (Ascii.eqb_neq "&" c)) by congruence. simpl.
  rewrite (proj2 (Ascii.eqb_neq "<" c)) by congruence. simpl.
  rewrite (proj2 (Ascii.eqb_neq ">" c)) by congruence. simpl.
  rewrite (proj2 (Ascii.eqb_neq JS.dquote c)) by congruence. simpl.
  rewrite (proj2 (Ascii.eqb_neq "'" c)) by congruence. done.
Qed.

Lemma escapeHtml_cons c s : escapeHtml (String c s) = entityOf c +:+ escapeHtml s.
Proof.
  change (String c s) with (JS.str c +:+ s).
  by rewrite escapeHtml_append, escapeHtml_single.
Qed.

Lemma escapeHtml_escapeEach s : escapeHtml s = escapeEach s.
Proof.
  induction s as [|c s IH]; [done |]. rewrite escapeHtml_cons, IH. done.
Qed.

Lemma entityOf_plain c : isHtmlSpecial c = false -> entityOf c = JS.str c.
Proof.
  unfold isHtmlSpecial, entityOf. intros H.
  repeat (apply orb_false_iff in H as [H ?]). by repeat case_match.
Qed.

Lemma entityOf_length c :
  (1 <= String.length (entityOf c))%nat /\
  (isHtmlSpecial c = true -> (1 < String.length (entityOf c))%nat).
Proof.
  unfold isHtmlSpecial, entityOf.
  repeat (destruct (Ascii.eqb _ _); [simpl; split; [lia | intros; lia] |]).
  simpl. split; [lia | done].
Qed.

(** An entity never holds one of the four characters that open or close
    markup and attribute values. *)
Lemma entityOf_markup_free c a :
  isHtmlSpecial c = true -> c <> "&"%char -> hasChar c (entityOf a) = false.
Proof.
  unfold isHtmlSpecial. intros Hc Hamp.
  assert (c = "<" \/ c = ">" \/ c = JS.dquote \/ c = "'")%char as Hcases.
  { repeat (apply orb_true_iff in Hc as [Hc|Hc]);
      apply Ascii.eqb_eq in Hc; auto. by destruct Hamp. }
  unfold entityOf.
  destruct (Ascii.eqb_spec a "&") as [->|H1];
    [by destruct Hcases as [->|[->|[->| ->]]] |].
  destruct (Ascii.eqb_spec a "<") as [->|H2];
    [by destruct Hcases as [->|[->|[->| ->]]] |].
  destruct (Ascii.eqb_spec a ">") as [->|H3];
    [by destruct Hcases as [->|[->|[->| ->]]] |].
  destruct (Ascii.eqb_spec a JS.dquote) as [->|H4];
    [by destruct Hcases as [->|[->|[->| ->]]] |].
  destruct (Ascii.eqb_spec a "'") as [->|H5];
    [by destruct Hcases as [->|[->|[->| ->]]] |].
  simpl. rewrite orb_false_r. apply Ascii.eqb_neq.
  destruct Hcases as [->|[->|[->| ->]]]; congruence.
Qed.

(** The entities and the plain characters form a code without prefix. *)
Lemma entityOf_prefix_free a b x y :
  entityOf a +:+ x = entityOf b +:+ y -> a = b /\ x = y.
Proof.
  unfold entityOf.
  destruct (Ascii.eqb_spec a "&") as [->|A1];
    [| destruct (Ascii.eqb_spec a "<") as [->|A2];
       [| destruct (Ascii.eqb_spec a ">") as [->|A3];
          [| destruct (Ascii.eqb_spec a JS.dquote) as [->|A4];
             [| destruct (Ascii.eqb_spec a "'") as [->|A5]]]]];
  (destruct (Ascii.eqb_spec b "&") as [->|B1];
    [| destruct (Ascii.eqb_spec b "<") as [->|B2];
       [| destruct (Ascii.eqb_spec b ">") as [->|B3];
          [| destruct (Ascii.eqb_spec b JS.dquote) as [->|B4];
             [| destruct (Ascii.eqb_spec b "'") as [->|B5]]]]]);
  simpl; intros H; simplify_eq; done.
Qed.

Lemma escapeEach_injective s : forall t, escapeEach s = escapeEach t -> s = t.
Proof.
  induction s as [|a s IH]; intros [|b t] H; simpl in H.
  - done.
  - exfalso. destruct (entityOf_length b) as [Hlen _].
    destruct (entityOf b); simpl in *; [lia | done].
  - exfalso. destruct (entityOf_length a) as [Hlen _].
    destruct (entityOf a); simpl in *; [lia | done].
  - apply entityOf_prefix_free in H as [-> H]. f_equal. by apply IH.
Qed.

Lemma escapeEach_length s :
  (String.length s <= String.length (escapeEach s))%nat.
Proof.
  induction s as [|c s IH]; simpl; [lia |].
  rewrite length_append. destruct (entityOf_length c). lia.
Qed.

Lemma escapeEach_fixed s : escapeEach s = s <-> hasHtmlSpecial s = false.
Proof.
  split.
  - intros H. apply (f_equal String.length) in H. revert H.
    induction s as [|c s IH]; simpl; [done |]. rewrite length_append.
    intros H. pose proof (escapeEach_length s).
    destruct (entityOf_length c) as [H1 Hspecial].
    destruct (isHtmlSpecial c); [specialize (Hspecial eq_refl); lia |].
    simpl. apply IH. lia.
  - induction s as [|c s IH]; simpl; [done |].
    intros [Hc Hs]%orb_false_iff. by rewrite entityOf_plain, IH.
Qed.

Lemma escapeHtml_escapeEach_markup s : hasChar "<" (escapeHtml s) = false.
Proof.
  rewrite escapeHtml_escapeEach. induction s as [|c s IH]; [done |].
  simpl. rewrite hasChar_append, IH, orb_false_r.
  by apply entityOf_markup_free.
Qed.

End EscapeFacts.

(** ** Facts about [initialize] *)

Section TriggerFacts.

Variable platform : ScriptPlatform.

Lemma filter_all_false {A} (p : A -> bool) (l : list A) :
  List.filter p l = [] -> List.filter (fun x => negb (p x)) l = l.
Proof.
  induction l as [|x l IH]; simpl; [done |].
  destruct (p x); [done |]. intros H. simpl. by rewrite IH.
Qed.

Lemma NoDup_fmap_filter {A B} (f : A -> B) (p : A -> bool) (l : list A) :
  NoDup (map f l) -> NoDup (map f (List.filter p l)).
Proof.
  induction l as [|x l IH]; simpl; [done |].
  intros [Hx Hl]%NoDup_cons. destruct (p x); [| by apply IH].
  simpl. apply NoDup_cons. split; [| by apply IH].
  intros Hin. apply Hx. apply list_elem_of_In in Hin. apply list_elem_of_In.
  apply in_map_iff in Hin as (y & <- & Hy). apply filter_In in Hy as [Hy _].
  by apply in_map.
Qed.

Lemma filter_submit_others (l : list Trigger) :
  List.filter isSubmitHandler (List.filter otherHandler l) = [].
Proof.
  unfold otherHandler. induction l as [|t l IH]; simpl; [done |].
  destruct (isSubmitHandler t) eqn:E; simpl; [| rewrite E]; done.
Qed.

Lemma filter_others_others (l : list Trigger) :
  List.filter otherHandler (List.filter otherHandler l)
  = List.filter otherHandler l.
Proof.
  unfold otherHandler. induction l as [|t l IH]; simpl; [done |].
  destruct (isSubmitHandler t) eqn:E; simpl; [done |]. rewrite E. simpl.
  by rewrite IH.
Qed.

(** Deleting a trigger whose id only triggers of [onFormSubmit] carry leaves
    the triggers of the other handlers in place. *)
Lemma deleteTrigger_others trigger p :
  (forall t, In t (projectTriggers p) ->
             getUniqueId t = getUniqueId trigger -> isSubmitHandler t = true) ->
  List.filter otherHandler (projectTriggers (deleteTrigger trigger p))
  = List.filter otherHandler (projectTriggers p).
Proof.
  unfold deleteTrigger, otherHandler. simpl.
  induction (projectTriggers p) as [|t l IH]; intros Hid; simpl; [done |].
  destruct (String.eqb_spec (getUniqueId t) (getUniqueId trigger)) as [Heq|Hne];
    simpl.
  - rewrite (Hid t) by (simpl; auto). simpl. apply IH.
    intros t' Ht'. apply Hid. by right.
  - destruct (isSubmitHandler t); simpl; [| f_equal];
      apply IH; intros t' Ht'; apply Hid; by right.
Qed.

Lemma deleteOldTriggers_others snapshot : forall p,
  (forall d t, In d snapshot -> isSubmitHandler d = true ->
               In t (projectTriggers p) ->
               getUniqueId t = getUniqueId d -> isSubmitHandler t = true) ->
  List.filter otherHandler
    (projectTriggers (snd (deleteOldTriggers platform snapshot p)))
  = List.filter otherHandler (projectTriggers p) /\
  projectLog (snd (deleteOldTriggers platform snapshot p)) = projectLog p.
Proof.
  induction snapshot as [|trigger rest IH]; intros p Hid; simpl; [done |].
  destruct (isSubmitHandler trigger) eqn:Hsub.
  - destruct (scriptFault platform (DeleteTrigger _)); [done |].
    destruct (IH (deleteTrigger trigger p)) as [Hothers Hlog].
    + intros d t Hd Hdsub Ht. apply (Hid d t); [by right | done |].
      unfold deleteTrigger in Ht. simpl in Ht.
      by apply filter_In in Ht as [Ht _].
    + rewrite Hothers, Hlog. split; [| done]. apply deleteTrigger_others.
      intros t Ht. apply (Hid trigger t); [by left | done | done].
  - apply IH. intros d t Hd. apply Hid. by right.
Qed.

Lemma deleteOldTriggers_all snapshot : forall p p',
  deleteOldTriggers platform snapshot p = (Ok tt, p') ->
  (forall t, In t (projectTriggers p) -> isSubmitHandler t = true ->
             In t snapshot) ->
  List.filter isSubmitHandler (projectTriggers p') = [].
Proof.
  induction snapshot as [|trigger rest IH]; intros p p' Hrun Hall; simpl in Hrun.
  - injection Hrun as <-.
    induction (projectTriggers p) as [|t l IHl]; simpl; [done |].
    destruct (isSubmitHandler t) eqn:Hsub.
    + by destruct (Hall t (or_introl eq_refl) Hsub).
    + apply IHl. intros t' Ht'. apply Hall. by right.
  - destruct (isSubmitHandler trigger) eqn:Hsub.
    + destruct (scriptFault platform (DeleteTrigger _)); [done |].
      apply (IH _ _ Hrun). intros t Ht Htsub.
      unfold deleteTrigger in Ht. simpl in Ht.
      apply filter_In in Ht as [Ht Hne].
      destruct (Hall t Ht Htsub) as [<-|]; [| done].
      by rewrite String.eqb_refl in Hne.
    + apply (IH _ _ Hrun). intros t Ht Htsub.
      destruct (Hall t Ht Htsub) as [<-|]; [congruence | done].
Qed.

Lemma deleteOldTriggers_reliable snapshot : forall p,
  (forall c, scriptFault platform c = None) ->
  fst (deleteOldTriggers platform snapshot p) = Ok tt.
Proof.
  induction snapshot as [|trigger rest IH]; intros p Hok; simpl; [done |].
  destruct (isSubmitHandler trigger); [rewrite Hok |]; by apply IH.
Qed.

(** Distinct ids: an id of the snapshot belongs to one trigger only. *)
Lemma NoDup_uid_handler p d t :
  NoDup (map getUniqueId (projectTriggers p)) ->
  In d (projectTriggers p) -> In t (projectTriggers p) ->
  getUniqueId t = getUniqueId d -> t = d.
Proof.
  induction (projectTriggers p) as [|x l IH]; simpl; [done |].
  intros [Hx Hl]%NoDup_cons [<-|Hd] [<-|Ht] Heq; auto.
  - exfalso. apply Hx. apply list_elem_of_In. rewrite <- Heq. by apply in_map.
  - exfalso. apply Hx. apply list_elem_of_In. rewrite Heq. by apply in_map.
Qed.

Lemma initialize_others form p :
  NoDup (map getUniqueId (projectTriggers p)) ->
  List.filter otherHandler (projectTriggers (snd (initialize platform form p)))
  = List.filter otherHandler (projectTriggers p).
Proof.
  intros Hnodup. unfold initialize.
  destruct (scriptFault platform GetProjectTriggers); [done |].
  destruct (deleteOldTriggers_others (projectTriggers p) p) as [Hothers _].
  { intros d t Hd Hdsub Ht Heq.
    by rewrite (NoDup_uid_handler p d t Hnodup Hd Ht Heq). }
  destruct (deleteOldTriggers platform (projectTriggers p) p) as [[[]|e] p1];
    simpl in *; [| done].
  destruct (scriptFault platform (CreateTrigger _ _)); [done |].
  simpl. rewrite List.filter_app. simpl. by rewrite app_nil_r.
Qed.

Lemma initialize_run form p :
  NoDup (map getUniqueId (projectTriggers p)) ->
  (forall c, scriptFault platform c = None) ->
  initialize platform form p
  = (Ok tt,
     {| projectTriggers :=
          List.filter otherHandler (projectTriggers p) ++ [submitTrigger platform form];
        projectLog := projectLog p ++ ["Trigger created successfully."] |}).
Proof.
  intros Hnodup Hok. unfold initialize. rewrite !Hok.
  pose proof (deleteOldTriggers_reliable (projectTriggers p) p Hok) as Hfst.
  destruct (deleteOldTriggers_others (projectTriggers p) p) as [Hothers Hlog].
  { intros d t Hd Hdsub Ht Heq.
    by rewrite (NoDup_uid_handler p d t Hnodup Hd Ht Heq). }
  destruct (deleteOldTriggers platform (projectTriggers p) p) as [r p1] eqn:Hrun.
  simpl in *. subst r.
  pose proof (deleteOldTriggers_all _ _ _ Hrun (fun t Ht _ => Ht)) as Hnone.
  apply filter_all_false in Hnone. unfold otherHandler in Hothers at 1.
  rewrite Hnone in Hothers. by rewrite Hothers, Hlog.
Qed.

End TriggerFacts.

(** ** More facts about the file names *)

Section MoreNamingFacts.

Implicit Types s t pre post stem ext : string.

Lemma isDigit_pretty_N_char (x : N) : isDigit (pretty_N_char x) = true.
Proof. unfold pretty_N_char. by repeat case_match. Qed.

Lemma allDigits_pretty_N_go (x : N) : forall s,
  allDigits s = true -> allDigits (pretty_N_go x s) = true.
Proof.
  induction (N.lt_wf_0 x) as [x _ IH]. intros s Hs.
  destruct (decide (x = 0)%N) as [->|Hx]; [by rewrite pretty_N_go_0 |].
  rewrite pretty_N_go_step by lia. apply IH.
  - apply N.div_lt; lia.
  - simpl. by rewrite isDigit_pretty_N_char, Hs.
Qed.

Lemma allDigits_pretty (n : nat) : allDigits (pretty n) = true.
Proof.
  unfold pretty, pretty_nat, pretty, pretty_N.
  case_decide; [done |]. by apply allDigits_pretty_N_go.
Qed.

(** Two runs of digits closed by a parenthesis: if the texts are equal, so
    are the runs. *)
Lemma digits_closed_injective d1 : forall d2 e1 e2,
  allDigits d1 = true -> allDigits d2 = true ->
  d1 +:+ ")" +:+ e1 = d2 +:+ ")" +:+ e2 -> d1 = d2.
Proof.
  induction d1 as [|a d1 IH]; intros [|b d2] e1 e2 H1 H2 Heq; simpl in *.
  - done.
  - injection Heq as <- _. done.
  - injection Heq as -> _. done.
  - injection Heq as <- Heq. apply andb_true_iff in H1 as [_ H1].
    apply andb_true_iff in H2 as [_ H2]. f_equal. by eapply IH.
Qed.

Lemma sanitize_append s t : sanitize (s +:+ t) = sanitize s +:+ sanitize t.
Proof. unfold sanitize. apply replaceClass_append. Qed.

Lemma sanitize_length s : String.length (sanitize s) = String.length s.
Proof.
  induction s as [|c s IH]; [done |]. rewrite sanitize_cons. simpl. by rewrite IH.
Qed.

Lemma sanitize_fixed s : sanitize s = s <-> hasIllegal s = false.
Proof.
  split.
  - intros <-. apply sanitize_legal.
  - induction s as [|c s IH]; [done |]. simpl.
    intros [Hc Hs]%orb_false_iff. by rewrite sanitize_cons, Hc, IH.
Qed.

(** A name with a dot splits at its last dot. *)
Lemma split_at_last_dot s :
  hasChar "." s = true ->
  exists stem ext, s = stem +:+ "." +:+ ext /\ hasChar "." ext = false.
Proof.
  induction s as [|c s IH]; simpl; [done |].
  destruct (hasChar "." s) eqn:Hs.
  - intros _. destruct (IH eq_refl) as (stem & ext & -> & Hext).
    by exists (String c stem), ext.
  - rewrite orb_false_r. intros <-%Ascii.eqb_eq. by exists EmptyString, s.
Qed.

Lemma split_last_char s :
  s <> EmptyString -> exists stem c, s = stem +:+ JS.str c.
Proof.
  induction s as [|a s IH]; [done |]. intros _.
  destruct s as [|b s]; [by exists EmptyString, a |].
  destruct IH as (stem & c & Heq); [done |].
  exists (String a stem), c. simpl. by rewrite <- Heq.
Qed.

Lemma take_drop n s : s = JS.take n s +:+ JS.drop n s.
Proof.
  revert s. induction n as [|n IH]; intros [|c s]; simpl; try done.
  by rewrite <- IH.
Qed.

End MoreNamingFacts.

(** ** Facts about the answers of a submission *)

Section SubmissionFacts.

Variable cfg : Config.

Lemma buildResponseMap_snoc items item :
  buildResponseMap (items ++ [item])
  = setProperty (buildResponseMap items) (getTitle item)
      (flatAnswer (getResponse item)).
Proof. unfold buildResponseMap. by rewrite fold_left_app. Qed.

Lemma titled_snoc title items item :
  titled title (items ++ [item])
  = titled title items ++ (if String.eqb (getTitle item) title then [item] else []).
Proof. unfold titled. by rewrite List.filter_app. Qed.

(** The map holds, under a title, the answer of the last item with that
    title. *)
Lemma buildResponseMap_lookup items title :
  String.eqb title "__proto__" = false ->
  buildResponseMap items !! title
  = (fun item => flatAnswer (getResponse item)) <$> last (titled title items).
Proof.
  intros Hproto. induction items as [|item items IH] using rev_ind; [done |].
  rewrite buildResponseMap_snoc, titled_snoc. unfold setProperty.
  destruct (String.eqb_spec (getTitle item) title) as [->|Hne].
  - rewrite Hproto, lookup_insert_eq, last_snoc. done.
  - rewrite app_nil_r.
    destruct (String.eqb (getTitle item) "__proto__"); [done |].
    by rewrite lookup_insert_ne.
Qed.

Lemma buildResponseMap_proto items : buildResponseMap items !! "__proto__" = None.
Proof.
  induction items as [|item items IH] using rev_ind; [done |].
  rewrite buildResponseMap_snoc. unfold setProperty.
  destruct (String.eqb_spec (getTitle item) "__proto__") as [Heq|Hne]; [done |].
  by rewrite lookup_insert_ne.
Qed.

Lemma countChar_append c s t :
  countChar c (s +:+ t) = (countChar c s + countChar c t)%nat.
Proof. induction s as [|a s IH]; simpl; [done |]. rewrite IH. lia. Qed.

Lemma countChar_absent c s : hasChar c s = false -> countChar c s = 0%nat.
Proof.
  induction s as [|a s IH]; simpl; [done |].
  intros [-> Hs]%orb_false_iff. by rewrite IH.
Qed.

Lemma buildEmailBody_append l1 l2 :
  buildEmailBody cfg (l1 ++ l2) = buildEmailBody cfg l1 +:+ buildEmailBody cfg l2.
Proof.
  unfold buildEmailBody. rewrite fold_left_app. apply fold_left_append.
Qed.

Lemma buildEmailBody_cons item l :
  buildEmailBody cfg (item :: l) = emailFragment cfg item +:+ buildEmailBody cfg l.
Proof.
  change (item :: l) with ([item] ++ l). by rewrite buildEmailBody_append.
Qed.

Lemma emailFragment_brackets item :
  countChar "<" (emailFragment cfg item)
  = if shownInEmail cfg item then 4%nat else 0%nat.
Proof.
  unfold emailFragment, shownInEmail. destruct (_ && _); [| done].
  rewrite !countChar_append.
  rewrite (countChar_absent "<" (escapeHtml (getTitle item)))
    by apply escapeHtml_escapeEach_markup.
  destruct (getResponse item);
    rewrite (countChar_absent "<" (escapeHtml _))
      by apply escapeHtml_escapeEach_markup; done.
Qed.

End SubmissionFacts.

(** ** Facts about the Drive *)

Section DriveFacts.

Variable platform : Platform.
Variable cfg : Config.

Lemma sameDriveBut_refl ids w : sameDriveBut ids w w.
Proof. by split_and!. Qed.

Lemma sameDriveBut_same ids w w' :
  files w' = files w -> folders w' = folders w -> sameDriveBut ids w w'.
Proof. intros Hfs Hfo. split_and!; [done | |]; intros id; by rewrite Hfs. Qed.

Lemma sameDriveBut_trans ids1 ids2 ids w1 w2 w3 :
  (forall id, id ∈ ids1 -> id ∈ ids) -> (forall id, id ∈ ids2 -> id ∈ ids) ->
  sameDriveBut ids1 w1 w2 -> sameDriveBut ids2 w2 w3 -> sameDriveBut ids w1 w3.
Proof.
  intros H1 H2 (Hfo1 & Hfs1 & Hdom1) (Hfo2 & Hfs2 & Hdom2). split_and!.
  - congruence.
  - intros id Hid. rewrite Hfs2, Hfs1; [done | |]; intros ?; apply Hid; auto.
  - intros id. by rewrite Hdom2, Hdom1.
Qed.

Lemma processFile_frame destinationFolder responseMap questionTitle fileCount
  fileId index w :
  sameDriveBut [fileId] w
    (snd (processFile platform cfg destinationFolder responseMap questionTitle
            fileCount fileId index w)).
Proof.
  assert (forall (fs : gmap string File) (f f' : File) id,
             fs !! fileId = Some f ->
             (is_Some (<[fileId := f']> fs !! id) <-> is_Some (fs !! id)))
    as Hins.
  { intros fs f f' id Hf. destruct (decide (fileId = id)) as [<-|Hne].
    - rewrite lookup_insert_eq, Hf. split; eauto.
    - by rewrite lookup_insert_ne. }
  unfold processFile, try_catch, bind, getFileById, getName, setName, moveTo,
    folderGetName, call, setFile, log, ret.
  destruct w as [fs fo lg cs0]. simpl.
  destruct (fault platform (GetFileById fileId)); simpl;
    [by apply sameDriveBut_same |].
  destruct (fs !! fileId) as [f|] eqn:Ef; simpl; [| by apply sameDriveBut_same].
  destruct (fault platform (FileGetName fileId)); simpl;
    [by apply sameDriveBut_same |].
  rewrite Ef. simpl.
  destruct (fault platform (FileSetName fileId _)); simpl;
    [by apply sameDriveBut_same |].
  rewrite Ef. simpl.
  destruct (fault platform (FileMoveTo fileId _)); simpl.
  - split_and!; simpl; [done | |].
    + intros id Hid. apply not_elem_of_cons in Hid as [Hid _].
      by rewrite lookup_insert_ne.
    + intros id. by eapply Hins.
  - rewrite lookup_insert_eq. simpl.
    destruct (fault platform (FolderGetName _)); simpl;
      (split_and!; simpl; [done | |];
       [ intros id Hid; apply not_elem_of_cons in Hid as [Hid _];
         by rewrite !lookup_insert_ne
       | intros id; rewrite (Hins _ _ _ id (lookup_insert_eq _ _ _));
         by eapply Hins ]).
Qed.

Lemma forEach_processFile_frame destinationFolder responseMap questionTitle
  fileCount ids : forall k w,
  sameDriveBut ids w
    (snd (forEach_from
            (processFile platform cfg destinationFolder responseMap
               questionTitle fileCount) ids k w)).
Proof.
  induction ids as [|fileId ids IH]; intros k w; [apply sameDriveBut_refl |].
  simpl. unfold bind at 1.
  pose proof (processFile_frame destinationFolder responseMap questionTitle
                fileCount fileId k w) as Hhead.
  destruct (processFile_run platform cfg destinationFolder responseMap
              questionTitle fileCount fileId k w) as (w1 & cs & Hrun & _).
  rewrite Hrun in *. simpl in Hhead.
  eapply (sameDriveBut_trans [fileId] ids); [| | done | apply IH].
  - intros id ->%list_elem_of_singleton. by left.
  - intros id Hid. by right.
Qed.

Lemma routeQuestions_frame destinationFolder responseMap itemResponses :
  forall k w,
    sameDriveBut (uploadedIds itemResponses) w
      (snd (routeQuestions platform cfg destinationFolder responseMap
              itemResponses k w)).
Proof.
  unfold routeQuestions.
  induction itemResponses as [|item items IH]; intros k w;
    [apply sameDriveBut_refl |].
  simpl. destruct (ItemType_eqb (getType item) FILE_UPLOAD) eqn:Etype.
  2:{ eapply (sameDriveBut_trans [] (uploadedIds items));
        [| | apply sameDriveBut_refl | apply IH].
      - by intros id ?%elem_of_nil.
      - intros id Hid. by destruct (getType item), (getResponse item);
          simpl; rewrite ?elem_of_app; auto. }
  assert (getType item = FILE_UPLOAD) as -> by (by destruct (getType item)).
  simpl. unfold bind at 1.
  destruct (getResponse item) as [|s|ids] eqn:Eresp.
  - unfold ret at 1. apply IH.
  - destruct (String.eqb s EmptyString); [unfold ret at 1; apply IH |].
    unfold throw. simpl. apply sameDriveBut_refl.
  - destruct (0 <? List.length ids)%nat.
    + pose proof (forEach_processFile_frame destinationFolder responseMap
                    (getTitle item) (List.length ids) ids 0 w) as Hhead.
      unfold processFiles, forEach.
      destruct (forEach_processFile_run platform cfg destinationFolder
                  responseMap (getTitle item) (List.length ids) ids 0 w)
        as (w1 & cs & Hrun & _).
      rewrite Hrun in *. simpl in Hhead.
      eapply (sameDriveBut_trans ids (uploadedIds items)); [| | done | apply IH];
        intros id Hid; apply elem_of_app; auto.
    + unfold ret at 1.
      eapply (sameDriveBut_trans [] (uploadedIds items));
        [| | apply sameDriveBut_refl | apply IH].
      * by intros id ?%elem_of_nil.
      * intros id Hid. apply elem_of_app; auto.
Qed.

Lemma prepare_frame timestamp itemResponses w :
  let w1 := snd (prepare platform cfg timestamp itemResponses w) in
  files w1 = files w /\
  (folders w1 = folders w \/
   folders w1
   = <[newFolderId platform := buildFolderName cfg itemResponses timestamp]>
       (folders w)).
Proof.
  unfold prepare, bind, getFolderById, createFolder, folderGetName,
    folderGetId, call, log, ret.
  destruct w as [fs fo lg cs0]. simpl.
  destruct (fault platform (GetFolderById _)); simpl; [auto |].
  destruct (fo !! _); simpl; [| auto].
  destruct (fault platform (CreateFolder _ _)); simpl; [auto |].
  destruct (fault platform (FolderGetName _)); simpl; [auto |].
  destruct (fault platform (FolderGetId _)); simpl; auto.
Qed.

Lemma sendNotificationEmail_frame itemResponses emailSubject w :
  let w' := snd (sendNotificationEmail platform cfg itemResponses emailSubject w) in
  files w' = files w /\ folders w' = folders w.
Proof.
  unfold sendNotificationEmail, bind, sendEmail, call, log, ret. simpl.
  by destruct (fault platform (SendEmail _)).
Qed.

Lemma catchBlock_frame e w :
  let w' := snd (catchBlock platform cfg e w) in
  files w' = files w /\ folders w' = folders w.
Proof.
  unfold catchBlock, bind, sendEmail, call, log, ret. simpl.
  by destruct (fault platform (SendEmail _)).
Qed.

Lemma tryBlock_frame timestamp itemResponses w :
  let w' := snd (tryBlock platform cfg timestamp itemResponses w) in
  (forall id, id ∉ uploadedIds itemResponses -> files w' !! id = files w !! id) /\
  (forall id, is_Some (files w' !! id) <-> is_Some (files w !! id)) /\
  (folders w' = folders w \/
   folders w'
   = <[newFolderId platform := buildFolderName cfg itemResponses timestamp]>
       (folders w)).
Proof.
  destruct (prepare_frame timestamp itemResponses w) as [Hfs1 Hfo1].
  destruct (tryBlock platform cfg timestamp itemResponses w) as [r w'] eqn:Htry.
  simpl. unfold tryBlock, bind at 1 in Htry.
  destruct (prepare platform cfg timestamp itemResponses w)
    as [[[[responseMap emailSubject] newFolder]|e] w1] eqn:Hprep;
    simpl in *.
  2:{ injection Htry as _ <-. rewrite Hfs1. by split_and!. }
  unfold bind at 1, processAndRenameFiles, forEach in Htry.
  pose proof (routeQuestions_frame newFolder responseMap itemResponses 0 w1)
    as (Hfo2 & Hfs2 & Hdom2).
  unfold routeQuestions in *.
  destruct (forEach_from _ _ 0 w1) as [[[]|e] w2]; simpl in *.
  - destruct (sendNotificationEmail_frame itemResponses emailSubject w2)
      as [Hfs3 Hfo3].
    rewrite Htry in *. simpl in *. rewrite Hfs3, Hfo3, Hfo2, <- Hfs1.
    by split_and!.
  - injection Htry as _ <-. rewrite Hfo2, <- Hfs1. by split_and!.
Qed.

End DriveFacts.

(** ** Facts about failures and about the whole run *)

Section RunFacts.

Variable platform : Platform.
Variable cfg : Config.

Lemma processAndRenameFiles_routeQuestions itemResponses destinationFolder
  responseMap :
  processAndRenameFiles platform cfg itemResponses destinationFolder responseMap
  = routeQuestions platform cfg destinationFolder responseMap itemResponses 0.
Proof. reflexivity. Qed.

Lemma uploadedIds_elem item ids index fileId itemResponses :
  In item itemResponses -> getType item = FILE_UPLOAD ->
  getResponse item = RArray ids -> ids !! index = Some fileId ->
  fileId ∈ uploadedIds itemResponses.
Proof.
  intros Hin Htype Hresp Hindex.
  induction itemResponses as [|x items IH]; [done |].
  destruct Hin as [->|Hin]; simpl.
  - rewrite Htype, Hresp. apply elem_of_app. left.
    by eapply list_elem_of_lookup_2.
  - specialize (IH Hin).
    destruct (getType x), (getResponse x); try done.
    apply elem_of_app. by right.
Qed.

Lemma processFiles_guard destinationFolder responseMap questionTitle ids w :
  (if (0 <? List.length ids)%nat
   then processFiles platform cfg destinationFolder responseMap questionTitle ids
   else ret tt) w
  = processFiles platform cfg destinationFolder responseMap questionTitle ids w.
Proof. by destruct ids. Qed.

Lemma uploadedIds_skip item items :
  ItemType_eqb (getType item) FILE_UPLOAD = false ->
  uploadedIds (item :: items) = uploadedIds items.
Proof. intros Htype. simpl. by destruct (getType item), (getResponse item). Qed.

(** With answers of the right shape, whatever fails: the loop over the
    questions returns normally and looks up every uploaded file once, in
    the order of the upload; when the file ids are distinct it leaves each
    file in the state its own turn gives it. *)
Lemma routeQuestions_run destinationFolder responseMap itemResponses :
  uploadsAreArrays itemResponses = true ->
  forall k w,
    exists w' cs,
      routeQuestions platform cfg destinationFolder responseMap itemResponses k w
      = (Ok tt, w') /\
      calls w' = calls w ++ cs /\
      Forall (fun c => duringRouting c = true) cs /\
      List.filter isLookup cs = map GetFileById (uploadedIds itemResponses) /\
      (NoDup (uploadedIds itemResponses) ->
       forall item ids index fileId,
         In item itemResponses -> getType item = FILE_UPLOAD ->
         getResponse item = RArray ids -> ids !! index = Some fileId ->
         files w' !! fileId
         = fileAfter platform cfg destinationFolder responseMap
             (getTitle item) (List.length ids) fileId index
             (files w !! fileId)).
Proof.
  unfold routeQuestions.
  induction itemResponses as [|item items IH]; intros Hshape k w.
  - exists w, []. simpl. unfold ret. rewrite app_nil_r. by split_and!.
  - simpl in Hshape. apply andb_true_iff in Hshape as [Hitem Hshape].
    simpl List.filter.
    destruct (ItemType_eqb (getType item) FILE_UPLOAD) eqn:Etype.
    2:{ assert (getType item <> FILE_UPLOAD) as Hne
          by (intros E; by rewrite E in Etype).
        rewrite uploadedIds_skip by done.
        destruct (IH Hshape k w) as (w' & cs & Hrun & Hcs & Hall & Hlook & Hnew).
        exists w', cs. split_and!; [done..|].
        intros Hnodup x ids index fileId [<-|Hin]; [done | by eapply Hnew]. }
    assert (getType item = FILE_UPLOAD) as Etype' by (by destruct (getType item)).
    simpl. rewrite Etype' in Hitem |- *.
    unfold bind at 1.
    destruct (getResponse item) as [|s|ids] eqn:Eresp.
    + destruct (IH Hshape (S k) w) as (w' & cs & Hrun & Hcs & Hall & Hlook & Hnew).
      exists w', cs. unfold ret at 1. split_and!; [done..|].
      intros Hnodup x ids index fileId [<-|Hin]; [congruence | by eapply Hnew].
    + rewrite Hitem. unfold ret at 1.
      destruct (IH Hshape (S k) w) as (w' & cs & Hrun & Hcs & Hall & Hlook & Hnew).
      exists w', cs. split_and!; [done..|].
      intros Hnodup x ids index fileId [<-|Hin]; [congruence | by eapply Hnew].
    + rewrite processFiles_guard.
      destruct (processFiles_run platform cfg destinationFolder responseMap
                  (getTitle item) ids w)
        as (w1 & cs1 & Hrun1 & _ & Hfs1 & Hcs1 & Hall1 & Hlook1 & _ & _ & Hnew1).
      rewrite Hrun1.
      destruct (IH Hshape (S k) w1)
        as (w' & cs & Hrun & Hcs & Hall & Hlook & Hnew).
      assert (forall id, id ∉ uploadedIds items ->
                         files w' !! id = files w1 !! id) as Hfs.
      { pose proof (routeQuestions_frame platform cfg destinationFolder
                      responseMap items (S k) w1) as (_ & Hframe & _).
        unfold routeQuestions in Hframe. by rewrite Hrun in Hframe. }
      exists w', (cs1 ++ cs). split_and!; [done | | | |].
      * by rewrite Hcs, Hcs1, app_assoc.
      * by apply Forall_app.
      * by rewrite List.filter_app, Hlook1, Hlook, map_app.
      * intros (Hids & Hdisjoint & Hrest)%NoDup_app.
        intros x ids' index fileId [<-|Hin] Htype Hresp Hindex.
        -- rewrite Eresp in Hresp. injection Hresp as <-.
           rewrite Hfs by (apply Hdisjoint; by eapply list_elem_of_lookup_2).
           by apply Hnew1.
        -- assert (fileId ∈ uploadedIds items) as Hup
             by (by eapply uploadedIds_elem).
           rewrite (Hnew Hrest x ids' index fileId Hin Htype Hresp Hindex).
           rewrite Hfs1; [done |]. intros Hids'. by apply (Hdisjoint fileId).
Qed.

Lemma routeQuestions_no_upload destinationFolder responseMap itemResponses k w :
  uploadsAreArrays itemResponses = true ->
  uploadedIds itemResponses = [] ->
  routeQuestions platform cfg destinationFolder responseMap itemResponses k w
  = (Ok tt, w).
Proof.
  unfold routeQuestions. revert k.
  induction itemResponses as [|item items IH]; intros k Hshape Hnone; [done |].
  simpl in Hshape. apply andb_true_iff in Hshape as [Hitem Hshape].
  simpl in Hnone. simpl.
  destruct (ItemType_eqb (getType item) FILE_UPLOAD) eqn:Etype.
  2:{ apply IH; [done |].
      by destruct (getType item), (getResponse item). }
  assert (getType item = FILE_UPLOAD) as Etype' by (by destruct (getType item)).
  rewrite Etype' in Hitem, Hnone. simpl. unfold bind at 1.
  destruct (getResponse item) as [|s|ids].
  - unfold ret at 1. by apply IH.
  - rewrite Hitem. unfold ret at 1. by apply IH.
  - apply app_eq_nil in Hnone as [-> Hnone]. simpl. unfold ret at 1.
    by apply IH.
Qed.

(** The [try] block up to the folder, when the target Drive is there and
    none of its four calls raises. *)
Lemma prepare_succeeds timestamp itemResponses w driveName :
  folders w !! TARGET_SHARED_DRIVE_ID cfg = Some driveName ->
  fault platform (GetFolderById (TARGET_SHARED_DRIVE_ID cfg)) = None ->
  fault platform
    (CreateFolder (TARGET_SHARED_DRIVE_ID cfg)
       (buildFolderName cfg itemResponses timestamp)) = None ->
  fault platform (FolderGetName (newFolderId platform)) = None ->
  fault platform (FolderGetId (newFolderId platform)) = None ->
  exists w1,
    prepare platform cfg timestamp itemResponses w
    = (Ok (buildResponseMap itemResponses,
           buildFromTemplate (EMAIL_SUBJECT_TEMPLATE cfg)
             (buildResponseMap itemResponses) ∅,
           {| idOf := newFolderId platform;
              nameOf := buildFolderName cfg itemResponses timestamp |}), w1) /\
    files w1 = files w /\
    folders w1
    = <[newFolderId platform := buildFolderName cfg itemResponses timestamp]>
        (folders w) /\
    calls w1
    = calls w ++ [ GetFolderById (TARGET_SHARED_DRIVE_ID cfg);
                   CreateFolder (TARGET_SHARED_DRIVE_ID cfg)
                     (buildFolderName cfg itemResponses timestamp);
                   FolderGetName (newFolderId platform);
                   FolderGetId (newFolderId platform) ].
Proof.
  intros Hdrive Hget Hcreate Hname Hid.
  unfold prepare, bind, getFolderById, createFolder, folderGetName,
    folderGetId, call, log, ret.
  destruct w as [fs fo lg cs0]. simpl in *.
  rewrite Hget. simpl. rewrite Hdrive. simpl. rewrite Hcreate. simpl.
  rewrite Hname. simpl. rewrite Hid. simpl.
  eexists. split_and!; [done.. |]. simpl. by rewrite <- !app_assoc.
Qed.

(** The whole run once the folder is there, whatever fails on the files: the
    files are processed, then the notification is tried; when it is refused
    the alert to the administrator follows. *)
Lemma onFormSubmit_routes timestamp itemResponses w responseMap emailSubject
  newFolder w1 :
  prepare platform cfg timestamp itemResponses w
  = (Ok (responseMap, emailSubject, newFolder), w1) ->
  uploadsAreArrays itemResponses = true ->
  exists cs,
    calls (snd (onFormSubmit platform cfg timestamp itemResponses w))
    = calls w1 ++ cs
        ++ SendEmail (notificationMail cfg itemResponses emailSubject)
        :: match fault platform
                   (SendEmail (notificationMail cfg itemResponses emailSubject))
           with
           | Some e => [SendEmail (adminMail cfg e)]
           | None => []
           end /\
    (fault platform (SendEmail (notificationMail cfg itemResponses emailSubject))
     = None ->
     fst (onFormSubmit platform cfg timestamp itemResponses w) = Ok tt) /\
    Forall (fun c => duringRouting c = true) cs /\
    List.filter isLookup cs = map GetFileById (uploadedIds itemResponses) /\
    (NoDup (uploadedIds itemResponses) ->
     forall item ids index fileId,
       In item itemResponses -> getType item = FILE_UPLOAD ->
       getResponse item = RArray ids -> ids !! index = Some fileId ->
       files (snd (onFormSubmit platform cfg timestamp itemResponses w))
         !! fileId
       = fileAfter platform cfg newFolder responseMap (getTitle item)
           (List.length ids) fileId index (files w1 !! fileId)) /\
    folders (snd (onFormSubmit platform cfg timestamp itemResponses w))
    = folders w1.
Proof.
  intros Hprep Hshape.
  destruct (routeQuestions_run newFolder responseMap itemResponses Hshape 0 w1)
    as (w2 & cs & Hrun & Hcs & Hall & Hlook & Hnew).
  pose proof (routeQuestions_frame platform cfg newFolder responseMap
                itemResponses 0 w1) as (Hfo2 & _ & _).
  rewrite Hrun in Hfo2. simpl in Hfo2.
  exists cs.
  destruct (onFormSubmit platform cfg timestamp itemResponses w) as [r w']
    eqn:Hwhole.
  unfold onFormSubmit, try_catch, tryBlock, bind at 1 in Hwhole.
  rewrite Hprep in Hwhole. unfold bind at 1 in Hwhole.
  rewrite processAndRenameFiles_routeQuestions, Hrun in Hwhole.
  unfold sendNotificationEmail, catchBlock, sendEmail, call, bind, log, ret
    in Hwhole.
  simpl in Hwhole.
  destruct (fault platform (SendEmail (notificationMail _ _ _))) as [e|];
    simpl in Hwhole.
  - destruct (fault platform (SendEmail (adminMail cfg e)));
      injection Hwhole as <- <-; simpl;
      (split_and!; [by rewrite Hcs, <- !app_assoc | done..]).
  - injection Hwhole as <- <-. simpl.
    split_and!; [by rewrite Hcs, <- !app_assoc | done..].
Qed.

End RunFacts.

(** ** The properties of the specification *)

(** The second file of three cannot be moved: it is logged as failed, the
    first and the third are renamed and moved, and the numbering follows the
    order of the upload. *)
Example second_file_of_three_fails :
  logOf (processFiles failingMove CONFIG sampleFolder ∅ "Upload Quote"
           ["file-1"; "file-2"; "file-3"]) sampleDrive
  = [ LogRenamed "quote - Jane Doe.pdf" "N-A - N-A - N-A - Upload Quote (1).pdf"
        "20250101-0800_PENDING_Acme";
      LogFailed "file-2" "Service error: Drive";
      LogRenamed "specs - Jane Doe.PDF" "N-A - N-A - N-A - Upload Quote (3).PDF"
        "20250101-0800_PENDING_Acme" ].
Proof. vm_compute. reflexivity. Qed.

(** The same submission from end to end: the folder is created, the second
    file fails, the notification is sent all the same. *)
Example whole_run_with_failing_move :
  logged (snd (onFormSubmit failingMove CONFIG "20250101-0800" sampleSubmission
                 sampleDrive))
  = [ LogFolderCreated "20250101-0800_PENDING_Acme_ " "folder-1";
      LogRenamed "quote - Jane Doe.pdf"
        "N-A -  Acme  - N-A - Upload Quote (1).pdf" "20250101-0800_PENDING_Acme_ ";
      LogFailed "file-2" "Service error: Drive";
      LogRenamed "specs - Jane Doe.PDF"
        "N-A -  Acme  - N-A - Upload Quote (3).PDF" "20250101-0800_PENDING_Acme_ ";
      LogNotified "email1@email.com,email2@email.com" ].
Proof. vm_compute. reflexivity. Qed.

(** The name of the folder cannot be read for the log: the file is renamed
    and moved, and logged as failed; the next file is processed all the
    same. *)
Example folder_name_read_fails_after_move :
  logOf (processFiles failingFolderName CONFIG sampleFolder ∅ "Upload Quote"
           ["file-1"; "file-2"]) sampleDrive
  = [ LogFailed "file-1" "Service error: Drive";
      LogFailed "file-2" "Service error: Drive" ] /\
  files (snd (processFiles failingFolderName CONFIG sampleFolder ∅
                "Upload Quote" ["file-1"; "file-2"] sampleDrive)) !! "file-1"
  = Some {| fileName := "N-A - N-A - N-A - Upload Quote (1).pdf";
            fileParent := "folder-1" |} /\
  callsOf (processFile failingFolderName CONFIG sampleFolder ∅ "Upload Quote"
             2 "file-1" 0) sampleDrive
  = [ GetFileById "file-1"; FileGetName "file-1";
      FileSetName "file-1" "N-A - N-A - N-A - Upload Quote (1).pdf";
      FileMoveTo "file-1" "folder-1"; FolderGetName "folder-1" ].
Proof. split_and!; vm_compute; reflexivity. Qed.

(** A file upload answered by a text: [forEach] is not a function of a
    string, the exception reaches the handler of [onFormSubmit], and the
    alert carries the stack of the error, which starts with its name and
    message. *)
Example text_answer_to_file_upload :
  List.filter isSendEmail
    (callsOf (onFormSubmit reliable CONFIG "20250101-0800"
                [ {| getTitle := "Upload Quote"; getType := FILE_UPLOAD;
                     getResponse := RString "file-1" |} ]) sampleDrive)
  = [SendEmail (adminMail CONFIG (notAFunction reliable))] /\
  JS.startsWith "TypeError: fileIds.forEach is not a function"
    (stack (notAFunction reliable)) = true.
Proof. split; vm_compute; reflexivity. Qed.

(** C1, where the code departs from the claim.  For a file name without a
    dot, [lastIndexOf] answers [-1] and [slice(-1)] keeps the last character:
    the extension is that character, not the empty text, and the generated
    name of the standard branch ends with it. *)
Theorem dotless_name_extension_is_last_character stem c :
  hasChar "." (stem +:+ JS.str c) = false ->
  extensionOf (stem +:+ JS.str c) = JS.str c /\
  forall cfg responseMap questionTitle,
    String.eqb questionTitle (SPECIAL_NAMING_QUESTION_TITLE cfg) = false ->
    newFileNameOf cfg responseMap questionTitle 1 0 (stem +:+ JS.str c)
    = sanitize (buildFromTemplate (FILE_NAME_TEMPLATE cfg) responseMap
                  {[ "QuestionTitle" := questionTitle ]})
        +:+ JS.str c.
Proof.
  intros Hno. split; [by apply extensionOf_dotless |].
  intros cfg responseMap questionTitle Hstd.
  rewrite newFileNameOf_standard by done.
  by rewrite extensionOf_dotless.
Qed.

Lemma dotless_name_extension_is_last_character_witness :
  extensionOf "README" = "E" /\
  newFileNameOf CONFIG ∅ "Upload Quote" 1 0 "README"
  = "N-A - N-A - N-A - Upload QuoteE".
Proof.
  destruct (dotless_name_extension_is_last_character "READM" "E"%char eq_refl)
    as [Hext Hname].
  split; [exact Hext |].
  exact (eq_trans (Hname CONFIG ∅ "Upload Quote" eq_refl) eq_refl).
Defined.

(** The same defect in the special branch: without separator and without
    dot, [substring(0, -1)] is empty and the name keeps one character. *)
Example dotless_name_in_special_branch :
  originalBaseNameOf "README" = EmptyString /\
  newFileNameOf CONFIG ∅ (SPECIAL_NAMING_QUESTION_TITLE CONFIG) 1 0 "README"
  = "N-A - N-A - N-A - E".
Proof. split; vm_compute; reflexivity. Qed.

(** C2.  The files of one question are processed one by one, each inside its
    own [try ... catch].  Whatever fails, the loop returns normally, looks up
    every file of the question, once and in the order of the upload, and
    logs one entry per file.  When the ids are distinct, the entry a file
    gets and the state it is left in on the Drive are those it gets when
    processed alone from the same Drive; the entry is a renaming or the
    failure of that very file; a file that exists and whose own calls do not
    fail ends renamed in the destination folder, whatever fails on the
    others, and is logged as renamed when the name of the folder can be read
    for the log; and neither its state nor its entry changes when the
    platform fails differently on the calls about the other files.  Once the
    folder is created, no failure on a file reaches the handler of
    [onFormSubmit]: every uploaded file is looked up, the notification is
    sent after the calls on the files and the run returns normally; with
    distinct ids every uploaded file that exists and whose own calls do not
    fail is then renamed in the new folder. *)
Theorem per_file_failure_isolation platform cfg destinationFolder responseMap
  questionTitle fileIds w :
  (exists w',
      processFiles platform cfg destinationFolder responseMap questionTitle
        fileIds w = (Ok tt, w')) /\
  List.filter isLookup
    (callsOf (processFiles platform cfg destinationFolder responseMap
                questionTitle fileIds) w)
  = map GetFileById fileIds /\
  List.length
    (logOf (processFiles platform cfg destinationFolder responseMap
              questionTitle fileIds) w) = List.length fileIds /\
  (NoDup fileIds ->
   forall index fileId,
     fileIds !! index = Some fileId ->
     logOf (processFiles platform cfg destinationFolder responseMap
              questionTitle fileIds) w !! index
     = logOf (processFile platform cfg destinationFolder responseMap
                questionTitle (List.length fileIds) fileId index) w !! 0%nat /\
     files (snd (processFiles platform cfg destinationFolder responseMap
                   questionTitle fileIds w)) !! fileId
     = files (snd (processFile platform cfg destinationFolder responseMap
                     questionTitle (List.length fileIds) fileId index w))
         !! fileId /\
     (exists entry,
         logOf (processFiles platform cfg destinationFolder responseMap
                  questionTitle fileIds) w !! index = Some entry /\
         (isRenamed entry = true \/
          exists reason, entry = LogFailed fileId reason)) /\
     (forall f,
         files w !! fileId = Some f ->
         (forall c, aboutFile fileId c = true -> fault platform c = None) ->
         files (snd (processFiles platform cfg destinationFolder responseMap
                       questionTitle fileIds w)) !! fileId
         = Some {| fileName :=
                     newFileNameOf cfg responseMap questionTitle
                       (List.length fileIds) index (fileName f);
                   fileParent := idOf destinationFolder |} /\
         (fault platform (FolderGetName (idOf destinationFolder)) = None ->
          logOf (processFiles platform cfg destinationFolder responseMap
                   questionTitle fileIds) w !! index
          = Some (LogRenamed (fileName f)
                    (newFileNameOf cfg responseMap questionTitle
                       (List.length fileIds) index (fileName f))
                    (nameOf destinationFolder)))) /\
     forall platform',
       (forall c, aboutFile fileId c = true ->
                  fault platform' c = fault platform c) ->
       files (snd (processFiles platform' cfg destinationFolder responseMap
                     questionTitle fileIds w)) !! fileId
       = files (snd (processFiles platform cfg destinationFolder responseMap
                       questionTitle fileIds w)) !! fileId /\
       (fault platform' (FolderGetName (idOf destinationFolder))
        = fault platform (FolderGetName (idOf destinationFolder)) ->
        message (notFound platform') = message (notFound platform) ->
        logOf (processFiles platform' cfg destinationFolder responseMap
                 questionTitle fileIds) w !! index
        = logOf (processFiles platform cfg destinationFolder responseMap
                   questionTitle fileIds) w !! index)) /\
  (forall timestamp itemResponses w0 emailSubject w1,
      prepare platform cfg timestamp itemResponses w0
      = (Ok (responseMap, emailSubject, destinationFolder), w1) ->
      uploadsAreArrays itemResponses = true ->
      fault platform (SendEmail (notificationMail cfg itemResponses emailSubject))
      = None ->
      exists w' cs,
        onFormSubmit platform cfg timestamp itemResponses w0 = (Ok tt, w') /\
        calls w' = calls w1 ++ cs
                     ++ [SendEmail (notificationMail cfg itemResponses emailSubject)] /\
        Forall (fun c => duringRouting c = true) cs /\
        List.filter isLookup cs = map GetFileById (uploadedIds itemResponses) /\
        (NoDup (uploadedIds itemResponses) ->
         forall item ids index fileId f,
           In item itemResponses -> getType item = FILE_UPLOAD ->
           getResponse item = RArray ids -> ids !! index = Some fileId ->
           files w1 !! fileId = Some f ->
           (forall c, aboutFile fileId c = true -> fault platform c = None) ->
           files w' !! fileId
           = Some {| fileName :=
                       newFileNameOf cfg responseMap (getTitle item)
                         (List.length ids) index (fileName f);
                     fileParent := idOf destinationFolder |})).
Proof.
  split_and!.
  - destruct (processFiles_run platform cfg destinationFolder responseMap
                questionTitle fileIds w) as (w' & _ & H & _). eauto.
  - apply callsOf_processFiles.
  - unfold logOf.
    destruct (processFiles_run platform cfg destinationFolder responseMap
                questionTitle fileIds w)
      as (w' & _ & -> & _ & _ & _ & _ & _ & Hlen & _).
    simpl. rewrite length_drop. lia.
  - intros Hnodup index fileId Hindex. split_and!.
    + rewrite logOf_processFiles, logOf_processFile by done.
      rewrite list_lookup_imap, Hindex. done.
    + by rewrite (files_processFiles _ _ _ _ _ _ _ index), files_processFile.
    + rewrite logOf_processFiles, list_lookup_imap, Hindex by done. simpl.
      eexists. split; [done |]. apply outcomeOf_shape.
    + intros f Hf Hok. split.
      * rewrite (files_processFiles _ _ _ _ _ _ _ index), Hf by done.
        by apply fileAfter_ok.
      * intros Hfolder.
        rewrite logOf_processFiles, list_lookup_imap, Hindex by done.
        simpl. rewrite Hf. by rewrite outcomeOf_renamed.
    + intros platform' Hagree. split.
      * rewrite !(files_processFiles _ _ _ _ _ _ _ index) by done.
        by apply fileAfter_platform.
      * intros Hfolder Hmissing. rewrite !logOf_processFiles by done.
        rewrite !list_lookup_imap, Hindex. simpl. f_equal.
        by apply outcomeOf_platform.
  - intros timestamp itemResponses w0 emailSubject w1 Hprep Hshape Hmail.
    destruct (onFormSubmit_routes platform cfg timestamp itemResponses w0
                responseMap emailSubject destinationFolder w1 Hprep Hshape)
      as (cs & Hcs & Hret & Hall & Hlook & Hnew & _).
    rewrite Hmail in Hcs. specialize (Hret Hmail).
    destruct (onFormSubmit platform cfg timestamp itemResponses w0) as [r w'].
    simpl in *. subst r. exists w', cs. split_and!; [done..|].
    intros Hnodup item ids index fileId f Hin Htype Hresp Hindex Hf Hok.
    rewrite (Hnew Hnodup item ids index fileId Hin Htype Hresp Hindex), Hf.
    by apply fileAfter_ok.
Qed.

Lemma per_file_failure_isolation_witness :
  files (snd (processFiles failingMove CONFIG sampleFolder ∅ "Upload Quote"
                ["file-1"; "file-2"; "file-3"] sampleDrive)) !! "file-3"
  = Some {| fileName := "N-A - N-A - N-A - Upload Quote (3).PDF";
            fileParent := "folder-1" |} /\
  exists w' cs,
    onFormSubmit failingMove CONFIG "20250101-0800" sampleSubmission sampleDrive
    = (Ok tt, w') /\
    calls w'
    = calls (snd (prepare failingMove CONFIG "20250101-0800" sampleSubmission
                    sampleDrive))
        ++ cs
        ++ [SendEmail
              (notificationMail CONFIG sampleSubmission
                 (buildFromTemplate (EMAIL_SUBJECT_TEMPLATE CONFIG)
                    (buildResponseMap sampleSubmission) ∅))] /\
    List.filter isLookup cs
    = [GetFileById "file-1"; GetFileById "file-2"; GetFileById "file-3"] /\
    files w' !! "file-3"
    = Some {| fileName := "N-A -  Acme  - N-A - Upload Quote (3).PDF";
              fileParent := "folder-1" |}.
Proof.
  assert (Hnodup : NoDup ["file-1"; "file-2"; "file-3"])
    by (apply (bool_decide_unpack _); vm_compute; exact I).
  assert (Hown : forall c, aboutFile "file-3" c = true ->
                           fault failingMove c = None).
  { intros c Hc. destruct c; simpl in *; try reflexivity.
    destruct (String.eqb_spec fileId "file-3") as [->|];
      [reflexivity | discriminate]. }
  split.
  - destruct (per_file_failure_isolation failingMove CONFIG sampleFolder ∅
                "Upload Quote" ["file-1"; "file-2"; "file-3"] sampleDrive)
      as (_ & _ & _ & Hfile & _).
    destruct (Hfile Hnodup 2%nat "file-3" eq_refl) as (_ & _ & _ & Hgood & _).
    exact (proj1 (Hgood {| fileName := "specs - Jane Doe.PDF";
                           fileParent := "uploads" |} eq_refl Hown)).
  - destruct (per_file_failure_isolation failingMove CONFIG
                {| idOf := "folder-1";
                   nameOf := buildFolderName CONFIG sampleSubmission
                               "20250101-0800" |}
                (buildResponseMap sampleSubmission) "Upload Quote" []
                sampleDrive)
      as (_ & _ & _ & _ & Hrun).
    destruct (Hrun "20250101-0800" sampleSubmission sampleDrive
                (buildFromTemplate (EMAIL_SUBJECT_TEMPLATE CONFIG)
                   (buildResponseMap sampleSubmission) ∅)
                (snd (prepare failingMove CONFIG "20250101-0800"
                        sampleSubmission sampleDrive))
                eq_refl eq_refl eq_refl)
      as (w' & cs & Hwhole & Hcalls & _ & Hlook & Hfiles).
    exists w', cs. split; [exact Hwhole |]. split; [exact Hcalls |].
    split; [exact Hlook |].
    exact (Hfiles Hnodup
             {| getTitle := "Upload Quote"; getType := FILE_UPLOAD;
                getResponse := RArray ["file-1"; "file-2"; "file-3"] |}
             ["file-1"; "file-2"; "file-3"] 2%nat "file-3"
             {| fileName := "specs - Jane Doe.PDF"; fileParent := "uploads" |}
             (or_intror (or_intror (or_introl eq_refl))) eq_refl eq_refl
             eq_refl eq_refl Hown).
Defined.

(** C3, where the code departs from the claim.  A placeholder that is a key of
    neither mapping but names a property every object inherits does not
    resolve to the fixed text: the read finds the inherited method and the
    replacement writes its source text. *)
Theorem inherited_name_does_not_resolve_to_NA :
  buildFromTemplate "{toString}" ∅ ∅ = "function toString() { [native code] }" /\
  buildFromTemplate "Order for {constructor}" ∅ ∅
  = "Order for function Object() { [native code] }" /\
  documentedValue ∅ ∅ "toString" = "N/A".
Proof. split_and!; vm_compute; reflexivity. Qed.

(** C4, counterexample.  In the special branch the stripped original name is
    copied after the sanitized prefix, so a colon of the original name is
    still in the generated name. *)
Lemma special_name_keeps_colon :
  newFileNameOf CONFIG ∅ (SPECIAL_NAMING_QUESTION_TITLE CONFIG) 1 0 "a:b.pdf"
  = "N-A - N-A - N-A - a:b.pdf" /\
  hasIllegal
    (newFileNameOf CONFIG ∅ (SPECIAL_NAMING_QUESTION_TITLE CONFIG) 1 0 "a:b.pdf")
  = true.
Proof. split; vm_compute; reflexivity. Qed.

(** C4, amended.  Sanitizing twice is sanitizing once, and a sanitized text
    holds none of the nine characters; a generated name holds one of them
    exactly when a part copied from the original name does: the extension in
    both branches, the stripped base name in the special branch. *)
Theorem sanitize_idempotent_and_scope :
  (forall s, sanitize (sanitize s) = sanitize s) /\
  (forall s, hasIllegal (sanitize s) = false) /\
  (forall cfg responseMap questionTitle fileCount index originalName,
      hasIllegal
        (newFileNameOf cfg responseMap questionTitle fileCount index originalName)
      = if String.eqb questionTitle (SPECIAL_NAMING_QUESTION_TITLE cfg)
        then hasIllegal (originalBaseNameOf originalName)
             || hasIllegal (extensionOf originalName)
        else hasIllegal (extensionOf originalName)).
Proof.
  split_and!; [apply sanitize_twice | apply sanitize_legal |].
  intros cfg responseMap questionTitle fileCount index originalName.
  destruct (String.eqb questionTitle (SPECIAL_NAMING_QUESTION_TITLE cfg)) eqn:E.
  - apply String.eqb_eq in E as ->. rewrite newFileNameOf_special.
    rewrite !hasIllegal_append, sanitize_legal. done.
  - rewrite newFileNameOf_standard by done.
    rewrite !hasIllegal_append, sanitize_legal, hasIllegal_numberSuffix. done.
Qed.

(** The stripped base name where the name has a separator or a dot.  In the
    special branch the generated name is the sanitized prefix, the
    separator, the stripped base name and the extension.  The stripped base
    name is what precedes the last occurrence of the separator; without
    separator, for a name made of a stem, a dot and an extension, it is the
    stem.  Both examples of the specification hold. *)
Lemma special_branch_stripped_base :
  (forall cfg responseMap fileCount index originalName,
      newFileNameOf cfg responseMap (SPECIAL_NAMING_QUESTION_TITLE cfg)
        fileCount index originalName
      = sanitize (buildFromTemplate (FILE_NAME_PREFIX_TEMPLATE cfg) responseMap ∅)
          +:+ " - " +:+ originalBaseNameOf originalName
          +:+ extensionOf originalName) /\
  (forall pre post,
      JS.occursIn " - " (JS.drop 1 (" - " +:+ post)) = false ->
      originalBaseNameOf (pre +:+ " - " +:+ post) = pre) /\
  (forall stem ext,
      JS.occursIn " - " (stem +:+ "." +:+ ext) = false ->
      hasChar "." ext = false ->
      originalBaseNameOf (stem +:+ "." +:+ ext) = stem /\
      extensionOf (stem +:+ "." +:+ ext) = "." +:+ ext) /\
  originalBaseNameOf "Report - Jane Doe.pdf" = "Report" /\
  originalBaseNameOf "Report.pdf" = "Report".
Proof.
  split_and!.
  - apply newFileNameOf_special.
  - apply originalBaseNameOf_separator.
  - intros stem ext Hsep Hdot. split.
    + by apply originalBaseNameOf_fallback.
    + by apply extensionOf_dot.
  - reflexivity.
  - reflexivity.
Qed.

Lemma special_branch_stripped_base_witness :
  originalBaseNameOf ("Report" +:+ " - " +:+ "Jane Doe.pdf") = "Report" /\
  originalBaseNameOf ("Report" +:+ "." +:+ "pdf") = "Report" /\
  extensionOf ("Report" +:+ "." +:+ "pdf") = "." +:+ "pdf".
Proof.
  destruct special_branch_stripped_base as (_ & Hsep & Hdot & _).
  split.
  - exact (Hsep "Report" "Jane Doe.pdf" eq_refl).
  - exact (Hdot "Report" "pdf" eq_refl eq_refl).
Defined.

(** C5, where the code departs from the claim.  For a name with neither
    separator nor dot the fallback does not strip the extension only: the
    second [lastIndexOf] answers [-1] as well, [substring(0, -1)] is empty,
    and the stripped base name is the empty text, not the name.  The
    generated name keeps one character of the original name, its last,
    taken as the extension. *)
Theorem special_branch_dotless_base_is_empty stem c :
  JS.occursIn " - " (stem +:+ JS.str c) = false ->
  hasChar "." (stem +:+ JS.str c) = false ->
  originalBaseNameOf (stem +:+ JS.str c) = EmptyString /\
  originalBaseNameOf (stem +:+ JS.str c) <> stem +:+ JS.str c /\
  forall cfg responseMap fileCount index,
    newFileNameOf cfg responseMap (SPECIAL_NAMING_QUESTION_TITLE cfg) fileCount
      index (stem +:+ JS.str c)
    = sanitize (buildFromTemplate (FILE_NAME_PREFIX_TEMPLATE cfg) responseMap ∅)
        +:+ " - " +:+ JS.str c.
Proof.
  intros Hsep Hdot.
  assert (originalBaseNameOf (stem +:+ JS.str c) = EmptyString) as Hbase
    by (by apply originalBaseNameOf_dotless).
  split_and!; [done | |].
  - rewrite Hbase. by destruct stem.
  - intros cfg responseMap fileCount index.
    by rewrite newFileNameOf_special, Hbase, extensionOf_dotless.
Qed.

Lemma special_branch_dotless_base_is_empty_witness :
  originalBaseNameOf "README" = EmptyString /\
  newFileNameOf CONFIG ∅ (SPECIAL_NAMING_QUESTION_TITLE CONFIG) 1 0 "README"
  = "N-A - N-A - N-A - E".
Proof.
  destruct (special_branch_dotless_base_is_empty "READM" "E"%char eq_refl
              eq_refl) as (Hbase & _ & Hname).
  split; [exact Hbase |].
  exact (eq_trans (Hname CONFIG ∅ 1%nat 0%nat) eq_refl).
Defined.

(** C6.  On a standard question whose files have distinct ids, the file at
    position [index] (counted from 0) is either logged as failed or renamed:
    when renamed, its new name in the log and on the Drive is the sanitized
    base name, then the number [index + 1] between parentheses if the
    question has more than one file and nothing if it has one, then the
    extension.  Whenever the file exists and no call about it fails, it
    carries that name on the Drive, in the destination folder, and it is
    logged as renamed when the name of the folder can be read for the
    log. *)
Theorem disambiguation_numbering platform cfg destinationFolder responseMap
  questionTitle fileIds w :
  String.eqb questionTitle (SPECIAL_NAMING_QUESTION_TITLE cfg) = false ->
  NoDup fileIds ->
  forall index fileId,
    fileIds !! index = Some fileId ->
    exists entry,
      logOf (processFiles platform cfg destinationFolder responseMap
               questionTitle fileIds) w !! index = Some entry /\
      (isRenamed entry = true ->
       exists f,
         let newFileName :=
           sanitize (buildFromTemplate (FILE_NAME_TEMPLATE cfg) responseMap
                       {[ "QuestionTitle" := questionTitle ]})
             +:+ (if (1 <? List.length fileIds)%nat
                  then " (" +:+ pretty (index + 1)%nat +:+ ")"
                  else EmptyString)
             +:+ extensionOf (fileName f) in
         files w !! fileId = Some f /\
         entry = LogRenamed (fileName f) newFileName (nameOf destinationFolder) /\
         files (snd (processFiles platform cfg destinationFolder responseMap
                       questionTitle fileIds w)) !! fileId
         = Some {| fileName := newFileName;
                   fileParent := idOf destinationFolder |}) /\
      ((forall c, aboutFile fileId c = true -> fault platform c = None) ->
       is_Some (files w !! fileId) ->
       (exists f,
           let newFileName :=
             sanitize (buildFromTemplate (FILE_NAME_TEMPLATE cfg) responseMap
                         {[ "QuestionTitle" := questionTitle ]})
               +:+ (if (1 <? List.length fileIds)%nat
                    then " (" +:+ pretty (index + 1)%nat +:+ ")"
                    else EmptyString)
               +:+ extensionOf (fileName f) in
           files w !! fileId = Some f /\
           files (snd (processFiles platform cfg destinationFolder responseMap
                         questionTitle fileIds w)) !! fileId
           = Some {| fileName := newFileName;
                     fileParent := idOf destinationFolder |}) /\
       (fault platform (FolderGetName (idOf destinationFolder)) = None ->
        isRenamed entry = true)).
Proof.
  intros Hstd Hnodup index fileId Hindex.
  rewrite logOf_processFiles, list_lookup_imap, Hindex by done. simpl.
  eexists. split; [done |]. split.
  - intros Hren.
    destruct (outcomeOf_isRenamed _ _ _ _ _ _ _ _ _ Hren)
      as (f & Hf & Hentry & Hafter).
    exists f. simpl.
    rewrite newFileNameOf_standard in Hentry by done.
    split_and!; [done | done |].
    rewrite (files_processFiles _ _ _ _ _ _ _ index), Hafter by done.
    by rewrite newFileNameOf_standard.
  - intros Hok [f Hf]. split.
    + exists f. simpl. split; [done |].
      rewrite (files_processFiles _ _ _ _ _ _ _ index), Hf by done.
      rewrite fileAfter_ok by done. by rewrite newFileNameOf_standard.
    + intros Hfolder. rewrite Hf. by rewrite outcomeOf_renamed.
Qed.

Lemma disambiguation_numbering_witness :
  exists entry,
    logOf (processFiles failingMove CONFIG sampleFolder ∅ "Upload Quote"
             ["file-1"; "file-2"; "file-3"]) sampleDrive !! 2%nat = Some entry /\
    isRenamed entry = true.
Proof.
  assert (Hnodup : NoDup ["file-1"; "file-2"; "file-3"])
    by (apply (bool_decide_unpack _); vm_compute; exact I).
  destruct (disambiguation_numbering failingMove CONFIG sampleFolder ∅
              "Upload Quote" ["file-1"; "file-2"; "file-3"] sampleDrive
              eq_refl Hnodup 2%nat "file-3" eq_refl)
    as (entry & Hentry & _ & Hren).
  exists entry. split; [exact Hentry |].
  refine (proj2 (Hren _ _) eq_refl).
  - intros c Hc. destruct c; simpl in *; try reflexivity.
    destruct (String.eqb_spec fileId "file-3") as [->|]; [reflexivity | discriminate].
  - eexists. vm_compute. reflexivity.
Defined.

(** C7, where the code departs from the claim.  A text answer is trimmed, a
    list answer is joined and kept as it is: a list answer made of white
    space is neither trimmed nor dropped, and the folder name differs from
    the one the specification words. *)
Theorem list_answer_is_not_trimmed :
  buildFolderName CONFIG sampleSubmission "20250101-0800"
  = "20250101-0800_PENDING_Acme_ " /\
  claimedFolderName CONFIG sampleSubmission "20250101-0800"
  = "20250101-0800_PENDING_Acme".
Proof. split; vm_compute; reflexivity. Qed.

(** C8.  When the script raises before any file is touched, that is while
    it looks up the target Drive, creates the folder and reads its name and
    id for the log, what follows the exception is a single call: the alert
    mailed to the administrator about that error.  The calls of the whole run thus hold exactly one mail, that
    alert, and no call that looks up, renames or moves a file; the run ends
    normally when the mail service accepts the alert. *)
Theorem fatal_path_single_admin_notification platform cfg timestamp
  itemResponses w e w1 :
  prepare platform cfg timestamp itemResponses w = (Throw e, w1) ->
  callsOf (onFormSubmit platform cfg timestamp itemResponses) w
  = callsOf (prepare platform cfg timestamp itemResponses) w
      ++ [SendEmail (adminMail cfg e)] /\
  List.filter isSendEmail
    (callsOf (onFormSubmit platform cfg timestamp itemResponses) w)
  = [SendEmail (adminMail cfg e)] /\
  List.filter isFileRouting
    (callsOf (onFormSubmit platform cfg timestamp itemResponses) w) = [] /\
  mailTo (adminMail cfg e) = ADMIN_EMAIL cfg /\
  (fault platform (SendEmail (adminMail cfg e)) = None ->
   fst (onFormSubmit platform cfg timestamp itemResponses w) = Ok tt).
Proof.
  intros Hprep. unfold callsOf.
  destruct (onFormSubmit_catch platform cfg timestamp itemResponses w e w1
              (tryBlock_prepare_raises _ _ _ _ _ _ _ Hprep)) as (-> & _ & Hok).
  destruct (prepare_calls platform cfg timestamp itemResponses w)
    as (cs & Hcs & Hmail & Hrouting).
  rewrite Hprep in *. simpl in Hcs. simpl.
  rewrite Hcs, <- app_assoc, !drop_app_length, !List.filter_app.
  rewrite (filter_none _ _ Hmail), (filter_none _ _ Hrouting). done.
Qed.

Lemma fatal_path_single_admin_notification_witness :
  List.filter isSendEmail
    (callsOf (onFormSubmit failingCreate CONFIG "20250101-0800" sampleSubmission)
       sampleDrive)
  = [SendEmail (adminMail CONFIG serviceError)] /\
  List.filter isFileRouting
    (callsOf (onFormSubmit failingCreate CONFIG "20250101-0800" sampleSubmission)
       sampleDrive) = [] /\
  fst (onFormSubmit failingCreate CONFIG "20250101-0800" sampleSubmission
         sampleDrive) = Ok tt.
Proof.
  assert (Hprep :
    prepare failingCreate CONFIG "20250101-0800" sampleSubmission sampleDrive
    = (Throw serviceError,
       snd (prepare failingCreate CONFIG "20250101-0800" sampleSubmission
              sampleDrive)))
    by (vm_compute; reflexivity).
  destruct (fatal_path_single_admin_notification _ _ _ _ _ _ _ Hprep)
    as (_ & Hmail & Hrouting & _ & Hok).
  split; [exact Hmail |]. split; [exact Hrouting |]. exact (Hok eq_refl).
Defined.

(** C9, counterexample.  Malformed tokens, empty braces or a brace that is
    never closed, are not replaced by the fixed text: they stay as they
    are. *)
Lemma malformed_placeholder_is_kept :
  buildFromTemplate "{}" ∅ ∅ = "{}" /\
  buildFromTemplate "PO {Vendor" ∅ ∅ = "PO {Vendor" /\
  buildFromTemplate "{}" ∅ ∅ <> "N/A".
Proof. split_and!; [vm_compute; reflexivity .. | discriminate]. Qed.

(** C9, amended.  A well-formed placeholder whose text is a key of neither
    mapping, and not the name of a property every object inherits, is
    replaced by the fixed text [N/A]; a template without well-formed
    placeholder, whatever malformed tokens it holds, comes out unchanged. *)
Theorem unmatched_placeholder_resolves_to_NA responseMap additionalPlaceholders :
  (forall pre X rest,
      inert pre = true ->
      X <> EmptyString -> hasChar "}" X = false ->
      additionalPlaceholders !! X = None -> responseMap !! X = None ->
      Object_prototype X = None ->
      buildFromTemplate (pre +:+ "{" +:+ X +:+ "}" +:+ rest)
        responseMap additionalPlaceholders
      = pre +:+ "N/A"
          +:+ buildFromTemplate rest responseMap additionalPlaceholders) /\
  (forall s,
      hasPlaceholder s = false ->
      buildFromTemplate s responseMap additionalPlaceholders = s).
Proof.
  split.
  - intros pre X rest Hin Hne Hno Hov Hbase Hproto.
    rewrite buildFromTemplate_token by done.
    rewrite placeholderValue_documented by done.
    unfold documentedValue. by rewrite Hov, Hbase.
  - intros s Hs. by apply buildFromTemplate_none.
Qed.

Lemma unmatched_placeholder_resolves_to_NA_witness :
  buildFromTemplate ("{}x - " +:+ "{" +:+ "B" +:+ "}" +:+ " {")
    {[ "A" := "x" ]} ∅
  = "{}x - " +:+ "N/A" +:+ buildFromTemplate " {" {[ "A" := "x" ]} ∅ /\
  buildFromTemplate " {" {[ "A" := "x" ]} ∅ = " {".
Proof.
  destruct (unmatched_placeholder_resolves_to_NA {[ "A" := "x" ]} ∅)
    as [Htoken Hnone].
  split.
  - apply Htoken; [reflexivity | discriminate | reflexivity | reflexivity
                   | vm_compute; reflexivity | reflexivity].
  - apply Hnone. reflexivity.
Defined.

(** C10.  An item that is neither a file upload nor excluded and whose answer
    is absent puts in the body of the notification, after its escaped
    title, the fallback text with its markup escaped: the text goes through
    [escapeHtml] like any answer. *)
Theorem missing_answer_shows_escaped_fallback cfg itemResponses emailSubject
  index item :
  itemResponses !! index = Some item ->
  ItemType_eqb (getType item) FILE_UPLOAD = false ->
  JS.includes (EXCLUDE_FROM_EMAIL_BODY cfg) (getTitle item) = false ->
  getResponse item = RNull ->
  escapeHtml "<em>No response provided</em>"
  = "&lt;em&gt;No response provided&lt;/em&gt;" /\
  JS.occursIn
    ("<strong>" +:+ escapeHtml (getTitle item)
       +:+ ":</strong> &lt;em&gt;No response provided&lt;/em&gt;<br/><br/>")
    (mailBody (notificationMail cfg itemResponses emailSubject)) = true /\
  forall platform w,
    List.filter isSendEmail
      (callsOf (sendNotificationEmail platform cfg itemResponses emailSubject) w)
    = [SendEmail (notificationMail cfg itemResponses emailSubject)].
Proof.
  intros Hindex Htype Hincl Hnull. split_and!.
  - vm_compute; reflexivity.
  - cbn [mailBody notificationMail]. rewrite <- (take_drop_middle _ _ _ Hindex).
    rewrite buildEmailBody_middle, emailFragment_absent by done.
    apply occursIn_spec. eexists. eexists _, _. split; reflexivity.
  - intros platform w. unfold callsOf, sendNotificationEmail, sendEmail, call,
      bind, log, ret. simpl.
    destruct (fault platform (SendEmail _)); simpl;
      by rewrite drop_app_length.
Qed.

Lemma missing_answer_shows_escaped_fallback_witness :
  JS.occursIn
    "<strong>Notes:</strong> &lt;em&gt;No response provided&lt;/em&gt;<br/><br/>"
    (mailBody (notificationMail CONFIG sampleSubmission "Purchase Order Submission"))
  = true.
Proof.
  exact (proj1 (proj2 (missing_answer_shows_escaped_fallback CONFIG
           sampleSubmission "Purchase Order Submission" 3%nat
           {| getTitle := "Notes"; getType := PARAGRAPH_TEXT; getResponse := RNull |}
           eq_refl eq_refl eq_refl eq_refl))).
Defined.

(** * Further properties of the code *)


(** X21, escaping in one pass.  The five replacements of [escapeHtml], run one
    after the other with the ampersand first, come to one pass over the
    text in which each of the five characters becomes its own entity and
    any other character is kept: no entity is escaped a second time.  So
    escaping distributes over concatenation. *)
Theorem escapeHtml_one_pass :
  (forall text, escapeHtml text = escapeEach text) /\
  (forall s t, escapeHtml (s +:+ t) = escapeHtml s +:+ escapeHtml t).
Proof. split; [apply escapeHtml_escapeEach | apply escapeHtml_append]. Qed.

(** X22, escaped text is free of markup.  Whatever the text, what [escapeHtml]
    returns holds no angle bracket and no quote, double or single. *)
Theorem escapeHtml_markup_free text :
  hasChar "<" (escapeHtml text) = false /\
  hasChar ">" (escapeHtml text) = false /\
  hasChar JS.dquote (escapeHtml text) = false /\
  hasChar "'" (escapeHtml text) = false.
Proof.
  rewrite escapeHtml_escapeEach.
  induction text as [|c text (IH1 & IH2 & IH3 & IH4)]; [done |].
  simpl. rewrite !hasChar_append, IH1, IH2, IH3, IH4, !orb_false_r.
  split_and!; by apply entityOf_markup_free.
Qed.

(** X23, escaping loses nothing.  Two texts with the same escaped form are
    the same text. *)
Theorem escapeHtml_injective s t : escapeHtml s = escapeHtml t -> s = t.
Proof. rewrite !escapeHtml_escapeEach. apply escapeEach_injective. Qed.

Lemma escapeHtml_injective_witness :
  escapeHtml ("a" +:+ "<b") = escapeHtml "a<b" /\ "a" +:+ "<b" = "a<b".
Proof.
  split; [reflexivity |].
  exact (escapeHtml_injective ("a" +:+ "<b") "a<b" eq_refl).
Defined.

(** X24, escaping twice.  Escaping an escaped text again gives the same text
    exactly when the original holds none of the five characters; then
    escaping leaves it as it is. *)
Theorem escapeHtml_twice text :
  (escapeHtml (escapeHtml text) = escapeHtml text <-> hasHtmlSpecial text = false) /\
  (escapeHtml text = text <-> hasHtmlSpecial text = false).
Proof.
  assert (escapeHtml text = text <-> hasHtmlSpecial text = false) as Hfixed
    by (rewrite escapeHtml_escapeEach; apply escapeEach_fixed).
  split; [| done]. rewrite <- Hfixed. split.
  - intros H. rewrite !escapeHtml_escapeEach in *.
    by apply escapeEach_injective in H.
  - intros H. by rewrite !H.
Qed.


(** X1, one trigger after [initialize].  On a project whose triggers have
    distinct ids, when no ScriptApp call raises and the id of the new trigger
    is not the id of a trigger that stays, [initialize] returns normally; the
    triggers are then those of the other handlers, in their order, followed
    by the new one: exactly one trigger calls [onFormSubmit], it is a form
    submit trigger on the active form, and the ids are still distinct. *)
Theorem initialize_registers_once platform form p :
  NoDup (map getUniqueId (projectTriggers p)) ->
  (forall c, scriptFault platform c = None) ->
  newTriggerId platform ∉
    map getUniqueId
      (List.filter otherHandler (projectTriggers p)) ->
  exists p',
    initialize platform form p = (Ok tt, p') /\
    projectTriggers p'
    = List.filter otherHandler (projectTriggers p)
        ++ [submitTrigger platform form] /\
    List.filter isSubmitHandler (projectTriggers p')
    = [ {| getUniqueId := newTriggerId platform;
           getHandlerFunction := "onFormSubmit";
           getEventType := ON_FORM_SUBMIT;
           getTriggerSourceId := form |} ] /\
    NoDup (map getUniqueId (projectTriggers p')).
Proof.
  intros Hnodup Hok Hfresh. eexists. split; [by apply initialize_run |].
  simpl. split_and!; [done | |].
  - rewrite List.filter_app. simpl. by rewrite filter_submit_others.
  - rewrite map_app. simpl. apply NoDup_app. split_and!.
    + by apply NoDup_fmap_filter.
    + intros x Hx [<-|[]]%list_elem_of_In. by apply Hfresh.
    + apply NoDup_singleton.
Qed.

Lemma initialize_registers_once_witness :
  exists p',
    initialize reliableScript "form-1" sampleProject = (Ok tt, p') /\
    projectTriggers p'
    = [ {| getUniqueId := "t2"; getHandlerFunction := "dailyReport";
           getEventType := CLOCK; getTriggerSourceId := EmptyString |};
        {| getUniqueId := "t4"; getHandlerFunction := "onFormSubmit";
           getEventType := ON_FORM_SUBMIT; getTriggerSourceId := "form-1" |} ].
Proof.
  assert (Hnodup : NoDup (map getUniqueId (projectTriggers sampleProject)))
    by (apply (bool_decide_unpack _); vm_compute; exact I).
  assert (Hfresh : newTriggerId reliableScript ∉
            map getUniqueId
              (List.filter otherHandler (projectTriggers sampleProject)))
    by (apply (bool_decide_unpack _); vm_compute; exact I).
  destruct (initialize_registers_once reliableScript "form-1" sampleProject
              Hnodup (fun c => eq_refl) Hfresh) as (p' & Hrun & Hlist & _).
  exists p'. split; [exact Hrun | exact Hlist].
Defined.

(** X2, running [initialize] again.  Under the same conditions a second run,
    whatever id its trigger gets, ends with the same triggers as the first
    but for that id: the trigger of the first run is deleted, not
    doubled. *)
Theorem initialize_again platform platform' form p :
  NoDup (map getUniqueId (projectTriggers p)) ->
  (forall c, scriptFault platform c = None) ->
  (forall c, scriptFault platform' c = None) ->
  newTriggerId platform ∉
    map getUniqueId
      (List.filter otherHandler (projectTriggers p)) ->
  projectTriggers
    (snd (initialize platform' form (snd (initialize platform form p))))
  = List.filter otherHandler (projectTriggers p)
      ++ [submitTrigger platform' form].
Proof.
  intros Hnodup Hok Hok' Hfresh. rewrite (initialize_run platform) by done.
  simpl. rewrite initialize_run; [| | done].
  - simpl. rewrite List.filter_app. simpl.
    by rewrite app_nil_r, filter_others_others.
  - simpl. rewrite map_app. simpl. apply NoDup_app. split_and!.
    + by apply NoDup_fmap_filter.
    + intros x Hx [<-|[]]%list_elem_of_In. by apply Hfresh.
    + apply NoDup_singleton.
Qed.

Lemma initialize_again_witness :
  projectTriggers
    (snd (initialize reliableScript "form-1"
            (snd (initialize reliableScript "form-1" sampleProject))))
  = [ {| getUniqueId := "t2"; getHandlerFunction := "dailyReport";
         getEventType := CLOCK; getTriggerSourceId := EmptyString |};
      {| getUniqueId := "t4"; getHandlerFunction := "onFormSubmit";
         getEventType := ON_FORM_SUBMIT; getTriggerSourceId := "form-1" |} ].
Proof.
  assert (Hnodup : NoDup (map getUniqueId (projectTriggers sampleProject)))
    by (apply (bool_decide_unpack _); vm_compute; exact I).
  assert (Hfresh : newTriggerId reliableScript ∉
            map getUniqueId
              (List.filter otherHandler (projectTriggers sampleProject)))
    by (apply (bool_decide_unpack _); vm_compute; exact I).
  exact (initialize_again reliableScript reliableScript "form-1" sampleProject
           Hnodup (fun c => eq_refl) (fun c => eq_refl) Hfresh).
Defined.

(** X3, [initialize] spares the other triggers.  On a project whose triggers
    have distinct ids, whatever ScriptApp call raises and wherever the run
    stops, the triggers of the handlers other than [onFormSubmit] are all
    still there, in their order. *)
Theorem initialize_spares_other_handlers platform form p :
  NoDup (map getUniqueId (projectTriggers p)) ->
  List.filter otherHandler
    (projectTriggers (snd (initialize platform form p)))
  = List.filter otherHandler (projectTriggers p).
Proof. apply initialize_others. Qed.

Lemma initialize_spares_other_handlers_witness :
  fst (initialize failingDelete "form-1" sampleProject) = Throw serviceError /\
  List.filter otherHandler
    (projectTriggers (snd (initialize failingDelete "form-1" sampleProject)))
  = [ {| getUniqueId := "t2"; getHandlerFunction := "dailyReport";
         getEventType := CLOCK; getTriggerSourceId := EmptyString |} ].
Proof.
  split; [reflexivity |].
  assert (Hnodup : NoDup (map getUniqueId (projectTriggers sampleProject)))
    by (apply (bool_decide_unpack _); vm_compute; exact I).
  exact (initialize_spares_other_handlers failingDelete "form-1" sampleProject
           Hnodup).
Defined.


(** X19, sanitizing keeps the shape of a name.  [sanitize] works character by
    character: it keeps the length, distributes over concatenation, and
    leaves a text unchanged exactly when the text holds none of the nine
    characters. *)
Theorem sanitize_shape :
  (forall s, String.length (sanitize s) = String.length s) /\
  (forall s t, sanitize (s +:+ t) = sanitize s +:+ sanitize t) /\
  (forall s, sanitize s = s <-> hasIllegal s = false).
Proof.
  split_and!; [apply sanitize_length | apply sanitize_append | apply sanitize_fixed].
Qed.

(** X15, the numbered names of one question never collide.  On a standard
    question with more than one file, two files at different positions get
    different names, whatever their original names and extensions. *)
Theorem numbered_names_distinct cfg responseMap questionTitle fileCount i j
  name1 name2 :
  String.eqb questionTitle (SPECIAL_NAMING_QUESTION_TITLE cfg) = false ->
  (1 < fileCount)%nat ->
  i <> j ->
  newFileNameOf cfg responseMap questionTitle fileCount i name1
  <> newFileNameOf cfg responseMap questionTitle fileCount j name2.
Proof.
  intros Hstd Hmany Hij Heq.
  rewrite !newFileNameOf_standard in Heq by done.
  unfold numberSuffix in Heq. apply Nat.ltb_lt in Hmany. rewrite Hmany in Heq.
  apply (inj (String.app _)) in Heq. rewrite !append_assoc in Heq.
  apply (inj (String.app _)) in Heq.
  apply digits_closed_injective in Heq; [| apply allDigits_pretty..].
  apply (inj pretty) in Heq. lia.
Qed.

Lemma numbered_names_distinct_witness :
  newFileNameOf CONFIG ∅ "Upload Quote" 3 0 "a.pdf"
  <> newFileNameOf CONFIG ∅ "Upload Quote" 3 2 "a.pdf".
Proof.
  apply (numbered_names_distinct CONFIG ∅ "Upload Quote" 3 0 2 "a.pdf" "a.pdf");
    [reflexivity | lia | lia].
Defined.

(** X16, the special name of a file uploaded through the form.  For an original
    name made of a base, the separator, the submitter's name, a dot and an
    extension, where that separator is the last one and the extension holds
    no dot, the special branch gives the sanitized prefix, the separator,
    the base and the extension: the submitter's name is gone. *)
Theorem special_name_drops_submitter cfg responseMap fileCount index base
  submitter ext :
  JS.occursIn " - " (JS.drop 1 (" - " +:+ submitter +:+ "." +:+ ext)) = false ->
  hasChar "." ext = false ->
  newFileNameOf cfg responseMap (SPECIAL_NAMING_QUESTION_TITLE cfg) fileCount
    index (base +:+ " - " +:+ submitter +:+ "." +:+ ext)
  = sanitize (buildFromTemplate (FILE_NAME_PREFIX_TEMPLATE cfg) responseMap ∅)
      +:+ " - " +:+ base +:+ "." +:+ ext.
Proof.
  intros Hlast Hext. rewrite newFileNameOf_special.
  rewrite originalBaseNameOf_separator by done.
  replace (base +:+ " - " +:+ submitter +:+ "." +:+ ext)
    with ((base +:+ " - " +:+ submitter) +:+ "." +:+ ext)
    by (by rewrite !append_assoc).
  by rewrite extensionOf_dot.
Qed.

Lemma special_name_drops_submitter_witness :
  newFileNameOf CONFIG ∅ (SPECIAL_NAMING_QUESTION_TITLE CONFIG) 1 0
    ("Acetone SDS" +:+ " - " +:+ "Jane Doe" +:+ "." +:+ "pdf")
  = sanitize (buildFromTemplate (FILE_NAME_PREFIX_TEMPLATE CONFIG) ∅ ∅)
      +:+ " - " +:+ "Acetone SDS" +:+ "." +:+ "pdf".
Proof.
  exact (special_name_drops_submitter CONFIG ∅ 1 0 "Acetone SDS" "Jane Doe" "pdf"
           eq_refl eq_refl).
Defined.

(** X17, a dot before the separator.  When the last dot of the original name
    comes before its last separator, the extension is all that follows
    that dot, submitter's name included, and the special branch, which cuts
    the base at the separator, writes the text between the dot and the
    separator twice. *)
Theorem dot_before_separator cfg responseMap fileCount index stem middle
  submitter :
  hasChar "." (middle +:+ " - " +:+ submitter) = false ->
  JS.occursIn " - " (JS.drop 1 (" - " +:+ submitter)) = false ->
  let originalName := stem +:+ "." +:+ middle +:+ " - " +:+ submitter in
  extensionOf originalName = "." +:+ middle +:+ " - " +:+ submitter /\
  originalBaseNameOf originalName = stem +:+ "." +:+ middle /\
  newFileNameOf cfg responseMap (SPECIAL_NAMING_QUESTION_TITLE cfg) fileCount
    index originalName
  = sanitize (buildFromTemplate (FILE_NAME_PREFIX_TEMPLATE cfg) responseMap ∅)
      +:+ " - " +:+ stem +:+ "." +:+ middle
      +:+ "." +:+ middle +:+ " - " +:+ submitter.
Proof.
  intros Hdot Hsep originalName.
  assert (extensionOf originalName = "." +:+ middle +:+ " - " +:+ submitter)
    as Hext by (by apply extensionOf_dot).
  assert (originalBaseNameOf originalName = stem +:+ "." +:+ middle) as Hbase.
  { unfold originalName.
    replace (stem +:+ "." +:+ middle +:+ " - " +:+ submitter)
      with ((stem +:+ "." +:+ middle) +:+ " - " +:+ submitter)
      by (by rewrite !append_assoc).
    by apply originalBaseNameOf_separator. }
  split_and!; [done | done |].
  rewrite newFileNameOf_special, Hext, Hbase. by rewrite !append_assoc.
Qed.

Lemma dot_before_separator_witness :
  newFileNameOf CONFIG ∅ (SPECIAL_NAMING_QUESTION_TITLE CONFIG) 1 0
    "v1.2 notes - Jane Doe"
  = "N-A - N-A - N-A - v1.2 notes.2 notes - Jane Doe".
Proof.
  exact (eq_trans
           (proj2 (proj2 (dot_before_separator CONFIG ∅ 1 0 "v1" "2 notes"
                            "Jane Doe" eq_refl eq_refl)))
           eq_refl).
Defined.

(** X18, the extension is a tail of the name.  Whatever the original name, the
    extension the script computes is a suffix of it and the stripped base
    name of the special branch is a prefix of it; the extension of a name
    that is not empty is never empty: it starts at the last dot, or is the
    last character when there is no dot. *)
Theorem extension_is_suffix originalName :
  (exists pre, originalName = pre +:+ extensionOf originalName) /\
  (exists post, originalName = originalBaseNameOf originalName +:+ post) /\
  (extensionOf originalName = EmptyString <-> originalName = EmptyString).
Proof.
  split_and!.
  - unfold extensionOf, JS.slice. eexists. apply take_drop.
  - unfold originalBaseNameOf, JS.substring.
    assert (forall k, Z.min (Z.min (Z.max 0 0) (JS.len originalName))
                        (Z.min (Z.max k 0) (JS.len originalName)) = 0) as Hmin
      by (intros k; unfold JS.len; lia).
    destruct (negb _); rewrite Hmin; simpl; rewrite ?drop_0; eexists;
      apply take_drop.
  - split; [| by intros ->].
    destruct (hasChar "." originalName) eqn:Hdot.
    + destruct (split_at_last_dot _ Hdot) as (stem & ext & -> & Hext).
      by rewrite extensionOf_dot.
    + destruct originalName as [|a s] eqn:E; [done |].
      destruct (split_last_char (String a s)) as (stem & c & Heq); [done |].
      rewrite Heq in *. by rewrite extensionOf_dotless.
Qed.


(** X4, what [responseMap] holds.  Under any title but [__proto__] the map
    built by [onFormSubmit] holds the flattened answer of the last item of
    the submission with that title, the empty text when that item is not
    answered, and nothing when no item has the title; under [__proto__] it
    never holds anything. *)
Theorem responseMap_holds_last_answer itemResponses title :
  String.eqb title "__proto__" = false ->
  buildResponseMap itemResponses !! title
  = (fun item => flatAnswer (getResponse item))
      <$> last (titled title itemResponses) /\
  buildResponseMap itemResponses !! "__proto__" = None.
Proof.
  intros Hproto.
  split; [by apply buildResponseMap_lookup | apply buildResponseMap_proto].
Qed.

Lemma responseMap_holds_last_answer_witness :
  buildResponseMap
    (sampleSubmission
       ++ [ {| getTitle := "Vendor"; getType := TEXT;
               getResponse := RArray ["Acme"; "Bolt"] |} ]) !! "Vendor"
  = Some "Acme, Bolt".
Proof.
  exact (eq_trans
           (proj1 (responseMap_holds_last_answer
                     (sampleSubmission
                        ++ [ {| getTitle := "Vendor"; getType := TEXT;
                                getResponse := RArray ["Acme"; "Bolt"] |} ])
                     "Vendor" eq_refl))
           eq_refl).
Defined.

(** X11, a placeholder over a submission.  In a template resolved against the
    map of a submission, a well-formed placeholder that is the title of an
    item, and is not overridden, becomes the flattened answer of the last
    item with that title; for an item left unanswered this is the empty
    text, not [N/A]. *)
Theorem placeholder_reads_last_answer itemResponses additionalPlaceholders
  pre X rest item :
  inert pre = true ->
  X <> EmptyString -> hasChar "}" X = false ->
  String.eqb X "__proto__" = false ->
  last (titled X itemResponses) = Some item ->
  additionalPlaceholders !! X = None ->
  buildFromTemplate (pre +:+ "{" +:+ X +:+ "}" +:+ rest)
    (buildResponseMap itemResponses) additionalPlaceholders
  = pre +:+ flatAnswer (getResponse item)
      +:+ buildFromTemplate rest (buildResponseMap itemResponses)
            additionalPlaceholders.
Proof.
  intros Hin Hne Hno Hproto Hlast Hov.
  pose proof (buildResponseMap_lookup itemResponses X Hproto) as Hlook.
  rewrite Hlast in Hlook. simpl in Hlook.
  rewrite buildFromTemplate_token by done.
  rewrite placeholderValue_own by (right; by rewrite Hlook).
  unfold documentedValue. by rewrite Hov, Hlook.
Qed.

Lemma placeholder_reads_last_answer_witness :
  buildFromTemplate ("PO: " +:+ "{" +:+ "Notes" +:+ "}" +:+ "!")
    (buildResponseMap sampleSubmission) ∅
  = "PO: " +:+ EmptyString
      +:+ buildFromTemplate "!" (buildResponseMap sampleSubmission) ∅.
Proof.
  apply (placeholder_reads_last_answer sampleSubmission ∅ "PO: " "Notes" "!"
           {| getTitle := "Notes"; getType := PARAGRAPH_TEXT;
              getResponse := RNull |});
    [reflexivity | discriminate | reflexivity | reflexivity | reflexivity
     | reflexivity].
Defined.

(** X9, items that leave no trace in the folder name.  A file upload, an item
    with an excluded title and an item whose answer comes out empty (not
    answered, a text of white space, an empty list) can be added to or
    removed from a submission, anywhere, without any change to the folder
    name. *)
Theorem folder_name_skips_silent_items cfg before item after timestamp :
  silentInFolderName cfg item = true ->
  buildFolderName cfg (before ++ item :: after) timestamp
  = buildFolderName cfg (before ++ after) timestamp.
Proof.
  intros Hsilent. unfold buildFolderName. do 3 f_equal.
  rewrite !List.filter_app, !map_app, !List.filter_app. f_equal. simpl.
  unfold silentInFolderName in Hsilent.
  destruct (ItemType_eqb (getType item) FILE_UPLOAD); [done |].
  destruct (JS.includes _ _); [done |]. simpl in *.
  destruct (getResponse item); simpl; [done | by rewrite Hsilent..].
Qed.

Lemma folder_name_skips_silent_items_witness :
  buildFolderName CONFIG
    ([ {| getTitle := "Vendor"; getType := TEXT; getResponse := RString "Acme" |} ]
       ++ {| getTitle := "Notes"; getType := TEXT; getResponse := RString "   " |}
       :: [ {| getTitle := "Item"; getType := TEXT; getResponse := RString "Bolt" |} ])
    "20250101-0800"
  = buildFolderName CONFIG
      ([ {| getTitle := "Vendor"; getType := TEXT; getResponse := RString "Acme" |} ]
         ++ [ {| getTitle := "Item"; getType := TEXT; getResponse := RString "Bolt" |} ])
      "20250101-0800".
Proof.
  apply folder_name_skips_silent_items. reflexivity.
Defined.

(** X10, the folder name of a submission without usable answer.  When every
    item is a file upload, excluded or empty, the folder name is the
    timestamp followed by [_PENDING_], with nothing after the last
    underscore. *)
Theorem folder_name_without_answers cfg itemResponses timestamp :
  forallb (silentInFolderName cfg) itemResponses = true ->
  buildFolderName cfg itemResponses timestamp = timestamp +:+ "_PENDING_".
Proof.
  intros Hall. unfold buildFolderName.
  assert (List.filter (fun part => negb (String.eqb part EmptyString))
            (List.map
               (fun response =>
                  match getResponse response with
                  | RNull => JS.trim EmptyString
                  | RString s => JS.trim s
                  | RArray l => JS.join ", " l
                  end)
               (List.filter
                  (fun response =>
                     negb (ItemType_eqb (getType response) FILE_UPLOAD) &&
                     negb (JS.includes (EXCLUDE_FROM_FOLDER_NAME cfg)
                             (getTitle response)))
                  itemResponses)) = []) as ->.
  { induction itemResponses as [|item items IH]; [done |].
    simpl in Hall. apply andb_true_iff in Hall as [Hitem Hall]. simpl.
    unfold silentInFolderName in Hitem.
    destruct (ItemType_eqb (getType item) FILE_UPLOAD); [by apply IH |].
    destruct (JS.includes _ _); [by apply IH |]. simpl in *.
    destruct (getResponse item); simpl; [| rewrite Hitem ..]; by apply IH. }
  simpl. by rewrite ?append_nil_r.
Qed.

Lemma folder_name_without_answers_witness :
  buildFolderName CONFIG
    [ {| getTitle := "First Name"; getType := TEXT; getResponse := RString "Jane" |};
      {| getTitle := "Upload Quote"; getType := FILE_UPLOAD;
         getResponse := RArray ["file-1"] |};
      {| getTitle := "Notes"; getType := PARAGRAPH_TEXT; getResponse := RNull |} ]
    "20250101-0800"
  = "20250101-0800" +:+ "_PENDING_".
Proof. apply folder_name_without_answers. reflexivity. Defined.

(** X20, the markup of the notification is the script's own.  The body is the
    fragments of the items in the order of the submission, and it holds
    four opening angle brackets for each item shown (neither a file upload
    nor excluded) and no other: no title and no answer adds markup to
    it. *)
Theorem email_body_markup cfg :
  (forall l1 l2,
      buildEmailBody cfg (l1 ++ l2)
      = buildEmailBody cfg l1 +:+ buildEmailBody cfg l2) /\
  (forall itemResponses,
      countChar "<" (buildEmailBody cfg itemResponses)
      = (4 * List.length (List.filter (shownInEmail cfg) itemResponses))%nat).
Proof.
  split; [apply buildEmailBody_append |].
  induction itemResponses as [|item items IH]; [done |].
  rewrite buildEmailBody_cons, countChar_append, emailFragment_brackets, IH.
  simpl. destruct (shownInEmail cfg item); simpl; lia.
Qed.


(** X8, what a run leaves alone.  Whatever the platform does and however the
    run ends, [onFormSubmit] creates no file and deletes none, leaves every
    file that is not an uploaded file of the submission as it was, name and
    folder, and changes the folders by at most one new folder, named by
    [buildFolderName]. *)
Theorem run_touches_only_uploaded_files platform cfg timestamp itemResponses w :
  let w' := snd (onFormSubmit platform cfg timestamp itemResponses w) in
  (forall id, id ∉ uploadedIds itemResponses -> files w' !! id = files w !! id) /\
  (forall id, is_Some (files w' !! id) <-> is_Some (files w !! id)) /\
  (folders w' = folders w \/
   folders w'
   = <[newFolderId platform := buildFolderName cfg itemResponses timestamp]>
       (folders w)).
Proof.
  pose proof (tryBlock_frame platform cfg timestamp itemResponses w) as Htry.
  unfold onFormSubmit, try_catch.
  destruct (tryBlock platform cfg timestamp itemResponses w) as [[[]|e] w1];
    simpl in *; [done |].
  by destruct (catchBlock_frame platform cfg e w1) as [-> ->].
Qed.


(** X12, the four states of a file after its turn.  After [processFile], the
    file is in one of four states.  Either it is logged as renamed, and
    then it carries its new name in the destination folder.  Or it is
    logged as failed and nothing on the Drive has changed, no move having
    been tried.  Or it is logged as failed because the move itself raised:
    then it keeps its new name in its old folder, as the rename is not
    undone.  Or it is logged as failed because the name of the folder could
    not be read for the log, after the move: then it carries its new name
    in the destination folder all the same. *)
Theorem file_ends_in_one_of_four_states platform cfg destinationFolder
  responseMap questionTitle fileCount fileId index w :
  let run :=
    processFile platform cfg destinationFolder responseMap questionTitle
      fileCount fileId index in
  (exists f,
      files w !! fileId = Some f /\
      logOf run w
      = [LogRenamed (fileName f)
           (newFileNameOf cfg responseMap questionTitle fileCount index
              (fileName f))
           (nameOf destinationFolder)] /\
      files (snd (run w))
      = <[fileId := {| fileName := newFileNameOf cfg responseMap questionTitle
                                     fileCount index (fileName f);
                       fileParent := idOf destinationFolder |}]> (files w))
  \/ ((exists reason, logOf run w = [LogFailed fileId reason]) /\
      files (snd (run w)) = files w /\
      FileMoveTo fileId (idOf destinationFolder) ∉ callsOf run w)
  \/ (exists f e,
         files w !! fileId = Some f /\
         fault platform (FileMoveTo fileId (idOf destinationFolder)) = Some e /\
         logOf run w = [LogFailed fileId (message e)] /\
         files (snd (run w))
         = <[fileId := {| fileName := newFileNameOf cfg responseMap
                                        questionTitle fileCount index
                                        (fileName f);
                          fileParent := fileParent f |}]> (files w))
  \/ (exists f e,
         files w !! fileId = Some f /\
         fault platform (FileMoveTo fileId (idOf destinationFolder)) = None /\
         fault platform (FolderGetName (idOf destinationFolder)) = Some e /\
         logOf run w = [LogFailed fileId (message e)] /\
         FileMoveTo fileId (idOf destinationFolder) ∈ callsOf run w /\
         files (snd (run w))
         = <[fileId := {| fileName := newFileNameOf cfg responseMap
                                        questionTitle fileCount index
                                        (fileName f);
                          fileParent := idOf destinationFolder |}]> (files w)).
Proof.
  intros run. unfold run, logOf, callsOf, processFile, try_catch, bind,
    getFileById, getName, setName, moveTo, folderGetName, call, setFile, log,
    ret.
  destruct w as [fs fo lg cs0]. simpl.
  destruct (fault platform (GetFileById fileId)) eqn:E1; simpl.
  { right. left. rewrite !drop_app_length. split_and!; [eauto | done |].
    intros [=]%list_elem_of_singleton. }
  destruct (fs !! fileId) as [f|] eqn:Ef; simpl.
  2:{ right. left. rewrite !drop_app_length. split_and!; [eauto | done |].
      intros [=]%list_elem_of_singleton. }
  destruct (fault platform (FileGetName fileId)) eqn:E2; simpl.
  { right. left. rewrite <- !app_assoc, !drop_app_length.
    split_and!; [eauto | done |].
    intros Hin. simpl in Hin. repeat (apply elem_of_cons in Hin as [[=]|Hin]).
    by apply elem_of_nil in Hin. }
  rewrite Ef. simpl.
  destruct (fault platform (FileSetName fileId _)) eqn:E3; simpl.
  { right. left. rewrite <- !app_assoc, !drop_app_length.
    split_and!; [eauto | done |].
    intros Hin. simpl in Hin. repeat (apply elem_of_cons in Hin as [[=]|Hin]).
    by apply elem_of_nil in Hin. }
  rewrite Ef. simpl.
  destruct (fault platform (FileMoveTo fileId _)) eqn:E4; simpl.
  { right. right. left. exists f, e. by rewrite !drop_app_length. }
  rewrite lookup_insert_eq. simpl.
  destruct (fault platform (FolderGetName _)) as [e|] eqn:E5; simpl.
  - right. right. right. exists f, e.
    rewrite <- !app_assoc, !drop_app_length. simpl.
    split_and!; [done.. | | by rewrite insert_insert_eq].
    do 3 (apply elem_of_cons; right). apply elem_of_cons. by left.
  - left. exists f.
    rewrite !drop_app_length. split_and!; [done | done |]. simpl.
    by rewrite insert_insert_eq.
Qed.

(** X13, a failed move is not undone.  When the file is there, is looked up
    and renamed without failure, and the move raises, the file is logged as
    failed, stays in its folder and carries its new name. *)
Theorem failed_move_keeps_new_name platform cfg destinationFolder responseMap
  questionTitle fileCount fileId index w f e :
  files w !! fileId = Some f ->
  fault platform (GetFileById fileId) = None ->
  fault platform (FileGetName fileId) = None ->
  fault platform
    (FileSetName fileId
       (newFileNameOf cfg responseMap questionTitle fileCount index (fileName f)))
  = None ->
  fault platform (FileMoveTo fileId (idOf destinationFolder)) = Some e ->
  let run :=
    processFile platform cfg destinationFolder responseMap questionTitle
      fileCount fileId index in
  fst (run w) = Ok tt /\
  logOf run w = [LogFailed fileId (message e)] /\
  files (snd (run w)) !! fileId
  = Some {| fileName := newFileNameOf cfg responseMap questionTitle fileCount
                          index (fileName f);
            fileParent := fileParent f |}.
Proof.
  intros Hf E1 E2 E3 E4 run.
  unfold run, logOf, processFile, try_catch, bind, getFileById, getName,
    setName, moveTo, folderGetName, call, setFile, log, ret.
  destruct w as [fs fo lg cs0]. simpl in *.
  rewrite E1. simpl. rewrite Hf. simpl. rewrite E2. simpl. rewrite Hf. simpl.
  rewrite E3. simpl. rewrite Hf. simpl. rewrite E4. simpl.
  rewrite lookup_insert_eq, drop_app_length. done.
Qed.

Lemma failed_move_keeps_new_name_witness :
  files (snd (processFile failingMove CONFIG sampleFolder ∅ "Upload Quote" 3
                "file-2" 1 sampleDrive)) !! "file-2"
  = Some {| fileName := newFileNameOf CONFIG ∅ "Upload Quote" 3 1
                          "quote2 - Jane Doe.pdf";
            fileParent := "uploads" |}.
Proof.
  exact (proj2 (proj2
           (failed_move_keeps_new_name failingMove CONFIG sampleFolder ∅
              "Upload Quote" 3 "file-2" 1 sampleDrive
              {| fileName := "quote2 - Jane Doe.pdf"; fileParent := "uploads" |}
              serviceError eq_refl eq_refl eq_refl eq_refl eq_refl))).
Defined.

(** X14, a submission without uploaded file.  When the file upload questions
    of a submission carry no file at all, [processAndRenameFiles] returns
    at once: no call is made, nothing is logged, the Drive is as it was. *)
Theorem no_upload_no_call platform cfg itemResponses destinationFolder
  responseMap w :
  uploadsAreArrays itemResponses = true ->
  uploadedIds itemResponses = [] ->
  processAndRenameFiles platform cfg itemResponses destinationFolder responseMap w
  = (Ok tt, w).
Proof.
  intros Hshape Hnone. rewrite processAndRenameFiles_routeQuestions.
  by apply routeQuestions_no_upload.
Qed.

Lemma no_upload_no_call_witness :
  processAndRenameFiles reliable CONFIG
    [ {| getTitle := "Vendor"; getType := TEXT; getResponse := RString "Acme" |};
      {| getTitle := "Upload Quote"; getType := FILE_UPLOAD;
         getResponse := RArray [] |};
      {| getTitle := "Supporting Docs (SDS, Justification, etc)";
         getType := FILE_UPLOAD; getResponse := RNull |} ]
    sampleFolder ∅ sampleDrive
  = (Ok tt, sampleDrive).
Proof. apply no_upload_no_call; reflexivity. Defined.

(** X5, only the alert can fail a run.  [onFormSubmit] returns normally
    unless its [try] block raised and the mail to the administrator raised
    in turn; the exception that leaves the function is then the one of that
    mail. *)
Theorem only_alert_failure_escapes platform cfg timestamp itemResponses w :
  fst (onFormSubmit platform cfg timestamp itemResponses w) = Ok tt \/
  exists e e' w1,
    tryBlock platform cfg timestamp itemResponses w = (Throw e, w1) /\
    fault platform (SendEmail (adminMail cfg e)) = Some e' /\
    fst (onFormSubmit platform cfg timestamp itemResponses w) = Throw e'.
Proof.
  unfold onFormSubmit, try_catch.
  destruct (tryBlock platform cfg timestamp itemResponses w) as [[[]|e] w1];
    [by left |].
  unfold catchBlock, bind, log, sendEmail, call, ret. simpl.
  destruct (fault platform (SendEmail (adminMail cfg e))) as [e'|] eqn:E;
    [| by left].
  right. by exists e, e', w1.
Qed.

(** X6, a notification that cannot be sent.  When the folder is created, the
    answers have the shape of their kind and the notification mail raises,
    the files have been processed all the same: every uploaded file has
    been looked up, in the order of the upload; with distinct ids, every
    uploaded file that exists and whose own calls do not fail is renamed in
    the new folder; after the calls on the files come the notification that
    failed and then the alert to the administrator about that failure, and
    nothing else. *)
Theorem notification_failure_is_fatal platform cfg timestamp itemResponses w
  responseMap emailSubject newFolder w1 e :
  prepare platform cfg timestamp itemResponses w
  = (Ok (responseMap, emailSubject, newFolder), w1) ->
  uploadsAreArrays itemResponses = true ->
  fault platform (SendEmail (notificationMail cfg itemResponses emailSubject))
  = Some e ->
  exists cs,
    calls (snd (onFormSubmit platform cfg timestamp itemResponses w))
    = calls w1 ++ cs
        ++ [ SendEmail (notificationMail cfg itemResponses emailSubject);
             SendEmail (adminMail cfg e) ] /\
    Forall (fun c => duringRouting c = true) cs /\
    List.filter isLookup cs = map GetFileById (uploadedIds itemResponses) /\
    (NoDup (uploadedIds itemResponses) ->
     forall item ids index fileId f,
       In item itemResponses -> getType item = FILE_UPLOAD ->
       getResponse item = RArray ids -> ids !! index = Some fileId ->
       files w1 !! fileId = Some f ->
       (forall c, aboutFile fileId c = true -> fault platform c = None) ->
       files (snd (onFormSubmit platform cfg timestamp itemResponses w))
         !! fileId
       = Some {| fileName :=
                   newFileNameOf cfg responseMap (getTitle item)
                     (List.length ids) index (fileName f);
                 fileParent := idOf newFolder |}).
Proof.
  intros Hprep Hshape Hmail.
  destruct (onFormSubmit_routes platform cfg timestamp itemResponses w
              responseMap emailSubject newFolder w1 Hprep Hshape)
    as (cs & Hcs & _ & Hall & Hlook & Hnew & _).
  rewrite Hmail in Hcs. exists cs. split_and!; [done..|].
  intros Hnodup item ids index fileId f Hin Htype Hresp Hindex Hf Hok.
  rewrite (Hnew Hnodup item ids index fileId Hin Htype Hresp Hindex), Hf.
  by apply fileAfter_ok.
Qed.

Lemma notification_failure_is_fatal_witness :
  exists cs,
    calls (snd (onFormSubmit failingNotification CONFIG "20250101-0800"
                  sampleSubmission sampleDrive))
    = calls (snd (prepare failingNotification CONFIG "20250101-0800"
                    sampleSubmission sampleDrive))
        ++ cs
        ++ [ SendEmail
               (notificationMail CONFIG sampleSubmission
                  (buildFromTemplate (EMAIL_SUBJECT_TEMPLATE CONFIG)
                     (buildResponseMap sampleSubmission) ∅));
             SendEmail (adminMail CONFIG serviceError) ] /\
    List.filter isLookup cs
    = [GetFileById "file-1"; GetFileById "file-2"; GetFileById "file-3"] /\
    files (snd (onFormSubmit failingNotification CONFIG "20250101-0800"
                  sampleSubmission sampleDrive)) !! "file-2"
    = Some {| fileName := "N-A -  Acme  - N-A - Upload Quote (2).pdf";
              fileParent := "folder-1" |}.
Proof.
  assert (Hnodup : NoDup (uploadedIds sampleSubmission))
    by (apply (bool_decide_unpack _); vm_compute; exact I).
  assert (Hown : forall c, aboutFile "file-2" c = true ->
                           fault failingNotification c = None)
    by (intros c Hc; destruct c; try reflexivity; discriminate Hc).
  destruct (notification_failure_is_fatal failingNotification CONFIG
              "20250101-0800" sampleSubmission sampleDrive
              (buildResponseMap sampleSubmission)
              (buildFromTemplate (EMAIL_SUBJECT_TEMPLATE CONFIG)
                 (buildResponseMap sampleSubmission) ∅)
              {| idOf := "folder-1";
                 nameOf := buildFolderName CONFIG sampleSubmission
                             "20250101-0800" |}
              (snd (prepare failingNotification CONFIG "20250101-0800"
                      sampleSubmission sampleDrive))
              serviceError eq_refl eq_refl eq_refl)
    as (cs & Hcalls & _ & Hlook & Hfiles).
  exists cs. split; [exact Hcalls |]. split; [exact Hlook |].
  exact (Hfiles Hnodup
           {| getTitle := "Upload Quote"; getType := FILE_UPLOAD;
              getResponse := RArray ["file-1"; "file-2"; "file-3"] |}
           ["file-1"; "file-2"; "file-3"] 1%nat "file-2"
           {| fileName := "quote2 - Jane Doe.pdf"; fileParent := "uploads" |}
           (or_intror (or_intror (or_introl eq_refl))) eq_refl eq_refl eq_refl
           eq_refl Hown).
Defined.

(** X7, a run on a platform that never fails.  When no service call raises,
    the target Drive is there, the answers have the shape of their kind and
    the uploaded files have distinct ids, [onFormSubmit] returns normally;
    the new folder is on the Drive under the name [buildFolderName] gives;
    every uploaded file that exists is in that folder under the name
    computed for its question and position; and the run sends one mail,
    the notification. *)
Theorem reliable_run_moves_every_file platform cfg timestamp itemResponses w
  driveName :
  neverFails platform ->
  folders w !! TARGET_SHARED_DRIVE_ID cfg = Some driveName ->
  uploadsAreArrays itemResponses = true ->
  NoDup (uploadedIds itemResponses) ->
  exists w',
    onFormSubmit platform cfg timestamp itemResponses w = (Ok tt, w') /\
    folders w'
    = <[newFolderId platform := buildFolderName cfg itemResponses timestamp]>
        (folders w) /\
    (forall item ids index fileId f,
        In item itemResponses -> getType item = FILE_UPLOAD ->
        getResponse item = RArray ids -> ids !! index = Some fileId ->
        files w !! fileId = Some f ->
        files w' !! fileId
        = Some {| fileName :=
                    newFileNameOf cfg (buildResponseMap itemResponses)
                      (getTitle item) (List.length ids) index (fileName f);
                  fileParent := newFolderId platform |}) /\
    List.filter isSendEmail
      (callsOf (onFormSubmit platform cfg timestamp itemResponses) w)
    = [ SendEmail
          (notificationMail cfg itemResponses
             (buildFromTemplate (EMAIL_SUBJECT_TEMPLATE cfg)
                (buildResponseMap itemResponses) ∅)) ].
Proof.
  intros Hok Hdrive Hshape Hnodup.
  destruct (prepare_succeeds platform cfg timestamp itemResponses w driveName
              Hdrive (Hok _) (Hok _) (Hok _) (Hok _))
    as (w1 & Hprep & Hfs1 & Hfo1 & Hcs1).
  destruct (onFormSubmit_routes platform cfg timestamp itemResponses w _ _ _ w1
              Hprep Hshape) as (cs & Hcs & Hret & Hall & Hlook & Hnew & Hfo).
  rewrite Hok in Hcs. specialize (Hret (Hok _)).
  unfold callsOf.
  destruct (onFormSubmit platform cfg timestamp itemResponses w) as [r w'].
  simpl in *. subst r. exists w'. split_and!; [done | | |].
  - by rewrite Hfo, Hfo1.
  - intros item ids index fileId f Hin Htype Hresp Hindex Hf.
    rewrite (Hnew Hnodup item ids index fileId Hin Htype Hresp Hindex).
    rewrite Hfs1, Hf. apply fileAfter_ok. intros c _. apply Hok.
  - rewrite Hcs, Hcs1, <- !app_assoc, drop_app_length. simpl.
    rewrite List.filter_app. simpl.
    rewrite filter_none; [done |].
    eapply Forall_impl; [exact Hall |]. intros c Hc. by destruct c.
Qed.

Lemma reliable_run_moves_every_file_witness :
  exists w',
    onFormSubmit reliable CONFIG "20250101-0800" sampleSubmission sampleDrive
    = (Ok tt, w') /\
    files w' !! "file-2"
    = Some {| fileName :=
                newFileNameOf CONFIG (buildResponseMap sampleSubmission)
                  "Upload Quote" 3 1 "quote2 - Jane Doe.pdf";
              fileParent := "folder-1" |}.
Proof.
  assert (Hnodup : NoDup (uploadedIds sampleSubmission))
    by (apply (bool_decide_unpack _); vm_compute; exact I).
  destruct (reliable_run_moves_every_file reliable CONFIG "20250101-0800"
              sampleSubmission sampleDrive "Purchase Orders"
              (fun c => eq_refl) eq_refl eq_refl Hnodup)
    as (w' & Hrun & _ & Hfiles & _).
  exists w'. split; [exact Hrun |].
  exact (Hfiles
           {| getTitle := "Upload Quote"; getType := FILE_UPLOAD;
              getResponse := RArray ["file-1"; "file-2"; "file-3"] |}
           ["file-1"; "file-2"; "file-3"] 1%nat "file-2"
           {| fileName := "quote2 - Jane Doe.pdf"; fileParent := "uploads" |}
           (or_intror (or_intror (or_introl eq_refl))) eq_refl eq_refl eq_refl
           eq_refl).
Defined.

